(** * componentize: the component store, the tool protocol, the agent loops
      and the layout-to-page synthesis of [deprecated/app/agent], and the
      interaction generator of [app/agent]

    A shallow embedding of [tools.py], [component_agent.py] and
    [interaction_agent.py], followed by the properties proved of it.

    Data model.
    - A Python [str] is a [string]; the embedding covers ASCII text, so the
      case functions act on the letters A-Z / a-z and leave every other
      character alone.
    - The directory [generated/components] is a finite map from a component
      name [n] (the file [n.tsx]) to the text a read of the file returns;
      [generated/pages] likewise maps a page name to the text written.
      The map is the file system for plain names ([plain_name]: ASCII, no
      path separator, no NUL, short enough for a file name): for such a
      name the path is one file directly in its directory and the calls of
      the operating system do not fail, so the [except Exception] arms of
      [create_component], [update_component], [read_component] and
      [list_components] are not reached.  A name with a separator can
      reach another file or be refused, which the map does not describe:
      a property that depends on where a file is written carries
      [plain_name] as a hypothesis.
    - A function that can raise returns an [outcome]: [process_tool_call]
      (a missing argument), the model's API, and the assembly of a page (an
      interaction without [code]).
    - A Python [dict] whose iteration order matters is an association list
      in insertion order; a Python [set] is a [gset] together with the order
      in which the interpreter happens to enumerate it.
    - JSON values are the type [json]; numbers are integers.  A layout
      document is a record per object of the front end's schema: a list is
      absent or a list of objects, a name or a text is absent, null or a
      string; a coordinate or a dimension is any JSON value ([value]), and
      [position] and [size] may hold a value that is no object, on which
      the source raises.
    - A run of an agent loop returns, besides its result and the file
      system it leaves, the trace of what it did: calls of the model, reads
      of the store, tool dispatches and, for the streaming run, the events
      it yields, in order. *)

From Stdlib Require Import String Ascii ZArith List Bool.
From stdpp Require Import base tactics option list gmap strings sorting pretty.

Set Warnings "-register-all".

(** ** Python strings *)

Module Py.

Definition newline : string := String "010"%char EmptyString.
Definition dquote : string := String "034"%char EmptyString.

(** [c.isupper()] for one ASCII character: below 128 only A-Z are upper
    case. *)
Definition isupper (c : ascii) : bool :=
  Ascii.leb "A" c && Ascii.leb c "Z".

Definition islower (c : ascii) : bool :=
  Ascii.leb "a" c && Ascii.leb c "z".

Definition lower_char (c : ascii) : ascii :=
  if isupper c then ascii_of_N (N_of_ascii c + 32) else c.

Definition upper_char (c : ascii) : ascii :=
  if islower c then ascii_of_N (N_of_ascii c - 32) else c.

(** [s.lower()] *)
Fixpoint lower (s : string) : string :=
  match s with
  | EmptyString => EmptyString
  | String c t => String (lower_char c) (lower t)
  end.

(** [needle in hay] *)
Fixpoint contains (needle hay : string) : bool :=
  String.prefix needle hay ||
  match hay with
  | EmptyString => false
  | String _ t => contains needle t
  end.

(** Truthiness of a [str]: the empty string is falsy. *)
Definition truthy (s : string) : bool :=
  match s with EmptyString => false | String _ _ => true end.

(** Truthiness of a value that may be [None]. *)
Definition truthy_opt (o : option string) : bool :=
  match o with None => false | Some s => truthy s end.

(** [str(x)] / [f"{x}"] for an [int]. *)
Definition str_int (z : Z) : string := pretty z.

(** [f"{x}"] for a value that is a [str] or [None]. *)
Definition str_opt (o : option string) : string :=
  match o with None => "None" | Some s => s end.

(** What a text-mode [read] makes of the text written, with the default
    [newline=None]: CR LF and a lone CR are read as LF. *)
Fixpoint universal_newlines (s : string) : string :=
  match s with
  | EmptyString => EmptyString
  | String c t =>
      if Ascii.eqb c "013" then
        match t with
        | String c' t' =>
            if Ascii.eqb c' "010" then String "010" (universal_newlines t')
            else String "010" (universal_newlines t)
        | EmptyString => String "010" EmptyString
        end
      else String c (universal_newlines t)
  end.

(** [s.split(sep)] for a one-character separator. *)
Fixpoint split (sep : ascii) (s : string) : list string :=
  match s with
  | EmptyString => [EmptyString]
  | String c t =>
      if Ascii.eqb c sep then EmptyString :: split sep t
      else match split sep t with
           | h :: r => String c h :: r
           | [] => [String c EmptyString]
           end
  end.

(** [sep.join(l)] *)
Definition join (sep : string) (l : list string) : string := String.concat sep l.

(** [s[0].upper() + s[1:]] for a non-empty [s]. *)
Definition capitalize_first (s : string) : string :=
  match s with
  | EmptyString => EmptyString
  | String c t => String (upper_char c) t
  end.

(** Python's order on [str]: lexicographic by code point. *)
Definition str_le (s1 s2 : string) : Prop := String.leb s1 s2 = true.

#[export] Instance str_le_dec : RelDecision str_le.
Proof. intros s1 s2. unfold str_le. apply _. Defined.

(** [sorted(l)] for a list of [str]. *)
Definition sorted (l : list string) : list string := merge_sort str_le l.

(** *** Dictionaries in insertion order *)

Section Dict.
Context {K V : Type} `{EqDecision K}.

(** [d.get(k)] *)
Fixpoint dict_get (k : K) (d : list (K * V)) : option V :=
  match d with
  | [] => None
  | (k', v) :: r => if decide (k = k') then Some v else dict_get k r
  end.

(** [k in d] *)
Definition dict_in (k : K) (d : list (K * V)) : bool :=
  match dict_get k d with Some _ => true | None => false end.

(** [d[k] = v]: an existing key keeps its place, a new one goes last. *)
Fixpoint dict_set (k : K) (v : V) (d : list (K * V)) : list (K * V) :=
  match d with
  | [] => [(k, v)]
  | (k', v') :: r =>
      if decide (k = k') then (k', v) :: r else (k', v') :: dict_set k v r
  end.

(** [d[k] = f(d[k])] for a key that is present. *)
Fixpoint dict_alter (f : V → V) (k : K) (d : list (K * V)) : list (K * V) :=
  match d with
  | [] => []
  | (k', v') :: r =>
      if decide (k = k') then (k', f v') :: r else (k', v') :: dict_alter f k r
  end.
End Dict.

(** *** JSON values and [json.dumps] *)

Inductive json : Type :=
  | JNull
  | JBool (b : bool)
  | JInt (z : Z)
  | JStr (s : string)
  | JArr (l : list json)
  | JObj (l : list (string * json)).

Definition hex_digit (n : N) : ascii :=
  match n with
  | 0 => "0" | 1 => "1" | 2 => "2" | 3 => "3" | 4 => "4" | 5 => "5"
  | 6 => "6" | 7 => "7" | 8 => "8" | 9 => "9" | 10 => "a" | 11 => "b"
  | 12 => "c" | 13 => "d" | 14 => "e" | _ => "f"
  end%char%N.

(** One character of a string literal, as [ensure_ascii] writes it. *)
Definition escape_char (c : ascii) : string :=
  let n := N_of_ascii c in
  if Ascii.eqb c "034" then "\" +:+ dquote
  else if Ascii.eqb c "\" then "\\"
  else if Ascii.eqb c "010" then "\n"
  else if Ascii.eqb c "013" then "\r"
  else if Ascii.eqb c "009" then "\t"
  else if Ascii.eqb c "008" then "\b"
  else if Ascii.eqb c "012" then "\f"
  else if ((32 <=? n) && (n <=? 126))%N then String c EmptyString
  else "\u00" +:+ String (hex_digit (n / 16)) (String (hex_digit (n mod 16)) EmptyString).

Fixpoint escape (s : string) : string :=
  match s with
  | EmptyString => EmptyString
  | String c t => escape_char c +:+ escape t
  end.

Definition dumps_str (s : string) : string := dquote +:+ escape s +:+ dquote.

(** [json.dumps(v)] with the default separators. *)
Fixpoint dumps (v : json) : string :=
  match v with
  | JNull => "null"
  | JBool true => "true"
  | JBool false => "false"
  | JInt z => str_int z
  | JStr s => dumps_str s
  | JArr l => "[" +:+ join ", " (map dumps l) +:+ "]"
  | JObj l =>
      "{" +:+ join ", " (map (λ kv, dumps_str kv.1 +:+ ": " +:+ dumps kv.2) l) +:+ "}"
  end.

End Py.

(** ** [tools.py]: the component store and the tool protocol *)

Module Tools.
Import Py.

(** The two directories under [generated/].  A component, which the
    program reads back, is recorded by the text a text-mode read of its
    file returns; a page, which it only writes, by the text written. *)
Record filesystem : Type := {
  components : gmap string string;
  pages : gmap string string
}.

(** [with open(filepath, 'w', encoding='utf-8') as f: f.write(code)] for a
    component: what [f.read()] will return is [code] with its CR LF and
    CR read as LF. *)
Definition write_component (name code : string) (fs : filesystem) : filesystem :=
  {| components := <[name := universal_newlines code]> (components fs);
     pages := pages fs |}.

Definition write_page (name code : string) (fs : filesystem) : filesystem :=
  {| components := components fs; pages := <[name := code]> (pages fs) |}.

(** [BASE_PATH] is [Path(__file__).parent.parent.parent / "generated"]; the
    installation prefix is left out, paths are written relative to it. *)
Definition BASE_PATH : string := "generated".
Definition COMPONENTS_PATH : string := BASE_PATH +:+ "/components".
Definition PAGES_PATH : string := BASE_PATH +:+ "/pages".

(** Exceptions that leave a function of this module. *)
Inductive exn : Type :=
  | KeyError (key : string)
  | AttributeError (what : string)
  | ApiError (what : string).

(** [str(e)] *)
Definition str_exn (e : exn) : string :=
  match e with
  | KeyError key => "'" +:+ key +:+ "'"
  | AttributeError what => what
  | ApiError what => what
  end.

(** What a call yields: a value, or an exception raised to the caller. *)
Inductive outcome (A : Type) : Type :=
  | Return (a : A)
  | Raise (e : exn).
Arguments Return {A} a.
Arguments Raise {A} e.

(** A result dictionary, in the key order of the source's literal. *)
Definition dict : Type := list (string * json).

Definition status (r : dict) : option json := dict_get "status" r.

(** [result.get("status") == "success"] *)
Definition is_success (r : dict) : bool :=
  match status r with
  | Some (JStr s) => String.eqb s "success"
  | _ => false
  end.

Definition get_content (r : dict) : option json := dict_get "content" r.

Definition error_result (message : string) : dict :=
  [("status", JStr "error"); ("message", JStr message)].

(** The messages of the two content sanity checks. *)
Definition MSG_PROSE : string :=
  "The 'code' parameter should contain only the actual component code, not explanatory text. Please provide just the TypeScript/React code.".
Definition MSG_NOT_CODE : string :=
  "The code doesn't appear to contain a valid React component. Please provide complete component code.".
Definition MSG_NAME : string :=
  "Component name must start with an uppercase letter".

Definition msg_already_exists (name : string) : string :=
  "Component '" +:+ name +:+ "' already exists. Use update_component to modify it.".
Definition msg_not_found_update (name : string) : string :=
  "Component '" +:+ name +:+ "' not found. Use create_component to create it.".
Definition msg_not_found (name : string) : string :=
  "Component '" +:+ name +:+ "' not found".

(** The phrases that mark explanatory text, for [create_component] and for
    [update_component]. *)
Definition CREATE_PHRASES : list string :=
  ["here is"; "i have created"; "i've created"; "this component"; "## "].
Definition UPDATE_PHRASES : list string :=
  ["here is"; "i have updated"; "i've updated"; "the updated"; "## "].

(** [any(phrase in code_lower for phrase in phrases)] *)
Definition any_phrase_in (phrases : list string) (code_lower : string) : bool :=
  existsb (λ phrase, contains phrase code_lower) phrases.

(** ['function' not in code_lower and 'const' not in code_lower and '=>' not in code] *)
Definition no_code_pattern (code : string) : bool :=
  let code_lower := lower code in
  negb (contains "function" code_lower)
  && negb (contains "const" code_lower)
  && negb (contains "=>" code).

(** [not name or not name[0].isupper()] *)
Definition bad_name (name : string) : bool :=
  match name with
  | EmptyString => true
  | String c _ => negb (isupper c)
  end.

(** The body of the [try]: under a plain name neither [filepath.exists()]
    nor [open] raises. *)
Definition create_component (name code : string) (fs : filesystem)
    : dict * filesystem :=
  if bad_name name then (error_result MSG_NAME, fs)
  else
    let code_lower := lower code in
    if any_phrase_in CREATE_PHRASES code_lower
    then (error_result MSG_PROSE, fs)
    else if no_code_pattern code then (error_result MSG_NOT_CODE, fs)
    else
      let filepath := COMPONENTS_PATH +:+ "/" +:+ name +:+ ".tsx" in
      match components fs !! name with
      | Some _ => (error_result (msg_already_exists name), fs)
      | None =>
          ([("status", JStr "success");
            ("filepath", JStr filepath);
            ("component_name", JStr name);
            ("message", JStr ("Component '" +:+ name +:+ "' created successfully"))],
           write_component name code fs)
      end.

(** The body of the [try], as for [create_component]; the name is not
    checked. *)
Definition update_component (name code : string) (fs : filesystem)
    : dict * filesystem :=
  let code_lower := lower code in
  if any_phrase_in UPDATE_PHRASES code_lower
  then (error_result MSG_PROSE, fs)
  else if no_code_pattern code then (error_result MSG_NOT_CODE, fs)
  else
    let filepath := COMPONENTS_PATH +:+ "/" +:+ name +:+ ".tsx" in
    match components fs !! name with
    | None => (error_result (msg_not_found_update name), fs)
    | Some _ =>
        ([("status", JStr "success");
          ("filepath", JStr filepath);
          ("component_name", JStr name);
          ("message", JStr ("Component '" +:+ name +:+ "' updated successfully"))],
         write_component name code fs)
    end.

(** [f.read()] returns the recorded text: the store holds a component as
    a text-mode read presents it, see [write_component]. *)
Definition read_component (name : string) (fs : filesystem) : dict :=
  let filepath := COMPONENTS_PATH +:+ "/" +:+ name +:+ ".tsx" in
  match components fs !! name with
  | None => error_result (msg_not_found name)
  | Some content =>
      [("status", JStr "success");
       ("component_name", JStr name);
       ("content", JStr content);
       ("filepath", JStr filepath)]
  end.

(** [COMPONENTS_PATH.glob("*.tsx")] enumerates the directory in an order
    the source does not fix; [map_to_list] stands for that enumeration. *)
Definition list_components (fs : filesystem) : dict :=
  let components :=
    map (λ kv : string * string,
           JObj [("name", JStr kv.1);
                 ("filepath", JStr (COMPONENTS_PATH +:+ "/" +:+ kv.1 +:+ ".tsx"))])
        (map_to_list (components fs)) in
  [("status", JStr "success");
   ("components", JArr components);
   ("count", JInt (Z.of_nat (length components)))].

(** *** The layout document read by [create_page]

    A name or a text the source reads with [.get(key)] is [None] when the
    key is absent or holds null, which the source does not tell apart; a
    list read with [.get(key, [])] is empty when the key is absent.  A
    document in which such a key holds null, or anything but a list of
    objects, has no record: on it the source raises before it writes.
    [component_id] is the key [id], [event_type] the key [type] of an
    interaction. *)

(** A JSON value of which the source only tests the truth and which it
    formats in an f-string: a coordinate or a dimension.  A float, a list
    or an object is given by its truth value and by the text it is
    formatted as. *)
Inductive value : Type :=
  | VNone
  | VBool (b : bool)
  | VInt (z : Z)
  | VStr (s : string)
  | VOther (truth : bool) (text : string).

(** [if v:] *)
Definition truthy_value (v : value) : bool :=
  match v with
  | VNone => false
  | VBool b => b
  | VInt z => negb (z =? 0)%Z
  | VStr s => truthy s
  | VOther truth _ => truth
  end.

(** [f"{v}"] *)
Definition str_value (v : value) : string :=
  match v with
  | VNone => "None"
  | VBool true => "True"
  | VBool false => "False"
  | VInt z => str_int z
  | VStr s => s
  | VOther _ text => text
  end.

(** What [item.get(key, {})] finds where the source goes on with [.get]:
    no such key, an object, or a value that is no object (null included),
    given by the name of its Python type. *)
Inductive field (A : Type) : Type :=
  | Absent
  | Present (a : A)
  | Mistyped (type_name : string).
Arguments Absent {A}.
Arguments Present {A} a.
Arguments Mistyped {A} type_name.

(** The object of a field; for an absent key it is the empty object. *)
Definition object_of {A : Type} (f : field A) : option A :=
  match f with Present a => Some a | _ => None end.

Record StateVarSpec : Type := {
  var_name : option string;
  var_type : option string;
  initialValue : json
}.

Record InteractionSpec : Type := {
  event_type : option string;
  handlerName : option string;
  code : option string;
  state : list StateVarSpec
}.

(** A coordinate or a dimension is [None] when its key is absent. *)
Record Position : Type := { pos_x : option value; pos_y : option value }.
Record Size : Type := { width : option value; height : option value }.

Record LayoutItem : Type := {
  componentName : option string;
  component_id : option string;
  position : field Position;
  size : field Size;
  interactions : list InteractionSpec
}.

Record LayoutDocument : Type := { layout_components : list LayoutItem }.

(** The values of [all_state_vars] and the elements of [all_handlers]. *)
Record var_info : Type := { info_type : string; info_initialValue : json }.
Record handler : Type := {
  h_type : option string;
  h_handlerName : option string;
  h_code : option string
}.

Definition state_table : Type := list (string * var_info).
Definition handler_table : Type := list (option string * list handler).

(** The first loop: the set of component names to import. *)
Definition collect_imports (layout : LayoutDocument) : gset string :=
  fold_left
    (λ (imports : gset string) item,
       match componentName item with
       | Some comp_name => if truthy comp_name then imports ∪ {[comp_name]} else imports
       | None => imports
       end)
    (layout_components layout) ∅.

(** [if var_name and var_name not in all_state_vars: all_state_vars[var_name] = ...] *)
Definition add_state_var (all_state_vars : state_table) (state_var : StateVarSpec)
    : state_table :=
  match var_name state_var with
  | Some name =>
      if truthy name && negb (dict_in name all_state_vars) then
        dict_set name
          {| info_type := default "any" (var_type state_var);
             info_initialValue := initialValue state_var |}
          all_state_vars
      else all_state_vars
  | None => all_state_vars
  end.

(** The body of [for interaction in interactions]. *)
Definition add_interaction (id : option string)
    (acc : state_table * handler_table) (interaction : InteractionSpec)
    : state_table * handler_table :=
  let all_state_vars := fold_left add_state_var (state interaction) acc.1 in
  let all_handlers :=
    if truthy_opt id then
      dict_alter
        (λ handlers, handlers ++
           [{| h_type := event_type interaction;
               h_handlerName := handlerName interaction;
               h_code := code interaction |}])
        id acc.2
    else acc.2 in
  (all_state_vars, all_handlers).

(** The body of the second [for item in layout.get('components', [])]. *)
Definition add_item (acc : state_table * handler_table) (item : LayoutItem)
    : state_table * handler_table :=
  let all_handlers :=
    match interactions item with
    | [] => acc.2
    | _ :: _ => dict_set (component_id item) [] acc.2
    end in
  fold_left (add_interaction (component_id item)) (interactions item)
    (acc.1, all_handlers).

Definition collect (layout : LayoutDocument) : state_table * handler_table :=
  fold_left add_item (layout_components layout) ([], []).

Definition all_state_vars (layout : LayoutDocument) : state_table := (collect layout).1.
Definition all_handlers (layout : LayoutDocument) : handler_table := (collect layout).2.

(** One [useState] line. *)
Definition state_declaration (entry : string * var_info) : string :=
  let '(name, info) := entry in
  let initial_val := dumps (info_initialValue info) in
  let setter_name := "set" +:+ capitalize_first name in
  "  const [" +:+ name +:+ ", " +:+ setter_name +:+ "] = useState(" +:+ initial_val +:+ ");".

Definition state_lines (table : state_table) : list string :=
  match table with
  | [] => []
  | _ :: _ => ["  // State management"] ++ map state_declaration table ++ [""]
  end.

(** The lines of the handlers, in the order of [all_handlers.items()];
    [handler_code.split] raises when the interaction had no [code]. *)
Fixpoint handler_code_lines (handlers : list handler) : outcome (list string) :=
  match handlers with
  | [] => Return []
  | h :: rest =>
      match h_code h with
      | None => Raise (AttributeError "'NoneType' object has no attribute 'split'")
      | Some handler_code =>
          match handler_code_lines rest with
          | Raise e => Raise e
          | Return lines =>
              Return (map (λ line, "  " +:+ line) (split "010" handler_code) ++ lines)
          end
      end
  end.

Definition handler_lines (table : handler_table) : outcome (list string) :=
  match table with
  | [] => Return []
  | _ :: _ =>
      match handler_code_lines (concat (map snd table)) with
      | Raise e => Raise e
      | Return lines => Return (["  // Event handlers"] ++ lines ++ [""])
      end
  end.

(** [style_parts] of one layout item. *)
Definition style_parts (item : LayoutItem) : list string :=
  let x := default (VInt 0) (object_of (position item) ≫= pos_x) in
  let y := default (VInt 0) (object_of (position item) ≫= pos_y) in
  let width := default VNone (object_of (size item) ≫= width) in
  let height := default VNone (object_of (size item) ≫= height) in
  ["left: " +:+ str_value x; "top: " +:+ str_value y]
  ++ (if truthy_value width then ["width: " +:+ str_value width] else [])
  ++ (if truthy_value height then ["height: " +:+ str_value height] else []).

Definition style_str (item : LayoutItem) : string := join ", " (style_parts item).

Definition props_str (table : handler_table) (item : LayoutItem) : string :=
  let props :=
    match dict_get (component_id item) table with
    | Some handlers =>
        map (λ h, str_opt (h_type h) +:+ "={" +:+ str_opt (h_handlerName h) +:+ "}")
            handlers
    | None => []
    end in
  let props_str := join " " props in
  if truthy props_str then " " +:+ props_str else props_str.

(** [position.get('x', 0)] and [size.get('width')] raise when [position]
    or [size] is not an object; [position] is used first. *)
Definition no_get (type_name : string) : exn :=
  AttributeError ("'" +:+ type_name +:+ "' object has no attribute 'get'").

Definition item_fault (item : LayoutItem) : option exn :=
  match position item, size item with
  | Mistyped type_name, _ => Some (no_get type_name)
  | _, Mistyped type_name => Some (no_get type_name)
  | _, _ => None
  end.

(** The exception of the first item, in layout order, that raises one. *)
Fixpoint first_fault (items : list LayoutItem) : option exn :=
  match items with
  | [] => None
  | item :: rest =>
      match item_fault item with
      | Some e => Some e
      | None => first_fault rest
      end
  end.

(** The three lines of one positioned wrapper. *)
Definition item_lines (table : handler_table) (item : LayoutItem) : list string :=
  ["      <div className=" +:+ dquote +:+ "absolute" +:+ dquote
     +:+ " style={{ " +:+ style_str item +:+ " }}>";
   "        <" +:+ str_opt (componentName item) +:+ props_str table item +:+ " />";
   "      </div>"].

Section CreatePage.

(** The order in which the interpreter enumerates a set of strings; it
    depends on the process's hash seed. *)
Variable set_iter : gset string → list string.

Definition import_lines (layout : LayoutDocument) : list string :=
  map (λ comp_name,
         "import " +:+ comp_name +:+ " from '../components/" +:+ comp_name +:+ "';")
      (sorted (set_iter (collect_imports layout))).

(** The lines up to the opening of the page function. *)
Definition head_lines (page_name : string) (layout : LayoutDocument) : list string :=
  ["import { useState } from 'react';";
   "";
   "// Component imports - these are generated components from /generated/components/";
   "// Make sure the component files exist in the ../components/ directory"]
  ++ import_lines layout
  ++ [""; "export default function " +:+ page_name +:+ "() {"].

(** The [return] statement with one wrapper per layout item. *)
Definition return_lines (all_handlers : handler_table) (layout : LayoutDocument)
    : list string :=
  ["  return (";
   "    <div className=" +:+ dquote +:+ "relative w-full min-h-screen bg-gray-50"
     +:+ dquote +:+ ">"]
  ++ concat (map (item_lines all_handlers) (layout_components layout))
  ++ ["    </div>"; "  );"; "}"; ""].

(** [code_lines], or the exception raised while building it: by the
    handler section, or after it by the loop over the items of the
    [return] statement. *)
Definition code_lines (page_name : string) (layout : LayoutDocument)
    : outcome (list string) :=
  let '(all_state_vars, all_handlers) := collect layout in
  match handler_lines all_handlers with
  | Raise e => Raise e
  | Return handlers =>
      match first_fault (layout_components layout) with
      | Some e => Raise e
      | None =>
          Return (head_lines page_name layout
                  ++ state_lines all_state_vars
                  ++ handlers
                  ++ return_lines all_handlers layout)
      end
  end.

(** [layout_data] is given by what [json.loads] makes of it: [None] when it
    raises [JSONDecodeError], the decoded document otherwise. *)
Definition create_page (page_name : string) (layout_data : option LayoutDocument)
    (fs : filesystem) : dict * filesystem :=
  match layout_data with
  | None => (error_result "Invalid layout data JSON", fs)
  | Some layout =>
      match code_lines page_name layout with
      | Raise e => (error_result ("Failed to create page: " +:+ str_exn e), fs)
      | Return lines =>
          let page_code := join newline lines in
          let filepath := PAGES_PATH +:+ "/" +:+ page_name +:+ ".tsx" in
          ([("status", JStr "success");
            ("filepath", JStr filepath);
            ("page_name", JStr page_name);
            ("code", JStr page_code);
            ("message", JStr ("Page '" +:+ page_name +:+ "' created successfully"))],
           write_page page_name page_code fs)
      end
  end.

End CreatePage.

(** [tool_input[key]] *)
Definition subscript (tool_input : gmap string string) (key : string)
    : outcome string :=
  match tool_input !! key with
  | Some v => Return v
  | None => Raise (KeyError key)
  end.

(** The arguments of a tool call are strings, as [TOOLS] declares them.
    The subscripts are evaluated left to right, outside any [try]. *)
Definition process_tool_call (tool_name : string)
    (tool_input : gmap string string) (fs : filesystem)
    : outcome dict * filesystem :=
  if String.eqb tool_name "create_component" then
    match subscript tool_input "name" with
    | Raise e => (Raise e, fs)
    | Return name =>
        match subscript tool_input "code" with
        | Raise e => (Raise e, fs)
        | Return code =>
            let '(r, fs') := create_component name code fs in (Return r, fs')
        end
    end
  else if String.eqb tool_name "update_component" then
    match subscript tool_input "name" with
    | Raise e => (Raise e, fs)
    | Return name =>
        match subscript tool_input "code" with
        | Raise e => (Raise e, fs)
        | Return code =>
            let '(r, fs') := update_component name code fs in (Return r, fs')
        end
    end
  else if String.eqb tool_name "read_component" then
    match subscript tool_input "name" with
    | Raise e => (Raise e, fs)
    | Return name => (Return (read_component name fs), fs)
    end
  else if String.eqb tool_name "list_components" then
    (Return (list_components fs), fs)
  else
    (Return (error_result ("Unknown tool: " +:+ tool_name)), fs).

End Tools.

(** ** [component_agent.py]: the agent loops *)

Module Agent.
Import Py Tools.

(** One block of [response.content]: a block whose [type] is ["tool_use"],
    or any other block (text). *)
Inductive content_block : Type :=
  | TextBlock (text : string)
  | ToolUseBlock (id name : string) (input : gmap string string).

Record response : Type := {
  stop_reason : string;
  content : list content_block
}.

Record tool_result : Type := {
  tool_use_id : string;
  result_content : string
}.

Inductive message_content : Type :=
  | Text (text : string)
  | Blocks (blocks : list content_block)
  | ToolResults (results : list tool_result).

Record message : Type := {
  role : string;
  message_content_of : message_content
}.

Definition user (c : message_content) : message :=
  {| role := "user"; message_content_of := c |}.
Definition assistant (c : message_content) : message :=
  {| role := "assistant"; message_content_of := c |}.

(** A progress event of the streaming run. *)
Record event : Type := { ev_type : string; ev_message : string }.

Definition progress (message : string) : event :=
  {| ev_type := "progress"; ev_message := message |}.
Definition error (message : string) : event :=
  {| ev_type := "error"; ev_message := message |}.
Definition success (message : string) : event :=
  {| ev_type := "success"; ev_message := message |}.

(** What a run does, in the order in which it does it. *)
Inductive effect : Type :=
  | Yield (ev : event)
  | ReadComponent (name : string)
  | LlmCall (iteration : nat)
  | ToolCall (tool_name : string) (tool_input : gmap string string).

Definition max_iterations : nat := 5.

(** How the [for content_block in response.content] loop of the
    [tool_use] branch ends. *)
Inductive loop_exit : Type :=
  | Exit (result : dict)
  | Fault (e : exn)
  | Next (tool_results : list tool_result).

Definition tool_result_of (id : string) (result : dict) : tool_result :=
  {| tool_use_id := id; result_content := dumps (JObj result) |}.

(** The [for] loop of [generate_component] ([wanted] is
    ["create_component"]) and of [edit_component] (["update_component"]):
    the two loops differ in that name only. *)
Fixpoint tool_use_step (wanted : string) (blocks : list content_block)
    (tool_results : list tool_result) (fs : filesystem)
    : loop_exit * filesystem * list effect :=
  match blocks with
  | [] => (Next tool_results, fs, [])
  | TextBlock _ :: rest => tool_use_step wanted rest tool_results fs
  | ToolUseBlock id tool_name tool_input :: rest =>
      match process_tool_call tool_name tool_input fs with
      | (Raise e, fs') => (Fault e, fs', [ToolCall tool_name tool_input])
      | (Return result, fs') =>
          let tool_results := tool_results ++ [tool_result_of id result] in
          if String.eqb tool_name wanted && is_success result then
            (Exit result, fs', [ToolCall tool_name tool_input])
          else
            let '(out, fs'', trace) := tool_use_step wanted rest tool_results fs' in
            (out, fs'', ToolCall tool_name tool_input :: trace)
      end
  end.

(** The events of [edit_component_streaming]. *)
Definition announce_tool (tool_name : string) : effect :=
  Yield (progress ("Calling tool: " +:+ tool_name +:+ "...")).
Definition announce_iteration (iteration : nat) : effect :=
  Yield (progress ("Agent iteration " +:+ str_int (Z.of_nat iteration) +:+ "/"
                   +:+ str_int (Z.of_nat max_iterations) +:+ "...")).
Definition announce_read (component_name : string) : effect :=
  Yield (progress ("Reading component '" +:+ component_name +:+ "'...")).
Definition updated (component_name : string) : effect :=
  Yield (success ("Component '" +:+ component_name +:+ "' updated successfully!")).

(** The same loop in [edit_component_streaming]: each dispatch is preceded
    by a [yield]. *)
Fixpoint tool_use_step_streaming (blocks : list content_block)
    (tool_results : list tool_result) (fs : filesystem)
    : loop_exit * filesystem * list effect :=
  match blocks with
  | [] => (Next tool_results, fs, [])
  | TextBlock _ :: rest => tool_use_step_streaming rest tool_results fs
  | ToolUseBlock id tool_name tool_input :: rest =>
      let announce := announce_tool tool_name in
      match process_tool_call tool_name tool_input fs with
      | (Raise e, fs') => (Fault e, fs', [announce; ToolCall tool_name tool_input])
      | (Return result, fs') =>
          let tool_results := tool_results ++ [tool_result_of id result] in
          if String.eqb tool_name "update_component" && is_success result then
            (Exit result, fs', [announce; ToolCall tool_name tool_input])
          else
            let '(out, fs'', trace) := tool_use_step_streaming rest tool_results fs' in
            (out, fs'', announce :: ToolCall tool_name tool_input :: trace)
      end
  end.

(** The text of the blocks that have a [text] attribute. *)
Definition text_response (blocks : list content_block) : string :=
  fold_left
    (λ acc block, match block with TextBlock text => acc +:+ text | _ => acc end)
    blocks "".

(** [d.get(key)] compared with, or read as, a string. *)
Definition get_str (key : string) (d : dict) (default : string) : string :=
  match dict_get key d with
  | Some (JStr s) => s
  | _ => default
  end.

(** [v != s] for a value [v] read with [.get]. *)
Definition differs (v : option json) (s : string) : bool :=
  match v with
  | Some (JStr s') => negb (String.eqb s' s)
  | _ => true
  end.

Definition create_prompt (prompt component_name : string) : string :=
  "Create a React TypeScript component named '" +:+ component_name +:+ "' based on this description:

" +:+ prompt +:+ "

Requirements:
- Use TypeScript with proper type definitions
- Use Tailwind CSS for all styling
- Make it a functional component with export default
- Make it responsive and accessible
- Include any necessary props with TypeScript interfaces
- Use modern React patterns (hooks if needed)

IMPORTANT: You must use the create_component tool to save the component. Do not just describe the component - actually call the create_component tool with the full component code.".

Definition edit_prompt_head (component_name edit_description existing_code : string)
    : string :=
  "Please edit the React TypeScript component '" +:+ component_name +:+ "' based on this description:

" +:+ edit_description +:+ "

Here is the current component code:

```tsx
" +:+ existing_code +:+ "
```

Requirements:
- Maintain TypeScript with proper type definitions
- Keep using Tailwind CSS for styling
- Keep it as a functional component with export default
- Preserve the core functionality while making the requested changes
- Use modern React patterns

".

Definition edit_prompt (component_name edit_description existing_code : string)
    : string :=
  edit_prompt_head component_name edit_description existing_code
  +:+ "Use the update_component tool to save the modified component.".

Definition edit_prompt_streaming (component_name edit_description existing_code : string)
    : string :=
  edit_prompt_head component_name edit_description existing_code
  +:+ "IMPORTANT: You must use the update_component tool to save the modified component. Do not just describe the component - actually call the update_component tool with the full component code.".

Section Loops.

(** [client.messages.create(..., messages=messages)]: the model's answer to
    a transcript, or the exception the call raises.  Within a run no
    transcript is sent twice, so a function of the transcript describes
    every behaviour of the model. *)
Variable client : list message → outcome response.

(** [while iteration < max_iterations] of [generate_component];
    [remaining] is [max_iterations - iteration]. *)
Fixpoint generate_loop (remaining iteration : nat) (component_name : string)
    (messages : list message) (fs : filesystem)
    : dict * filesystem * list effect :=
  match remaining with
  | 0 => (error_result "Component generation exceeded maximum iterations", fs, [])
  | S remaining =>
      let iteration := S iteration in
      match client messages with
      | Raise e =>
          (error_result ("Error generating component: " +:+ str_exn e), fs,
           [LlmCall iteration])
      | Return response =>
          if String.eqb (stop_reason response) "tool_use" then
            let messages := messages ++ [assistant (Blocks (content response))] in
            match tool_use_step "create_component" (content response) [] fs with
            | (Exit result, fs', trace) => (result, fs', LlmCall iteration :: trace)
            | (Fault e, fs', trace) =>
                (error_result ("Error generating component: " +:+ str_exn e), fs',
                 LlmCall iteration :: trace)
            | (Next tool_results, fs', trace) =>
                let messages := messages ++ [user (ToolResults tool_results)] in
                let '(result, fs'', trace') :=
                  generate_loop remaining iteration component_name messages fs' in
                (result, fs'', LlmCall iteration :: trace ++ trace')
            end
          else if String.eqb (stop_reason response) "end_turn" then
            let check_result := read_component component_name fs in
            if is_success check_result then
              (check_result, fs, [LlmCall iteration; ReadComponent component_name])
            else
              let messages :=
                messages ++
                [assistant (Blocks (content response));
                 user (Text "Please use the create_component tool to save the component code. Don't just describe it - actually call the tool with the component code.")] in
              let '(result, fs', trace) :=
                generate_loop remaining iteration component_name messages fs in
              (result, fs', LlmCall iteration :: ReadComponent component_name :: trace)
          else
            (error_result
               ("Component generation stopped unexpectedly: " +:+ stop_reason response),
             fs, [LlmCall iteration])
      end
  end.

Definition generate_component (prompt component_name : string) (fs : filesystem)
    : dict * filesystem * list effect :=
  let messages := [user (Text (create_prompt prompt component_name))] in
  generate_loop max_iterations 0 component_name messages fs.

(** [while iteration < max_iterations] of [edit_component]. *)
Fixpoint edit_loop (remaining iteration : nat) (messages : list message)
    (fs : filesystem) : dict * filesystem * list effect :=
  match remaining with
  | 0 => (error_result "Component edit exceeded maximum iterations", fs, [])
  | S remaining =>
      let iteration := S iteration in
      match client messages with
      | Raise e =>
          (error_result ("Error editing component: " +:+ str_exn e), fs,
           [LlmCall iteration])
      | Return response =>
          if String.eqb (stop_reason response) "tool_use" then
            let messages := messages ++ [assistant (Blocks (content response))] in
            match tool_use_step "update_component" (content response) [] fs with
            | (Exit result, fs', trace) => (result, fs', LlmCall iteration :: trace)
            | (Fault e, fs', trace) =>
                (error_result ("Error editing component: " +:+ str_exn e), fs',
                 LlmCall iteration :: trace)
            | (Next tool_results, fs', trace) =>
                let messages := messages ++ [user (ToolResults tool_results)] in
                let '(result, fs'', trace') :=
                  edit_loop remaining iteration messages fs' in
                (result, fs'', LlmCall iteration :: trace ++ trace')
            end
          else if String.eqb (stop_reason response) "end_turn" then
            (error_result
               ("Component edit failed. Claude's response: "
                +:+ text_response (content response)),
             fs, [LlmCall iteration])
          else
            (error_result
               ("Component edit stopped unexpectedly: " +:+ stop_reason response),
             fs, [LlmCall iteration])
      end
  end.

Definition edit_component (component_name edit_description : string)
    (fs : filesystem) : dict * filesystem * list effect :=
  let read_result := read_component component_name fs in
  if negb (is_success read_result) then
    (error_result (msg_not_found component_name), fs, [ReadComponent component_name])
  else
    let existing_code := get_str "content" read_result "" in
    let messages :=
      [user (Text (edit_prompt component_name edit_description existing_code))] in
    let '(result, fs', trace) := edit_loop max_iterations 0 messages fs in
    (result, fs', ReadComponent component_name :: trace).

(** [while iteration < max_iterations] of [edit_component_streaming]; the
    events the generator yields are the [Yield] entries of the trace. *)
Fixpoint edit_streaming_loop (remaining iteration : nat)
    (component_name existing_code : string) (messages : list message)
    (fs : filesystem) : filesystem * list effect :=
  match remaining with
  | 0 => (fs, [Yield (error "Component edit exceeded maximum iterations")])
  | S remaining =>
      let iteration := S iteration in
      let announce := announce_iteration iteration in
      let updated := updated component_name in
      match client messages with
      | Raise e =>
          (fs, [announce; LlmCall iteration;
                Yield (error ("Error editing component: " +:+ str_exn e))])
      | Return response =>
          if String.eqb (stop_reason response) "tool_use" then
            let messages := messages ++ [assistant (Blocks (content response))] in
            match tool_use_step_streaming (content response) [] fs with
            | (Exit _, fs', trace) =>
                (fs', announce :: LlmCall iteration :: trace ++ [updated])
            | (Fault e, fs', trace) =>
                (fs', announce :: LlmCall iteration :: trace ++
                      [Yield (error ("Error editing component: " +:+ str_exn e))])
            | (Next tool_results, fs', trace) =>
                let messages := messages ++ [user (ToolResults tool_results)] in
                let '(fs'', trace') :=
                  edit_streaming_loop remaining iteration component_name existing_code
                    messages fs' in
                (fs'', announce :: LlmCall iteration :: trace ++ trace')
            end
          else if String.eqb (stop_reason response) "end_turn" then
            let check_result := read_component component_name fs in
            if is_success check_result
               && differs (dict_get "content" check_result) existing_code
            then
              (fs, [announce; LlmCall iteration; ReadComponent component_name; updated])
            else
              let messages :=
                messages ++
                [assistant (Blocks (content response));
                 user (Text "Please use the update_component tool to save the modified component code. Don't just describe it - actually call the tool with the component code.")] in
              let '(fs', trace) :=
                edit_streaming_loop remaining iteration component_name existing_code
                  messages fs in
              (fs', announce :: LlmCall iteration :: ReadComponent component_name
                      :: Yield (progress "Prompting agent to use tool...") :: trace)
          else
            (fs, [announce; LlmCall iteration;
                  Yield (error ("Agent stopped unexpectedly: " +:+ stop_reason response))])
      end
  end.

Definition edit_component_streaming (component_name edit_description : string)
    (fs : filesystem) : filesystem * list effect :=
  let read_result := read_component component_name fs in
  if negb (is_success read_result) then
    (fs, [ReadComponent component_name;
          Yield (error (msg_not_found component_name))])
  else
    let existing_code := get_str "content" read_result "" in
    let messages :=
      [user (Text (edit_prompt_streaming component_name edit_description existing_code))] in
    let '(fs', trace) :=
      edit_streaming_loop max_iterations 0 component_name existing_code messages fs in
    (fs', ReadComponent component_name
          :: announce_read component_name
          :: Yield (progress "Starting AI agent...")
          :: trace).

End Loops.


(** The events a consumer of the generator sees. *)
Definition events (trace : list effect) : list event :=
  omap (λ e, match e with Yield ev => Some ev | _ => None end) trace.

(** *** Announcements

    The progress event that announces an action of the streaming run.
    With [reads] the reads of the component count among the actions to
    be announced, without it only the calls of the model and the tool
    dispatches do. *)
Definition announcement (reads : bool) (e : effect) : option effect :=
  match e with
  | LlmCall iteration => Some (announce_iteration iteration)
  | ToolCall tool_name _ => Some (announce_tool tool_name)
  | ReadComponent name => if reads then Some (announce_read name) else None
  | Yield _ => None
  end.

Definition event_eqb (a b : event) : bool :=
  String.eqb (ev_type a) (ev_type b) && String.eqb (ev_message a) (ev_message b).

(** [prev], the effect just before an action, is the event [announce]. *)
Definition is_yield_of (prev : option effect) (announce : effect) : bool :=
  match prev, announce with
  | Some (Yield ev'), Yield ev => event_eqb ev' ev
  | _, _ => false
  end.

(** Every action of [trace] that has an announcement comes right after
    it; [prev] is the effect before the trace. *)
Fixpoint announced (reads : bool) (prev : option effect) (trace : list effect) : bool :=
  match trace with
  | [] => true
  | e :: rest =>
      match announcement reads e with
      | Some announce => is_yield_of prev announce
      | None => true
      end
      && announced reads (Some e) rest
  end.

(** The number of calls to the model. *)
Definition is_llm_call (e : effect) : bool :=
  match e with LlmCall _ => true | _ => false end.

Definition llm_calls (trace : list effect) : nat :=
  length (List.filter is_llm_call trace).

End Agent.

(** ** [interaction_agent.py]: generating an event handler *)

Module Interaction.
Import Py Tools Agent.

(** [c.isspace()] for an ASCII character: the characters 9 to 13 and 28
    to 32. *)
Definition isspace (c : ascii) : bool :=
  let n := N_of_ascii c in
  ((9 <=? n) && (n <=? 13) || (28 <=? n) && (n <=? 32))%N.

(** [s.lstrip()], [s.rstrip()] and [s.strip()] *)
Fixpoint lstrip (s : string) : string :=
  match s with
  | EmptyString => EmptyString
  | String c t => if isspace c then lstrip t else s
  end.

Fixpoint rstrip (s : string) : string :=
  match s with
  | EmptyString => EmptyString
  | String c t =>
      match rstrip t with
      | EmptyString => if isspace c then EmptyString else String c EmptyString
      | r => String c r
      end
  end.

Definition strip (s : string) : string := rstrip (lstrip s).

(** [s.startswith(prefix)] and [s.endswith(suffix)] *)
Definition startswith (s prefix : string) : bool := String.prefix prefix s.

Fixpoint endswith (s suffix : string) : bool :=
  String.eqb s suffix
  || match s with
     | EmptyString => false
     | String _ t => endswith t suffix
     end.

(** The slices [s[n:]], [s[:n]] and [s[:-n]] (for [n > 0]). *)
Fixpoint drop_chars (n : nat) (s : string) : string :=
  match n, s with
  | 0, _ => s
  | S n, String _ t => drop_chars n t
  | S _, EmptyString => EmptyString
  end.

Definition take_chars (n : nat) (s : string) : string := String.substring 0 n s.

Definition drop_last (n : nat) (s : string) : string :=
  take_chars (String.length s - n) s.

(** The clean-up of the answer before it is parsed: the statements from
    the first [text_response.strip()] to the second. *)
Definition strip_fences (text : string) : string :=
  let text := strip text in
  let text := if startswith text "```json" then drop_chars 7 text else text in
  let text := if startswith text "```" then drop_chars 3 text else text in
  let text := if endswith text "```" then drop_last 3 text else text in
  strip text.

(** [type(v).__name__] of a decoded JSON value. *)
Definition type_name (v : json) : string :=
  match v with
  | JNull => "NoneType"
  | JBool _ => "bool"
  | JInt _ => "int"
  | JStr _ => "str"
  | JArr _ => "list"
  | JObj _ => "dict"
  end.

Section GenerateInteraction.

(** The answer of the model to the request: the prompt is a function of
    [component_name], [event_type] and [description] only. *)
Variable client : string → string → string → outcome response.

(** [json.loads]: the decoded value, or the text of the
    [JSONDecodeError].  A decoded object lists the items of the [dict];
    numbers are integers. *)
Variable loads : string → json + string.

(** [str(uuid.uuid4())] *)
Variable uuid4 : string.

Definition generate_interaction
    (component_id component_name description event_type : string) : dict :=
  match client component_name event_type description with
  | Raise e => error_result ("Error generating interaction: " +:+ str_exn e)
  | Return response =>
      let text := strip_fences (text_response (content response)) in
      match loads text with
      | inr what =>
          error_result ("Failed to parse AI response: " +:+ what
                        +:+ ". Response was: " +:+ take_chars 200 text)
      | inl (JObj parsed_response) =>
          let interaction :=
            [("id", JStr uuid4);
             ("type", JStr event_type);
             ("description", JStr description);
             ("handlerName",
              default (JStr "handleEvent") (dict_get "handlerName" parsed_response));
             ("code", default (JStr "") (dict_get "code" parsed_response));
             ("state", default (JArr []) (dict_get "state" parsed_response))] in
          [("status", JStr "success"); ("interaction", JObj interaction)]
      | inl v =>
          error_result
            ("Error generating interaction: "
             +:+ str_exn (AttributeError ("'" +:+ type_name v
                                          +:+ "' object has no attribute 'get'")))
      end
  end.

End GenerateInteraction.

End Interaction.

(** * The vocabulary of the properties *)

Module Spec.
Import Py Tools Agent.

(** The verdict of the two content sanity checks, in the order in which
    the tool functions run them; [None] when the code passes both. *)
Definition content_verdict (phrases : list string) (code : string) : option string :=
  if any_phrase_in phrases (lower code) then Some MSG_PROSE
  else if no_code_pattern code then Some MSG_NOT_CODE
  else None.

(** Every state-variable spec of the layout, in layout order. *)
Definition state_specs (layout : LayoutDocument) : list StateVarSpec :=
  concat (map (λ item, concat (map state (interactions item)))
              (layout_components layout)).

(** The table entry a spec gives rise to. *)
Definition info_of (spec : StateVarSpec) : var_info :=
  {| info_type := default "any" (var_type spec);
     info_initialValue := initialValue spec |}.

Definition named (name : string) (spec : StateVarSpec) : bool :=
  bool_decide (var_name spec = Some name).

(** The first spec of the list that declares [name]. *)
Definition first_named (name : string) (specs : list StateVarSpec)
    : option StateVarSpec :=
  List.find (named name) specs.

Fixpoint forall_chars (P : ascii → bool) (s : string) : bool :=
  match s with
  | EmptyString => true
  | String c t => P c && forall_chars P t
  end.

(** The characters of a printed integer. *)
Definition is_digit_or_dash (c : ascii) : bool :=
  (Ascii.leb "0" c && Ascii.leb c "9") || Ascii.eqb c "-".

(** A string that starts with a character other than the digit zero. *)
Definition nonzero_head (s : string) : Prop :=
  ∃ c t, s = String c t ∧ c ≠ "0"%char.

(** The style string with the printed numbers abstracted. *)
Definition style_of (sx sy : string) (sw sh : option string) : string :=
  join ", "
    (["left: " +:+ sx; "top: " +:+ sy]
     ++ match sw with Some w => ["width: " +:+ w] | None => [] end
     ++ match sh with Some h => ["height: " +:+ h] | None => [] end).

Definition printed (s : string) : Prop :=
  forall_chars is_digit_or_dash s = true.

Definition printed_nonzero (o : option string) : Prop :=
  match o with Some s => printed s ∧ nonzero_head s | None => True end.

(** The printed form of a dimension that passes the truthiness test. *)
Definition printed_dimension (o : option value) : option string :=
  if truthy_value (default VNone o) then Some (str_value (default VNone o)) else None.

(** The coordinates and the dimensions of an item, as read from it. *)
Definition x_of (item : LayoutItem) : option value := object_of (position item) ≫= pos_x.
Definition y_of (item : LayoutItem) : option value := object_of (position item) ≫= pos_y.
Definition width_of (item : LayoutItem) : option value := object_of (size item) ≫= width.
Definition height_of (item : LayoutItem) : option value := object_of (size item) ≫= height.

(** A coordinate or a dimension that is absent or an integer. *)
Definition integral (o : option value) : bool :=
  match o with
  | None | Some (VInt _) => true
  | Some _ => false
  end.

Definition set_size (sz : field Size) (item : LayoutItem) : LayoutItem :=
  {| componentName := componentName item; component_id := component_id item;
     position := position item; size := sz; interactions := interactions item |}.

(** Some block of the turn is a call of the tool [wanted] that succeeds,
    the blocks before it having been processed without ending the loop;
    [trace] stops at that call. *)
Definition wanted_call_succeeds (wanted : string) (blocks : list content_block)
    (tool_results : list tool_result) (fs : filesystem)
    (result : dict) (fs' : filesystem) (trace : list effect) : Prop :=
  ∃ before id tool_input after tool_results_mid fs_mid trace_before,
    blocks = before ++ ToolUseBlock id wanted tool_input :: after
    ∧ tool_use_step wanted before tool_results fs
      = (Next tool_results_mid, fs_mid, trace_before)
    ∧ process_tool_call wanted tool_input fs_mid = (Return result, fs')
    ∧ is_success result = true
    ∧ trace = trace_before ++ [ToolCall wanted tool_input].

(** A trace with the announcement of the streaming run before each tool
    call. *)
Definition with_announcements (trace : list effect) : list effect :=
  concat (map (λ e, match e with
                    | ToolCall tool_name _ => [announce_tool tool_name; e]
                    | _ => [e]
                    end) trace).

(** Every answer of the model has the stop reason [end_turn]. *)
Definition all_end_turn (client : list message → outcome response) : Prop :=
  ∀ messages, ∃ resp, client messages = Return resp ∧ stop_reason resp = "end_turn".

End Spec.

(** * Sample inputs *)

Module Samples.
Import Py Tools Agent.

Definition empty_fs : filesystem := {| components := ∅; pages := ∅ |}.

Definition button_code : string := "const Button = () => <button>Click</button>".

Definition button_fs : filesystem :=
  (create_component "Button" button_code empty_fs).2.

Definition home_layout : LayoutDocument :=
  {| layout_components :=
       [{| componentName := Some "Button"; component_id := Some "b1";
           position := Present {| pos_x := Some (VInt 10); pos_y := Some (VInt 20) |};
           size := Absent;
           interactions :=
             [{| event_type := Some "onClick"; handlerName := Some "handleClick";
                 code := Some "const handleClick = () => {}"; state := [] |}] |};
        {| componentName := Some "Alert"; component_id := Some "a1";
           position := Absent; size := Absent; interactions := [] |}] |}.

(** Two layout items declare [count], with initial values 0 and 7. *)
Definition count_spec (init : Z) : StateVarSpec :=
  {| var_name := Some "count"; var_type := Some "number"; initialValue := JInt init |}.

Definition counter_item (id : string) (init : Z) : LayoutItem :=
  {| componentName := Some "Counter"; component_id := Some id;
     position := Absent; size := Absent;
     interactions :=
       [{| event_type := Some "onClick"; handlerName := Some "bump";
           code := Some "const bump = () => setCount(count + 1)";
           state := [count_spec init] |}] |}.

Definition counter_layout : LayoutDocument :=
  {| layout_components := [counter_item "c1" 0; counter_item "c2" 7] |}.

Definition counter_lines : list string :=
  match code_lines elements "Counters" counter_layout with
  | Return lines => lines
  | Raise _ => []
  end.

(** Two layout items declare a variable whose name is empty. *)
Definition blank_spec (init : Z) : StateVarSpec :=
  {| var_name := Some ""; var_type := Some "number"; initialValue := JInt init |}.

Definition blank_item (id : string) (init : Z) : LayoutItem :=
  {| componentName := Some "Counter"; component_id := Some id;
     position := Absent; size := Absent;
     interactions :=
       [{| event_type := Some "onClick"; handlerName := Some "bump";
           code := Some "const bump = () => {}";
           state := [blank_spec init] |}] |}.

Definition blank_layout : LayoutDocument :=
  {| layout_components := [blank_item "c1" 0; blank_item "c2" 7] |}.

Definition blank_lines : list string :=
  match code_lines elements "Blank" blank_layout with
  | Return lines => lines
  | Raise _ => []
  end.

(** An item whose size has the width 0. *)
Definition flat_item : LayoutItem :=
  {| componentName := Some "Rule"; component_id := None;
     position := Present {| pos_x := Some (VInt (-4)); pos_y := Some (VInt 100) |};
     size := Present {| width := Some (VInt 0); height := Some (VInt 40) |};
     interactions := [] |}.

(** A model that answers every transcript with one [create_component]
    call, made under the name [Card]. *)
Definition card_code : string := "export default function Card() { return <div /> }".

Definition card_input : gmap string string :=
  <["name" := "Card"]> (<["code" := card_code]> ∅).

Definition card_response : response :=
  {| stop_reason := "tool_use";
     content := [TextBlock "Saving the component.";
                 ToolUseBlock "toolu_1" "create_component" card_input] |}.

Definition card_client (messages : list message) : outcome response :=
  Return card_response.

Definition card_result : dict :=
  [("status", JStr "success");
   ("filepath", JStr "generated/components/Card.tsx");
   ("component_name", JStr "Card");
   ("message", JStr "Component 'Card' created successfully")].

(** A model that only ever describes what it would do. *)
Definition talk_response : response :=
  {| stop_reason := "end_turn"; content := [TextBlock "Done."] |}.

Definition talk_client (messages : list message) : outcome response :=
  Return talk_response.

(** A model that answers with one [update_component] call for [Button]. *)
Definition blue_code : string :=
  "const Button = () => <button className='bg-blue-500'>Click</button>".

Definition blue_input : gmap string string :=
  <["name" := "Button"]> (<["code" := blue_code]> ∅).

Definition blue_client (messages : list message) : outcome response :=
  Return {| stop_reason := "tool_use";
            content := [ToolUseBlock "toolu_1" "update_component" blue_input] |}.

End Samples.

(** * Further vocabulary and sample inputs *)

Module SpecExtra.
Import Py Tools Agent Interaction Spec.

(** *** The names and the texts the store is a model for *)

Definition is_ascii (c : ascii) : bool := (N_of_ascii c <? 128)%N.

(** A character of a plain name: ASCII, not the path separator, not NUL. *)
Definition plain_char (c : ascii) : bool :=
  is_ascii c && negb (Ascii.eqb c "/") && negb (Ascii.eqb c "000").

(** A name whose path is one file directly in its directory and which
    the operating system accepts: with the suffix [.tsx] it is at most
    255 bytes long. *)
Definition plain_name (name : string) : bool :=
  forall_chars plain_char name && (String.length name <=? 251).

Definition ascii_text (s : string) : bool := forall_chars is_ascii s.

(** A text without a carriage return. *)
Definition no_carriage_return (s : string) : bool :=
  forall_chars (λ c, negb (Ascii.eqb c "013")) s.

(** The names a [list_components] result lists. *)
Definition listed_names (r : dict) : list string :=
  match dict_get "components" r with
  | Some (JArr l) =>
      omap (λ v, match v with
                 | JObj d =>
                     match dict_get "name" d with
                     | Some (JStr n) => Some n
                     | _ => None
                     end
                 | _ => None
                 end) l
  | _ => []
  end.

(** What a successful [read_component] returns. *)
Definition read_success (name content : string) : dict :=
  [("status", JStr "success");
   ("component_name", JStr name);
   ("content", JStr content);
   ("filepath", JStr (COMPONENTS_PATH +:+ "/" +:+ name +:+ ".tsx"))].

(** The handler [create_page] records for an interaction. *)
Definition handler_of (interaction : InteractionSpec) : handler :=
  {| h_type := event_type interaction;
     h_handlerName := handlerName interaction;
     h_code := code interaction |}.

Definition handlers_of (item : LayoutItem) : list handler :=
  map handler_of (interactions item).

(** What a layout item leaves under the key [id] of the handler table:
    nothing when it has no interactions or another id, its handlers when
    its id is [id], none of them when that id is falsy. *)
Definition recorded (id : option string) (item : LayoutItem) : option (list handler) :=
  match interactions item with
  | [] => None
  | _ :: _ =>
      if decide (component_id item = id)
      then Some (if truthy_opt id then handlers_of item else [])
      else None
  end.

(** One import line. *)
Definition import_line (comp_name : string) : string :=
  "import " +:+ comp_name +:+ " from '../components/" +:+ comp_name +:+ "';".

(** A line without its first two characters. *)
Definition unindent (line : string) : string :=
  match line with
  | String _ (String _ rest) => rest
  | _ => ""
  end.

(** *** Traces of agent runs *)

(** What one effect does to the file system: only a tool call can change
    it. *)
Definition dispatch (fs : filesystem) (e : effect) : filesystem :=
  match e with
  | ToolCall tool_name tool_input => (process_tool_call tool_name tool_input fs).2
  | _ => fs
  end.

(** The file system after the tool calls of a trace, dispatched in
    order. *)
Definition replay (trace : list effect) (fs : filesystem) : filesystem :=
  fold_left dispatch trace fs.

(** The iteration numbers of the calls of the model, in order. *)
Definition iterations (trace : list effect) : list nat :=
  omap (λ e, match e with LlmCall iteration => Some iteration | _ => None end) trace.

(** The tool calls of a trace and the tool-use blocks of a turn. *)
Definition tool_calls (trace : list effect) : list (string * gmap string string) :=
  omap (λ e, match e with
             | ToolCall tool_name tool_input => Some (tool_name, tool_input)
             | _ => None
             end) trace.

Definition tool_uses (blocks : list content_block) : list (string * gmap string string) :=
  omap (λ block, match block with
                 | ToolUseBlock _ tool_name tool_input => Some (tool_name, tool_input)
                 | TextBlock _ => None
                 end) blocks.

Definition tool_use_ids (blocks : list content_block) : list string :=
  omap (λ block, match block with
                 | ToolUseBlock id _ _ => Some id
                 | TextBlock _ => None
                 end) blocks.

(** An event stream that is progress events followed by one verdict. *)
Definition is_progress (ev : event) : Prop := ev_type ev = "progress".
Definition is_verdict (ev : event) : Prop :=
  ev_type ev = "success" ∨ ev_type ev = "error".

Definition progress_then_verdict (evs : list event) : Prop :=
  ∃ before final,
    evs = before ++ [final] ∧ Forall is_progress before ∧ is_verdict final.

(** *** Answers of the interaction generator *)

(** A string of whitespace. *)
Definition all_space (s : string) : Prop := forall_chars isspace s = true.

End SpecExtra.

Module SamplesExtra.
Import Py Tools Agent Interaction Spec SpecExtra Samples.

(** An item without an id that has an interaction. *)
Definition anonymous_item : LayoutItem :=
  {| componentName := Some "Banner"; component_id := None;
     position := Absent; size := Absent;
     interactions :=
       [{| event_type := Some "onClick"; handlerName := Some "dismiss";
           code := Some "const dismiss = () => setOpen(false)";
           state := [{| var_name := Some "open"; var_type := Some "boolean";
                        initialValue := JBool true |}] |}] |}.

Definition banner_layout : LayoutDocument :=
  {| layout_components := [anonymous_item; counter_item "c1" 0] |}.

(** Two items that share the id [c1], with different handlers. *)
Definition submit_item : LayoutItem :=
  {| componentName := Some "Form"; component_id := Some "c1";
     position := Absent; size := Absent;
     interactions :=
       [{| event_type := Some "onSubmit"; handlerName := Some "send";
           code := Some ("const send = () => {" +:+ newline +:+ "  post();" +:+ newline +:+ "}");
           state := [] |}] |}.

Definition shared_id_layout : LayoutDocument :=
  {| layout_components := [counter_item "c1" 0; submit_item] |}.

(** An item whose position is null. *)
Definition unplaced_item : LayoutItem :=
  {| componentName := Some "Alert"; component_id := None;
     position := Mistyped "NoneType"; size := Absent; interactions := [] |}.

(** An interaction that came without handler code. *)
Definition codeless_item (id : option string) : LayoutItem :=
  {| componentName := Some "Menu"; component_id := id;
     position := Absent; size := Absent;
     interactions :=
       [{| event_type := Some "onClick"; handlerName := Some "toggle";
           code := None; state := [] |}] |}.

(** A turn that looks at the store before writing anything. *)
Definition lookup_blocks : list content_block :=
  [TextBlock "Let me look at what exists.";
   ToolUseBlock "toolu_7" "list_components" ∅;
   ToolUseBlock "toolu_8" "read_component" (<["name" := "Button"]> ∅)].

Definition lookup_results : list tool_result :=
  match (tool_use_step "create_component" lookup_blocks [] button_fs).1.1 with
  | Next tool_results => tool_results
  | _ => []
  end.

(** A model that answers with an empty object in a code fence, and one
    that answers with a list. *)
Definition fenced_client (component_name event_type description : string)
    : outcome response :=
  Return {| stop_reason := "end_turn";
            content := [TextBlock ("```json" +:+ newline +:+ "{}" +:+ newline +:+ "```")] |}.

Definition list_client (component_name event_type description : string)
    : outcome response :=
  Return {| stop_reason := "end_turn"; content := [TextBlock "[]"] |}.

(** [json.loads] on the two texts these models give rise to. *)
Definition loads_sample (text : string) : json + string :=
  if String.eqb text "{}" then inl (JObj [])
  else if String.eqb text "[]" then inl (JArr [])
  else inr "Expecting value: line 1 column 1 (char 0)".

End SamplesExtra.

(** * Properties *)

(** ** The component store *)

Module StoreFacts.
Import Py Tools Spec Samples.

Lemma is_success_error_result message : is_success (error_result message) = false.
Proof. reflexivity. Qed.

Lemma create_component_success name code fs :
  is_success (create_component name code fs).1 = true →
  bad_name name = false
  ∧ content_verdict CREATE_PHRASES code = None
  ∧ components fs !! name = None
  ∧ (create_component name code fs).2 = write_component name code fs.
Proof.
  unfold create_component, content_verdict.
  destruct (bad_name name); [discriminate|].
  destruct (any_phrase_in CREATE_PHRASES (lower code)); [discriminate|].
  destruct (no_code_pattern code); [discriminate|].
  destruct (components fs !! name); [discriminate|].
  auto.
Qed.

Lemma create_component_existing name code fs :
  is_Some (components fs !! name) →
  bad_name name = false →
  create_component name code fs =
    (error_result (default (msg_already_exists name)
                     (content_verdict CREATE_PHRASES code)), fs).
Proof.
  intros [old Hold] Hname. unfold create_component, content_verdict.
  rewrite Hname.
  destruct (any_phrase_in CREATE_PHRASES (lower code)); [done|].
  destruct (no_code_pattern code); [done|].
  by rewrite Hold.
Qed.

(** The errors of the content checks are not the errors of the existence
    tests. *)
Lemma content_errors_distinct name message :
  message = MSG_PROSE ∨ message = MSG_NOT_CODE →
  message ≠ msg_already_exists name ∧ message ≠ msg_not_found_update name.
Proof.
  intros [-> | ->]; split; intros Heq;
    apply (f_equal (String.get 0)) in Heq; discriminate Heq.
Qed.

Lemma content_verdict_cases phrases code message :
  content_verdict phrases code = Some message →
  message = MSG_PROSE ∨ message = MSG_NOT_CODE.
Proof.
  unfold content_verdict.
  destruct (any_phrase_in phrases (lower code)); [intros [= <-]; auto|].
  destruct (no_code_pattern code); [intros [= <-]; auto|done].
Qed.

(** C2, as amended: after a successful [create(name, c1)], a second
    [create(name, c2)] fails for every [c2] and leaves the store as it is.
    The error is the already-exists one exactly when [c2] passes the
    content sanity checks; otherwise it is the error of the check that
    rejects [c2], which runs before the existence test. *)
Theorem create_twice_fails name c1 c2 fs :
  is_success (create_component name c1 fs).1 = true →
  create_component name c2 (create_component name c1 fs).2 =
    (error_result (default (msg_already_exists name)
                     (content_verdict CREATE_PHRASES c2)),
     (create_component name c1 fs).2)
  ∧ (default (msg_already_exists name) (content_verdict CREATE_PHRASES c2)
     = msg_already_exists name
     ↔ content_verdict CREATE_PHRASES c2 = None).
Proof.
  intros Hok. split.
  - apply create_component_success in Hok as (Hname & _ & _ & ->).
    apply create_component_existing; [|done].
    unfold write_component; simpl. rewrite lookup_insert_eq. by eexists.
  - destruct (content_verdict CREATE_PHRASES c2) as [message|] eqn:Hverdict; [|done].
    apply content_verdict_cases in Hverdict.
    apply (content_errors_distinct name) in Hverdict as [Hne _]. by split.
Qed.

Lemma create_twice_fails_witness :
  create_component "Button" blue_code
    (create_component "Button" button_code empty_fs).2 =
    (error_result (default (msg_already_exists "Button")
                     (content_verdict CREATE_PHRASES blue_code)),
     (create_component "Button" button_code empty_fs).2)
  ∧ (default (msg_already_exists "Button") (content_verdict CREATE_PHRASES blue_code)
     = msg_already_exists "Button"
     ↔ content_verdict CREATE_PHRASES blue_code = None).
Proof.
  apply (create_twice_fails "Button" button_code blue_code empty_fs).
  vm_compute. reflexivity.
Defined.

(** With code that passes the content checks the second [create] reports
    that the component exists. *)
Example create_button_twice :
  (create_component "Button" blue_code button_fs).1
  = error_result "Component 'Button' already exists. Use update_component to modify it.".
Proof. vm_compute. reflexivity. Qed.

(** C2 as stated fails: the second [create] of an existing name with
    prose as code is rejected by the prose check, not as already existing. *)
Lemma create_twice_prose_first :
  is_success (create_component "Button" button_code empty_fs).1 = true
  ∧ (create_component "Button" "## Here is the button"
       (create_component "Button" button_code empty_fs).2).1
    = error_result MSG_PROSE
  ∧ String.eqb MSG_PROSE (msg_already_exists "Button") = false.
Proof. vm_compute. auto. Qed.

(** C3, as amended: [update] of a name with no artifact fails for every
    code and leaves the store as it is, so no artifact is created.  The
    error is the not-found one exactly when the code passes the content
    sanity checks, which run first. *)
Theorem update_missing_fails name code fs :
  components fs !! name = None →
  update_component name code fs =
    (error_result (default (msg_not_found_update name)
                     (content_verdict UPDATE_PHRASES code)), fs)
  ∧ components (update_component name code fs).2 !! name = None
  ∧ (default (msg_not_found_update name) (content_verdict UPDATE_PHRASES code)
     = msg_not_found_update name
     ↔ content_verdict UPDATE_PHRASES code = None).
Proof.
  intros Hnone.
  assert (update_component name code fs =
            (error_result (default (msg_not_found_update name)
                             (content_verdict UPDATE_PHRASES code)), fs)) as ->.
  { unfold update_component, content_verdict.
    destruct (any_phrase_in UPDATE_PHRASES (lower code)); [done|].
    destruct (no_code_pattern code); [done|].
    by rewrite Hnone. }
  split_and!; [done|done|].
  destruct (content_verdict UPDATE_PHRASES code) as [message|] eqn:Hverdict; [|done].
  apply content_verdict_cases in Hverdict.
  apply (content_errors_distinct name) in Hverdict as [_ Hne]. by split.
Qed.

Lemma update_missing_fails_witness :
  update_component "Card" button_code empty_fs =
    (error_result (default (msg_not_found_update "Card")
                     (content_verdict UPDATE_PHRASES button_code)), empty_fs)
  ∧ components (update_component "Card" button_code empty_fs).2 !! "Card" = None
  ∧ (default (msg_not_found_update "Card") (content_verdict UPDATE_PHRASES button_code)
     = msg_not_found_update "Card"
     ↔ content_verdict UPDATE_PHRASES button_code = None).
Proof.
  apply (update_missing_fails "Card" button_code empty_fs). reflexivity.
Defined.

(** With code that passes the content checks the error is the not-found
    one. *)
Example update_missing_card :
  (update_component "Card" button_code empty_fs).1
  = error_result "Component 'Card' not found. Use create_component to create it.".
Proof. vm_compute. reflexivity. Qed.

(** C3 as stated fails: [update] of a missing name with prose as code
    reports the prose error, not the not-found one. *)
Lemma update_missing_prose_first :
  components empty_fs !! "Button" = None
  ∧ (update_component "Button" "## Here is the button" empty_fs).1
    = error_result MSG_PROSE
  ∧ String.eqb MSG_PROSE (msg_not_found_update "Button") = false.
Proof. vm_compute. auto. Qed.

(** C8: an [update] of an existing artifact with code that a content
    sanity check rejects returns that check's error (the prose one when
    both reject) and changes nothing: a following [read] returns the
    previous content. *)
Theorem update_rejected_keeps_content name code old fs :
  components fs !! name = Some old →
  any_phrase_in UPDATE_PHRASES (lower code) = true ∨ no_code_pattern code = true →
  update_component name code fs =
    (error_result (if any_phrase_in UPDATE_PHRASES (lower code)
                   then MSG_PROSE else MSG_NOT_CODE), fs)
  ∧ read_component name (update_component name code fs).2 =
      [("status", JStr "success");
       ("component_name", JStr name);
       ("content", JStr old);
       ("filepath", JStr (COMPONENTS_PATH +:+ "/" +:+ name +:+ ".tsx"))].
Proof.
  intros Hold Hbad.
  assert (update_component name code fs =
            (error_result (if any_phrase_in UPDATE_PHRASES (lower code)
                           then MSG_PROSE else MSG_NOT_CODE), fs)) as ->.
  { unfold update_component.
    destruct (any_phrase_in UPDATE_PHRASES (lower code)); [done|].
    destruct Hbad as [?| ->]; done. }
  split; [done|]. simpl. unfold read_component. by rewrite Hold.
Qed.

Lemma update_rejected_keeps_content_witness :
  update_component "Button" "## Here is the button" button_fs
    = (error_result (if any_phrase_in UPDATE_PHRASES (lower "## Here is the button")
                     then MSG_PROSE else MSG_NOT_CODE), button_fs)
  ∧ read_component "Button"
      (update_component "Button" "## Here is the button" button_fs).2 =
      [("status", JStr "success");
       ("component_name", JStr "Button");
       ("content", JStr button_code);
       ("filepath", JStr (COMPONENTS_PATH +:+ "/" +:+ "Button" +:+ ".tsx"))].
Proof.
  apply (update_rejected_keeps_content "Button" "## Here is the button"
           button_code button_fs); [reflexivity | left; reflexivity].
Defined.

(** The scenario of the specification: the rejected update reports the
    prose error and the original code is still read. *)
Example update_button_with_prose :
  (update_component "Button" "## Here is the button" button_fs).1
    = error_result MSG_PROSE
  ∧ get_content (read_component "Button"
      (update_component "Button" "## Here is the button" button_fs).2)
    = Some (JStr button_code).
Proof. vm_compute. auto. Qed.

(** ** The tool protocol *)

(** C5 fails on the code: a [create_component] call whose arguments lack
    [name] raises [KeyError] out of [process_tool_call]. *)
Lemma process_tool_call_missing_argument :
  process_tool_call "create_component" ∅ empty_fs
    = (Raise (KeyError "name"), empty_fs).
Proof. reflexivity. Qed.

(** An unknown tool name yields an error result. *)
Lemma process_tool_call_unknown tool_name tool_input fs :
  tool_name ∉ ["create_component"; "update_component"; "read_component";
               "list_components"] →
  process_tool_call tool_name tool_input fs
    = (Return (error_result ("Unknown tool: " +:+ tool_name)), fs).
Proof.
  intros Hnot. unfold process_tool_call.
  assert (∀ s, s ∈ ["create_component"; "update_component"; "read_component";
                    "list_components"] → String.eqb tool_name s = false) as Hne.
  { intros s Hs. apply String.eqb_neq. by intros ->. }
  rewrite !Hne by set_solver. done.
Qed.

(** With both [name] and [code] among the arguments no call raises. *)
Lemma process_tool_call_returns tool_name tool_input fs :
  is_Some (tool_input !! "name") → is_Some (tool_input !! "code") →
  ∃ result, (process_tool_call tool_name tool_input fs).1 = Return result.
Proof.
  intros [name Hname] [code Hcode]. unfold process_tool_call, subscript.
  rewrite Hname, Hcode.
  repeat case_match; simplify_eq/=; eauto.
Qed.

End StoreFacts.

(** ** Layout synthesis *)

Module LayoutFacts.
Import Py Tools Spec Samples.

(** *** The order on strings *)

Lemma str_le_total : Total str_le.
Proof. intros a b. apply String.leb_total. Qed.






(** The two enumerations of the witness do differ on its set of imports. *)
Example enumerations_differ :
  bool_decide (elements (collect_imports home_layout)
               = reverse (elements (collect_imports home_layout))) = false.
Proof. vm_compute. reflexivity. Qed.

(** The scenario of the specification. *)
Example home_page :
  code_lines elements "Home" home_layout =
  Return
    ["import { useState } from 'react';";
     "";
     "// Component imports - these are generated components from /generated/components/";
     "// Make sure the component files exist in the ../components/ directory";
     "import Alert from '../components/Alert';";
     "import Button from '../components/Button';";
     "";
     "export default function Home() {";
     "  // Event handlers";
     "  const handleClick = () => {}";
     "";
     "  return (";
     "    <div className=" +:+ dquote +:+ "relative w-full min-h-screen bg-gray-50"
       +:+ dquote +:+ ">";
     "      <div className=" +:+ dquote +:+ "absolute" +:+ dquote
       +:+ " style={{ left: 10, top: 20 }}>";
     "        <Button onClick={handleClick} />";
     "      </div>";
     "      <div className=" +:+ dquote +:+ "absolute" +:+ dquote
       +:+ " style={{ left: 0, top: 0 }}>";
     "        <Alert />";
     "      </div>";
     "    </div>";
     "  );";
     "}";
     ""].
Proof. vm_compute. reflexivity. Qed.

(** *** The table of state variables *)

Section DictLemmas.
Context {V : Type}.
Implicit Types (d : list (string * V)) (k : string) (v : V).

Lemma dict_in_false k d : dict_in k d = false ↔ dict_get k d = None.
Proof. unfold dict_in. destruct (dict_get k d); naive_solver. Qed.

Lemma dict_get_None k d : dict_get k d = None ↔ k ∉ d.*1.
Proof.
  induction d as [|[k' v'] d IH]; simpl.
  - split; [intros _; apply not_elem_of_nil|done].
  - rewrite not_elem_of_cons. case_decide as Hk.
    + split; [done|]. by intros [? _].
    + rewrite IH. split; [done|]. by intros [_ ?].
Qed.

Lemma dict_set_fresh k v d : dict_get k d = None → dict_set k v d = d ++ [(k, v)].
Proof.
  induction d as [|[k' v'] d IH]; simpl; [done|].
  case_decide; [done|]. intros ?. by rewrite IH.
Qed.

Lemma dict_get_app k d1 d2 :
  dict_get k (d1 ++ d2) =
  match dict_get k d1 with Some v => Some v | None => dict_get k d2 end.
Proof.
  induction d1 as [|[k' v'] d1 IH]; simpl; [done|]. by case_decide.
Qed.

Lemma filter_key_unique k v d :
  NoDup d.*1 → dict_get k d = Some v →
  filter (λ entry, entry.1 = k) d = [(k, v)].
Proof.
  induction d as [|[k' v'] d IH]; simpl; [done|].
  intros [Hfresh Hnodup]%NoDup_cons Hget.
  case_decide as Hk.
  - simplify_eq. rewrite filter_cons_True by done. f_equal.
    destruct (filter (λ entry, entry.1 = k') d) as [|[k'' v''] rest] eqn:Hf; [done|].
    assert ((k'', v'') ∈ filter (λ entry : string * V, entry.1 = k') d)
      as [Heq Hin]%list_elem_of_filter by (rewrite Hf; left).
    simpl in Heq. subst. destruct Hfresh. apply list_elem_of_fmap.
    by exists (k', v'').
  - rewrite filter_cons_False by (simpl; congruence). auto.
Qed.
End DictLemmas.

Lemma add_state_var_get name table spec :
  truthy name = true →
  dict_get name (add_state_var table spec) =
  match dict_get name table with
  | Some info => Some info
  | None => if named name spec then Some (info_of spec) else None
  end.
Proof.
  intros Hname. unfold add_state_var, named.
  destruct (var_name spec) as [n|] eqn:Hn; [|by destruct (dict_get name table)].
  destruct (truthy n && negb (dict_in n table)) eqn:Hadd.
  - apply andb_true_iff in Hadd as [_ Hfresh%negb_true_iff%dict_in_false].
    rewrite dict_set_fresh, dict_get_app by done. simpl.
    destruct (dict_get name table) eqn:Hget; [done|].
    repeat case_bool_decide; repeat case_decide; naive_solver.
  - destruct (dict_get name table) eqn:Hget; [done|].
    case_bool_decide as Heq; [|done]. simplify_eq.
    rewrite Hname in Hadd. simpl in Hadd.
    apply negb_false_iff in Hadd. unfold dict_in in Hadd. by rewrite Hget in Hadd.
Qed.

Lemma add_state_var_NoDup table spec :
  NoDup table.*1 → NoDup (add_state_var table spec).*1.
Proof.
  intros Hnodup. unfold add_state_var.
  destruct (var_name spec) as [n|]; [|done].
  destruct (truthy n && negb (dict_in n table)) eqn:Hadd; [|done].
  apply andb_true_iff in Hadd as [_ Hfresh%negb_true_iff%dict_in_false].
  rewrite dict_set_fresh, fmap_app by done. simpl.
  apply NoDup_app. split_and!; [done| |apply NoDup_singleton].
  intros k Hk ->%list_elem_of_singleton. by apply dict_get_None in Hfresh.
Qed.

Lemma fold_add_state_var_get name specs table :
  truthy name = true →
  dict_get name (fold_left add_state_var specs table) =
  match dict_get name table with
  | Some info => Some info
  | None => info_of <$> first_named name specs
  end.
Proof.
  intros Hname. revert table.
  induction specs as [|spec specs IH]; intros table; simpl.
  - by destruct (dict_get name table).
  - rewrite IH, add_state_var_get by done. unfold first_named. simpl.
    destruct (dict_get name table); [done|]. by destruct (named name spec).
Qed.

Lemma fold_add_state_var_NoDup specs table :
  NoDup table.*1 → NoDup (fold_left add_state_var specs table).*1.
Proof.
  revert table. induction specs as [|spec specs IH]; intros table ?; simpl;
    auto using add_state_var_NoDup.
Qed.

Lemma fold_add_interaction_fst id inters acc :
  (fold_left (add_interaction id) inters acc).1 =
  fold_left add_state_var (concat (map state inters)) acc.1.
Proof.
  revert acc. induction inters as [|inter inters IH]; intros acc; simpl; [done|].
  by rewrite IH, fold_left_app.
Qed.

Lemma fold_add_item_fst items acc :
  (fold_left add_item items acc).1 =
  fold_left add_state_var
    (concat (map (λ item, concat (map state (interactions item))) items)) acc.1.
Proof.
  revert acc. induction items as [|item items IH]; intros acc; simpl; [done|].
  rewrite IH, fold_left_app. f_equal. unfold add_item.
  by rewrite fold_add_interaction_fst.
Qed.

(** The table is the left-to-right scan of the specs. *)
Lemma all_state_vars_scan layout :
  all_state_vars layout = fold_left add_state_var (state_specs layout) [].
Proof. unfold all_state_vars, collect. by rewrite fold_add_item_fst. Qed.

Lemma code_lines_Return set_iter page_name layout lines :
  code_lines set_iter page_name layout = Return lines →
  ∃ handlers,
    handler_lines (all_handlers layout) = Return handlers
    ∧ lines = head_lines set_iter page_name layout
              ++ state_lines (all_state_vars layout)
              ++ handlers
              ++ return_lines (all_handlers layout) layout.
Proof.
  unfold code_lines, all_state_vars, all_handlers.
  destruct (collect layout) as [vars handlers_table]. simpl.
  destruct (handler_lines handlers_table) as [handlers|]; [|done].
  destruct (first_fault (layout_components layout)); [done|].
  intros [= <-]. eauto.
Qed.

(** C6: when state-variable specs of the layout declare the same name, the
    page declares that name once, with the type and initial value of the
    first of them in layout order.  The page's state block is
    [state_lines] of the table, one line per entry, and the table has
    exactly one entry for the name: the one made from the first spec. *)
Theorem first_state_declaration_wins set_iter page_name layout lines name spec :
  code_lines set_iter page_name layout = Return lines →
  truthy name = true →
  first_named name (state_specs layout) = Some spec →
  (∃ handlers,
     lines = head_lines set_iter page_name layout
             ++ (["  // State management"]
                 ++ map state_declaration (all_state_vars layout) ++ [""])
             ++ handlers
             ++ return_lines (all_handlers layout) layout)
  ∧ filter (λ entry, entry.1 = name) (all_state_vars layout)
    = [(name, {| info_type := default "any" (var_type spec);
                 info_initialValue := initialValue spec |})]
  ∧ map state_declaration
      (filter (λ entry, entry.1 = name) (all_state_vars layout))
    = ["  const [" +:+ name +:+ ", set" +:+ capitalize_first name
       +:+ "] = useState(" +:+ dumps (initialValue spec) +:+ ");"].
Proof.
  intros Hlines Hname Hfirst.
  assert (filter (λ entry, entry.1 = name) (all_state_vars layout)
          = [(name, info_of spec)]) as Hentry.
  { apply filter_key_unique.
    - rewrite all_state_vars_scan. apply fold_add_state_var_NoDup, NoDup_nil_2.
    - rewrite all_state_vars_scan, fold_add_state_var_get by done. simpl.
      by rewrite Hfirst. }
  split_and!.
  - apply code_lines_Return in Hlines as (handlers & _ & ->).
    exists handlers. do 2 f_equal.
    destruct (all_state_vars layout); [done|]. reflexivity.
  - done.
  - by rewrite Hentry.
Qed.

Lemma first_state_declaration_wins_witness :
  (∃ handlers,
     counter_lines = head_lines elements "Counters" counter_layout
             ++ (["  // State management"]
                 ++ map state_declaration (all_state_vars counter_layout) ++ [""])
             ++ handlers
             ++ return_lines (all_handlers counter_layout) counter_layout)
  ∧ filter (λ entry, entry.1 = "count") (all_state_vars counter_layout)
    = [("count", {| info_type := default "any" (var_type (count_spec 0));
                    info_initialValue := initialValue (count_spec 0) |})]
  ∧ map state_declaration
      (filter (λ entry, entry.1 = "count") (all_state_vars counter_layout))
    = ["  const [" +:+ "count" +:+ ", set" +:+ capitalize_first "count"
       +:+ "] = useState(" +:+ dumps (initialValue (count_spec 0)) +:+ ");"].
Proof.
  apply (first_state_declaration_wins elements "Counters" counter_layout
           counter_lines "count" (count_spec 0)); reflexivity.
Defined.

Example counter_declared_once :
  map state_declaration (all_state_vars counter_layout)
  = ["  const [count, setCount] = useState(0);"].
Proof. vm_compute. reflexivity. Qed.

(** C6 as stated fails for the empty name: two specs declare it, the
    page is built, and it declares nothing, since a falsy name is
    skipped. *)
Lemma empty_name_declares_nothing :
  code_lines elements "Blank" blank_layout = Return blank_lines
  ∧ first_named "" (state_specs blank_layout) = Some (blank_spec 0)
  ∧ length (List.filter (named "") (state_specs blank_layout)) = 2
  ∧ filter (λ entry, entry.1 = "") (all_state_vars blank_layout) = []
  ∧ state_lines (all_state_vars blank_layout) = []
  ∧ contains "useState(" (join newline blank_lines) = false.
Proof. vm_compute. done. Qed.

(** *** The inline style *)

Lemma pretty_N_char_digit x : is_digit_or_dash (pretty_N_char x) = true.
Proof. unfold pretty_N_char. by repeat case_match. Qed.

Lemma pretty_N_go_chars x s :
  forall_chars is_digit_or_dash s = true →
  forall_chars is_digit_or_dash (pretty_N_go x s) = true.
Proof.
  revert s. induction (N.lt_wf_0 x) as [x _ IH]; intros s Hs.
  destruct (decide (x = 0)%N) as [->|]; [by rewrite pretty_N_go_0|].
  rewrite pretty_N_go_step by lia. apply IH; [apply N.div_lt; lia|].
  simpl. by rewrite pretty_N_char_digit.
Qed.

Lemma pretty_N_go_head x s : (0 < x)%N → nonzero_head (pretty_N_go x s).
Proof.
  revert s. induction (N.lt_wf_0 x) as [x _ IH]; intros s Hx.
  rewrite pretty_N_go_step by done.
  destruct (decide (x < 10)%N) as [Hsmall|Hbig].
  - rewrite N.div_small, N.mod_small, pretty_N_go_0 by done.
    eexists _, _. split; [done|].
    assert (x = 1 ∨ x = 2 ∨ x = 3 ∨ x = 4 ∨ x = 5 ∨ x = 6
            ∨ x = 7 ∨ x = 8 ∨ x = 9)%N as Hcases by lia.
    destruct Hcases as [->|[->|[->|[->|[->|[->|[->|[->| ->]]]]]]]]; done.
  - apply IH; [apply N.div_lt; lia|].
    apply N.div_str_pos. lia.
Qed.

Lemma str_int_chars z : forall_chars is_digit_or_dash (str_int z) = true.
Proof.
  unfold str_int, pretty, pretty_Z, pretty, pretty_positive, pretty, pretty_N.
  destruct z as [|p|p]; [done| |]; simpl; by apply pretty_N_go_chars.
Qed.

Lemma str_int_head z : z ≠ 0%Z → nonzero_head (str_int z).
Proof.
  unfold str_int, pretty, pretty_Z, pretty, pretty_positive, pretty, pretty_N.
  destruct z as [|p|p]; intros Hz; [done| |]; simpl.
  - by apply pretty_N_go_head.
  - by eexists _, _.
Qed.

Lemma prefix_cons_eq a n r :
  String.prefix (String a n) (String a r) = String.prefix n r.
Proof. simpl. by destruct (ascii_dec a a). Qed.

Lemma prefix_cons_ne a b n r :
  a ≠ b → String.prefix (String a n) (String b r) = false.
Proof. intros. simpl. by destruct (ascii_dec a b). Qed.

Lemma prefix_zero_head s rest :
  nonzero_head s → String.prefix "0" (s +:+ rest) = false.
Proof.
  intros (c & t & -> & Hc).
  change (String c t +:+ rest) with (String c (t +:+ rest)).
  apply prefix_cons_ne. congruence.
Qed.

Lemma prefix_zero_head_end s :
  nonzero_head s → String.prefix "0" s = false.
Proof. intros (c & t & -> & Hc). apply prefix_cons_ne. congruence. Qed.

Lemma contains_cons needle c rest :
  contains needle (String c rest)
  = String.prefix needle (String c rest) || contains needle rest.
Proof. done. Qed.

Lemma contains_cons_ne a n c rest :
  a ≠ c → contains (String a n) (String c rest) = contains (String a n) rest.
Proof. intros. by rewrite contains_cons, prefix_cons_ne. Qed.

Lemma contains_skip P a n s rest :
  P a = false → forall_chars P s = true →
  contains (String a n) (s +:+ rest) = contains (String a n) rest.
Proof.
  intros Ha. induction s as [|c s IH]; [done|]. simpl forall_chars.
  intros [Hc Hs]%andb_true_iff.
  change (String c s +:+ rest) with (String c (s +:+ rest)).
  rewrite contains_cons_ne by congruence. auto.
Qed.

Lemma contains_skip_end P a n s :
  P a = false → forall_chars P s = true → contains (String a n) s = false.
Proof.
  intros Ha. induction s as [|c s IH]; [done|]. simpl forall_chars.
  intros [Hc Hs]%andb_true_iff.
  rewrite contains_cons_ne by congruence. auto.
Qed.

Lemma append_cons c s t : String c s +:+ t = String c (s +:+ t).
Proof. done. Qed.

Lemma append_nil t : "" +:+ t = t.
Proof. done. Qed.

(** Scanning a style string for a needle: literal characters are stepped
    over one by one, printed integers as a whole. *)
Ltac scan_prefix :=
  repeat first
    [ rewrite prefix_cons_eq
    | rewrite prefix_cons_ne by discriminate
    | rewrite prefix_zero_head by assumption
    | rewrite prefix_zero_head_end by assumption ].

Ltac scan :=
  repeat first
    [ rewrite append_cons
    | rewrite append_nil
    | rewrite contains_cons_ne by discriminate
    | rewrite (contains_skip is_digit_or_dash) by (reflexivity || assumption)
    | rewrite (contains_skip_end is_digit_or_dash) by (reflexivity || assumption)
    | rewrite contains_cons; scan_prefix; simpl orb ];
  try reflexivity.

Lemma style_of_no_zero sx sy sw sh :
  printed sx → printed sy → printed_nonzero sw → printed_nonzero sh →
  contains "width: 0" (style_of sx sy sw sh) = false
  ∧ contains "height: 0" (style_of sx sy sw sh) = false.
Proof.
  unfold printed, printed_nonzero, style_of, join.
  intros Hx Hy Hw Hh.
  destruct sw as [w|], sh as [h|]; cbn [String.concat app];
    destruct_and?; split; scan.
Qed.

Lemma style_parts_printed item :
  style_parts item
  = ["left: " +:+ str_value (default (VInt 0) (x_of item));
     "top: " +:+ str_value (default (VInt 0) (y_of item))]
    ++ match printed_dimension (width_of item) with
       | Some w => ["width: " +:+ w]
       | None => []
       end
    ++ match printed_dimension (height_of item) with
       | Some h => ["height: " +:+ h]
       | None => []
       end.
Proof.
  unfold style_parts, printed_dimension, x_of, y_of, width_of, height_of.
  by destruct (truthy_value (default VNone (object_of (size item) ≫= width))),
              (truthy_value (default VNone (object_of (size item) ≫= height))).
Qed.

Lemma style_str_style_of item :
  style_str item =
  style_of (str_value (default (VInt 0) (x_of item)))
           (str_value (default (VInt 0) (y_of item)))
           (printed_dimension (width_of item))
           (printed_dimension (height_of item)).
Proof. unfold style_str. by rewrite style_parts_printed. Qed.

Lemma integral_printed o :
  integral o = true → printed (str_value (default (VInt 0) o)).
Proof. destruct o as [[| | z| |]|]; try done; intros _; apply str_int_chars. Qed.

Lemma printed_dimension_nonzero o :
  integral o = true → printed_nonzero (printed_dimension o).
Proof.
  unfold printed_dimension. destruct o as [[| | z| |]|]; try done. intros _. simpl.
  destruct (Z.eqb_spec z 0); simpl; [done|].
  split; [apply str_int_chars|by apply str_int_head].
Qed.

Lemma str_int_zero z : str_int z = "0" → z = 0%Z.
Proof. intros Heq. by apply (inj (pretty : Z → string)). Qed.

Lemma append_inj_l s a b : s +:+ a = s +:+ b → a = b.
Proof.
  induction s as [|c s IH]; [done|].
  rewrite !append_cons. intros [= Heq]. auto.
Qed.

(** An entry of a style is [width: 0] only if the width is printed as
    [0], and likewise for the height: the other entries have another
    label. *)
Lemma zero_entry sx sy ow oh :
  let parts :=
    ["left: " +:+ sx; "top: " +:+ sy]
    ++ match ow with Some w => ["width: " +:+ w] | None => [] end
    ++ match oh with Some h => ["height: " +:+ h] | None => [] end in
  ("width: 0" ∈ parts → ow = Some "0") ∧ ("height: 0" ∈ parts → oh = Some "0").
Proof.
  destruct ow as [w|], oh as [h|]; cbn [app]; split; intros Hin;
    repeat (apply elem_of_cons in Hin as [Heq|Hin]);
    try (by apply elem_of_nil in Hin);
    try (apply (f_equal (String.get 0)) in Heq; discriminate Heq).
  all: first [ apply (append_inj_l "width: " "0") in Heq
             | apply (append_inj_l "height: " "0") in Heq ]; by subst.
Qed.

Lemma printed_dimension_not_zero o :
  integral o = true → printed_dimension o ≠ Some "0".
Proof.
  intros Hint Hzero. pose proof (printed_dimension_nonzero o Hint) as Hprinted.
  rewrite Hzero in Hprinted. destruct Hprinted as [_ (c & t & [= <- <-] & Hc)]. done.
Qed.

(** C10, as amended: a width or a height of 0, and any other falsy one
    (0.0, false, null, an empty string, list or object), is left out of
    the inline style exactly as an absent one is, and a size whose two
    dimensions are falsy gives the wrapper of an item without [size].
    A dimension that is an integer is therefore never printed as
    [width: 0] or [height: 0], and when the coordinates and the
    dimensions are all integers the text of the style holds neither. *)
Theorem zero_dimension_omitted table item w h :
  item_lines table (set_size (Present {| width := Some (VInt 0); height := h |}) item)
  = item_lines table (set_size (Present {| width := None; height := h |}) item)
  ∧ item_lines table (set_size (Present {| width := w; height := Some (VInt 0) |}) item)
    = item_lines table (set_size (Present {| width := w; height := None |}) item)
  ∧ item_lines table
      (set_size (Present {| width := Some (VInt 0); height := Some (VInt 0) |}) item)
    = item_lines table (set_size Absent item)
  ∧ (∀ falsy,
       truthy_value falsy = false →
       item_lines table (set_size (Present {| width := Some falsy; height := h |}) item)
       = item_lines table (set_size (Present {| width := None; height := h |}) item)
       ∧ item_lines table (set_size (Present {| width := w; height := Some falsy |}) item)
         = item_lines table (set_size (Present {| width := w; height := None |}) item))
  ∧ (integral (width_of item) = true → "width: 0" ∉ style_parts item)
  ∧ (integral (height_of item) = true → "height: 0" ∉ style_parts item)
  ∧ (integral (x_of item) = true → integral (y_of item) = true →
     integral (width_of item) = true → integral (height_of item) = true →
     contains "width: 0" (style_str item) = false
     ∧ contains "height: 0" (style_str item) = false).
Proof.
  pose proof (zero_entry (str_value (default (VInt 0) (x_of item)))
                (str_value (default (VInt 0) (y_of item)))
                (printed_dimension (width_of item))
                (printed_dimension (height_of item))) as [Hwidth Hheight].
  cbn zeta in Hwidth, Hheight. rewrite <- style_parts_printed in Hwidth, Hheight.
  split_and!; [reflexivity..| | | |].
  - intros falsy Hfalsy. unfold item_lines, style_str, style_parts, set_size.
    cbn [size position object_of mbind option_bind width height default from_option id].
    by rewrite Hfalsy.
  - intros Hint Hin%Hwidth. by apply printed_dimension_not_zero in Hin.
  - intros Hint Hin%Hheight. by apply printed_dimension_not_zero in Hin.
  - intros Hx Hy Hw Hh. rewrite style_str_style_of.
    apply style_of_no_zero;
      auto using integral_printed, printed_dimension_nonzero.
Qed.

(** C10 as stated fails: the presence test is on the truth of the
    value, so the text [0] and the fraction 0.5 are printed, and the
    style holds [width: 0]. *)
Lemma truthy_zero_text_printed :
  style_str (set_size (Present {| width := Some (VStr "0"); height := None |}) flat_item)
  = "left: -4, top: 100, width: 0"
  ∧ contains "width: 0"
      (style_str
         (set_size (Present {| width := Some (VStr "0"); height := None |}) flat_item))
    = true
  ∧ style_str
      (set_size (Present {| width := Some (VOther true "0.5"); height := None |})
         flat_item)
    = "left: -4, top: 100, width: 0.5"
  ∧ contains "width: 0"
      (style_str
         (set_size (Present {| width := Some (VOther true "0.5"); height := None |})
            flat_item))
    = true.
Proof. vm_compute. done. Qed.

Example flat_item_style :
  style_str flat_item = "left: -4, top: 100, height: 40".
Proof. vm_compute. reflexivity. Qed.

End LayoutFacts.

(** ** The agent loops *)

Module AgentFacts.
Import Py Tools Agent Spec Samples.

(** *** The tool-use step *)

Lemma tool_use_step_exit_inv wanted blocks tool_results fs result fs' trace :
  tool_use_step wanted blocks tool_results fs = (Exit result, fs', trace) →
  wanted_call_succeeds wanted blocks tool_results fs result fs' trace.
Proof.
  revert tool_results fs trace.
  induction blocks as [|block blocks IH]; intros tool_results fs trace; simpl; [done|].
  destruct block as [text|id tool_name tool_input].
  - intros (before & id & tool_input & after & mid & fs_mid & tb & -> & ? & ? & ? & ->)%IH.
    exists (TextBlock text :: before), id, tool_input, after, mid, fs_mid, tb.
    by split_and!.
  - destruct (process_tool_call tool_name tool_input fs) as [[result0|e] fs0] eqn:Hcall;
      [|done].
    destruct (String.eqb tool_name wanted && is_success result0) eqn:Hwanted.
    + intros [= <- <- <-].
      apply andb_true_iff in Hwanted as [->%String.eqb_eq Hok].
      exists [], id, tool_input, blocks, tool_results, fs, [].
      by split_and!.
    + destruct (tool_use_step wanted blocks _ fs0) as [[out fs1] trace1] eqn:Hrest.
      intros [= -> <- <-].
      apply IH in Hrest
        as (before & id' & tool_input' & after & mid & fs_mid & tb & -> & Hbefore & ? & ? & ->).
      exists (ToolUseBlock id tool_name tool_input :: before), id', tool_input', after,
        mid, fs_mid, (ToolCall tool_name tool_input :: tb).
      split_and!; try done.
      simpl. by rewrite Hcall, Hwanted, Hbefore.
Qed.

Lemma tool_use_step_exit_intro wanted blocks tool_results fs result fs' trace :
  wanted_call_succeeds wanted blocks tool_results fs result fs' trace →
  tool_use_step wanted blocks tool_results fs = (Exit result, fs', trace).
Proof.
  intros (before & id & tool_input & after & mid & fs_mid & tb
          & -> & Hbefore & Hcall & Hok & ->).
  revert tool_results fs tb Hbefore.
  induction before as [|block before IH]; intros tool_results fs tb; simpl.
  - intros [= <- <- <-]. by rewrite Hcall, String.eqb_refl, Hok.
  - destruct block as [text|id0 tool_name0 tool_input0]; [by apply IH|].
    destruct (process_tool_call tool_name0 tool_input0 fs) as [[result0|e] fs0]; [|done].
    destruct (String.eqb tool_name0 wanted && is_success result0); [done|].
    destruct (tool_use_step wanted before _ fs0) as [[out fs1] trace1] eqn:Hrest.
    intros [= -> -> <-]. by rewrite (IH _ _ _ Hrest).
Qed.

(** The streaming loop is the loop of [edit_component] with an
    announcement before each dispatch. *)
Lemma tool_use_step_streaming_spec blocks tool_results fs :
  tool_use_step_streaming blocks tool_results fs =
  let '(out, fs', trace) := tool_use_step "update_component" blocks tool_results fs in
  (out, fs', with_announcements trace).
Proof.
  revert tool_results fs.
  induction blocks as [|block blocks IH]; intros tool_results fs; simpl; [done|].
  destruct block as [text|id tool_name tool_input]; [done|].
  destruct (process_tool_call tool_name tool_input fs) as [[result0|e] fs0]; [|done].
  destruct (String.eqb tool_name "update_component" && is_success result0); [done|].
  rewrite IH.
  by destruct (tool_use_step "update_component" blocks _ fs0) as [[out fs1] trace1].
Qed.

(** C1, as amended: in a turn whose stop reason is [tool_use], the loop
    ends exactly when a [create_component] call (creation runs) or an
    [update_component] call (edit runs) of the turn returns status
    [success], whatever component name the call was made under: the
    target name of the task is not compared.  The run then returns at
    once: no later block of the turn is dispatched and the model is not
    called again. *)
Theorem successful_wanted_call_ends_run
    client remaining iteration component_name existing_code messages fs resp :
  client messages = Return resp →
  stop_reason resp = "tool_use" →
  (∀ wanted result fs' trace,
     tool_use_step wanted (content resp) [] fs = (Exit result, fs', trace)
     ↔ wanted_call_succeeds wanted (content resp) [] fs result fs' trace)
  ∧ (∀ result fs' trace,
       wanted_call_succeeds "create_component" (content resp) [] fs result fs' trace →
       generate_loop client (S remaining) iteration component_name messages fs
       = (result, fs', LlmCall (S iteration) :: trace))
  ∧ (∀ result fs' trace,
       wanted_call_succeeds "update_component" (content resp) [] fs result fs' trace →
       edit_loop client (S remaining) iteration messages fs
       = (result, fs', LlmCall (S iteration) :: trace)
       ∧ edit_streaming_loop client (S remaining) iteration component_name
           existing_code messages fs
         = (fs', announce_iteration (S iteration) :: LlmCall (S iteration)
                 :: with_announcements trace ++ [updated component_name])).
Proof.
  intros Hclient Hstop. split_and!.
  - intros wanted result fs' trace. split.
    + apply tool_use_step_exit_inv.
    + apply tool_use_step_exit_intro.
  - intros result fs' trace Hstep%tool_use_step_exit_intro.
    simpl. by rewrite Hclient, Hstop, Hstep.
  - intros result fs' trace Hstep%tool_use_step_exit_intro. split.
    + simpl. by rewrite Hclient, Hstop, Hstep.
    + simpl. by rewrite Hclient, Hstop, tool_use_step_streaming_spec, Hstep.
Qed.

Lemma successful_wanted_call_ends_run_witness :
  generate_loop card_client 5 0 "Button" [] empty_fs
  = (card_result, write_component "Card" card_code empty_fs,
     LlmCall 1 :: [] ++ [ToolCall "create_component" card_input]).
Proof.
  apply (successful_wanted_call_ends_run card_client 4 0 "Button" "" []
           empty_fs card_response eq_refl eq_refl).
  exists [TextBlock "Saving the component."], "toolu_1", card_input, [], [],
    empty_fs, [].
  split_and!; reflexivity.
Defined.

(** C1 as stated fails: a creation run for [Button] ends in success on a
    [create_component] call made under the name [Card]; [Button] is not
    created. *)
Lemma other_name_ends_run :
  (generate_component card_client "a button" "Button" empty_fs).1.1
  = card_result
  ∧ is_success card_result = true
  ∧ components
      (generate_component card_client "a button" "Button" empty_fs).1.2
    !! "Button" = None
  ∧ (generate_component card_client "a button" "Button" empty_fs).2
    = [LlmCall 1; ToolCall "create_component" card_input].
Proof. vm_compute. auto. Qed.

(** *** Reading an existing component *)

Lemma is_success_read component_name content fs :
  components fs !! component_name = Some content →
  is_success (read_component component_name fs) = true.
Proof. intros Hsome. unfold read_component. by rewrite Hsome. Qed.

Lemma get_content_read component_name content fs :
  components fs !! component_name = Some content →
  get_str "content" (read_component component_name fs) "" = content.
Proof. intros Hsome. unfold read_component. by rewrite Hsome. Qed.

(** *** Exhausting the iterations *)

Lemma llm_calls_cons e trace :
  llm_calls (e :: trace) = (if is_llm_call e then 1 else 0) + llm_calls trace.
Proof. unfold llm_calls. simpl. by destruct (is_llm_call e). Qed.

Lemma llm_calls_app trace1 trace2 :
  llm_calls (trace1 ++ trace2) = llm_calls trace1 + llm_calls trace2.
Proof. unfold llm_calls. by rewrite List.filter_app, length_app. Qed.

Lemma llm_calls_cons_call iteration trace :
  llm_calls (LlmCall iteration :: trace) = S (llm_calls trace).
Proof. done. Qed.

(** The tool-use step does not call the model. *)
Lemma tool_use_step_llm_calls wanted blocks tool_results fs :
  llm_calls (tool_use_step wanted blocks tool_results fs).2 = 0.
Proof.
  revert tool_results fs.
  induction blocks as [|[text|id tool_name tool_input] blocks IH];
    intros tool_results fs; simpl; [done|done|].
  destruct (process_tool_call tool_name tool_input fs) as [[result|e] fs0]; [|done].
  destruct (String.eqb tool_name wanted && is_success result); [done|].
  specialize (IH (tool_results ++ [tool_result_of id result]) fs0).
  by destruct (tool_use_step wanted blocks _ fs0) as [[out fs1] trace].
Qed.

Lemma with_announcements_llm_calls trace :
  llm_calls (with_announcements trace) = llm_calls trace.
Proof.
  induction trace as [|e trace IH]; [done|].
  unfold with_announcements in *. simpl.
  rewrite llm_calls_app, llm_calls_cons, IH. by destruct e.
Qed.

Lemma llm_calls_nil : llm_calls [] = 0.
Proof. done. Qed.

(** Counting the calls of a trace written out as a list. *)
Ltac count_calls :=
  simpl;
  repeat first
    [ rewrite llm_calls_cons
    | rewrite llm_calls_app
    | rewrite llm_calls_nil
    | rewrite with_announcements_llm_calls ];
  simpl; try lia.

(** No loop calls the model more than [remaining] times, whatever the
    model answers. *)
Lemma generate_loop_bounded client component_name remaining iteration messages fs :
  llm_calls (generate_loop client remaining iteration component_name messages fs).2
  ≤ remaining.
Proof.
  revert iteration messages fs.
  induction remaining as [|remaining IH]; intros iteration messages fs; simpl; [done|].
  destruct (client messages) as [resp|e]; [|count_calls].
  destruct (String.eqb (stop_reason resp) "tool_use").
  - pose proof (tool_use_step_llm_calls "create_component" (content resp) [] fs) as Hstep.
    destruct (tool_use_step _ _ _ _) as [[[result|e|tool_results] fs'] trace];
      simpl in Hstep; [count_calls..|].
    match goal with |- context [generate_loop _ _ ?i _ ?m ?f] =>
      specialize (IH i m f) end.
    destruct (generate_loop _ _ _ _ _ _) as [[result fs''] trace'].
    simpl in IH. count_calls.
  - destruct (String.eqb (stop_reason resp) "end_turn"); [|count_calls].
    destruct (is_success _); [count_calls|].
    match goal with |- context [generate_loop _ _ ?i _ ?m ?f] =>
      specialize (IH i m f) end.
    destruct (generate_loop _ _ _ _ _ _) as [[result fs''] trace'].
    simpl in IH. count_calls.
Qed.

Lemma edit_loop_bounded client remaining iteration messages fs :
  llm_calls (edit_loop client remaining iteration messages fs).2 ≤ remaining.
Proof.
  revert iteration messages fs.
  induction remaining as [|remaining IH]; intros iteration messages fs; simpl; [done|].
  destruct (client messages) as [resp|e]; [|count_calls].
  destruct (String.eqb (stop_reason resp) "tool_use").
  - pose proof (tool_use_step_llm_calls "update_component" (content resp) [] fs) as Hstep.
    destruct (tool_use_step _ _ _ _) as [[[result|e|tool_results] fs'] trace];
      simpl in Hstep; [count_calls..|].
    match goal with |- context [edit_loop _ _ ?i ?m ?f] =>
      specialize (IH i m f) end.
    destruct (edit_loop _ _ _ _ _) as [[result fs''] trace'].
    simpl in IH. count_calls.
  - destruct (String.eqb (stop_reason resp) "end_turn"); count_calls.
Qed.

Lemma edit_streaming_loop_bounded
    client component_name existing_code remaining iteration messages fs :
  llm_calls (edit_streaming_loop client remaining iteration component_name
               existing_code messages fs).2 ≤ remaining.
Proof.
  revert iteration messages fs.
  induction remaining as [|remaining IH]; intros iteration messages fs; simpl; [done|].
  unfold announce_iteration, updated.
  destruct (client messages) as [resp|e]; [|count_calls].
  destruct (String.eqb (stop_reason resp) "tool_use").
  - rewrite tool_use_step_streaming_spec.
    pose proof (tool_use_step_llm_calls "update_component" (content resp) [] fs) as Hstep.
    destruct (tool_use_step _ _ _ _) as [[[result|e|tool_results] fs'] trace];
      simpl in Hstep; [count_calls..|].
    match goal with |- context [edit_streaming_loop _ _ ?i _ _ ?m ?f] =>
      specialize (IH i m f) end.
    destruct (edit_streaming_loop _ _ _ _ _ _ _) as [fs'' trace'].
    simpl in IH. count_calls.
  - destruct (String.eqb (stop_reason resp) "end_turn"); [|count_calls].
    destruct (is_success _ && _); [count_calls|].
    match goal with |- context [edit_streaming_loop _ _ ?i _ _ ?m ?f] =>
      specialize (IH i m f) end.
    destruct (edit_streaming_loop _ _ _ _ _ _ _) as [fs'' trace'].
    simpl in IH. count_calls.
Qed.

(** Whatever the model answers, a run calls it at most [max_iterations]
    times. *)
Lemma runs_bounded client prompt edit_description component_name fs :
  llm_calls (generate_component client prompt component_name fs).2 ≤ max_iterations
  ∧ llm_calls (edit_component client component_name edit_description fs).2
    ≤ max_iterations
  ∧ llm_calls (edit_component_streaming client component_name edit_description fs).2
    ≤ max_iterations.
Proof.
  split_and!.
  - apply generate_loop_bounded.
  - unfold edit_component. destruct (negb _); [unfold max_iterations; count_calls|].
    pose proof (edit_loop_bounded client max_iterations 0
                  [user (Text (edit_prompt component_name edit_description
                                 (get_str "content"
                                    (read_component component_name fs) "")))] fs) as Hb.
    destruct (edit_loop _ _ _ _ _) as [[result fs'] trace].
    cbn [snd] in *. by rewrite llm_calls_cons.
  - unfold edit_component_streaming.
    destruct (negb _); [unfold max_iterations; count_calls|].
    pose proof (edit_streaming_loop_bounded client component_name
                  (get_str "content" (read_component component_name fs) "")
                  max_iterations 0
                  [user (Text (edit_prompt_streaming component_name edit_description
                                 (get_str "content"
                                    (read_component component_name fs) "")))] fs) as Hb.
    destruct (edit_streaming_loop _ _ _ _ _ _ _) as [fs' trace].
    cbn [snd] in *. unfold announce_read. by rewrite !llm_calls_cons.
Qed.

Lemma generate_loop_end_turn client component_name fs :
  all_end_turn client →
  components fs !! component_name = None →
  ∀ remaining iteration messages, ∃ trace,
    generate_loop client remaining iteration component_name messages fs
    = (error_result "Component generation exceeded maximum iterations", fs, trace)
    ∧ llm_calls trace = remaining.
Proof.
  intros Hclient Hnone remaining.
  induction remaining as [|remaining IH]; intros iteration messages.
  { by exists []. }
  destruct (Hclient messages) as (resp & Hresp & Hstop).
  simpl. rewrite Hresp, Hstop. simpl.
  unfold read_component. rewrite Hnone. simpl.
  edestruct IH as (trace & -> & Hcalls).
  eexists. split; [done|]. by rewrite llm_calls_cons_call, <- Hcalls.
Qed.

Lemma edit_streaming_loop_end_turn client component_name existing_code fs :
  all_end_turn client →
  components fs !! component_name = Some existing_code →
  ∀ remaining iteration messages, ∃ trace,
    edit_streaming_loop client remaining iteration component_name existing_code
      messages fs
    = (fs, trace)
    ∧ llm_calls trace = remaining
    ∧ last (events trace) = Some (error "Component edit exceeded maximum iterations").
Proof.
  intros Hclient Hsome remaining.
  induction remaining as [|remaining IH]; intros iteration messages.
  { by eexists. }
  destruct (Hclient messages) as (resp & Hresp & Hstop).
  simpl. rewrite Hresp, Hstop. simpl.
  unfold read_component. rewrite Hsome. simpl. rewrite String.eqb_refl. simpl.
  edestruct IH as (trace & -> & Hcalls & Hlast).
  eexists. split_and!; [done| |].
  - unfold announce_iteration. rewrite !llm_calls_cons. simpl. lia.
  - unfold announce_iteration. simpl.
    destruct (events trace) as [|ev evs]; [done|]. by rewrite !last_cons_cons.
Qed.

(** C4, as amended: when every answer of the model is [end_turn] and the
    store is left alone, a creation run whose target does not exist and a
    streaming edit run whose target exists both call the model exactly
    [max_iterations] = 5 times and then fail with the
    exceeded-maximum-iterations error.  Whatever the model answers, no
    run of the three loops calls it more than 5 times. *)
Theorem end_turn_exhausts_iterations
    client prompt edit_description component_name existing_code fs_without fs_with :
  all_end_turn client →
  components fs_without !! component_name = None →
  components fs_with !! component_name = Some existing_code →
  (∃ trace,
     generate_component client prompt component_name fs_without
     = (error_result "Component generation exceeded maximum iterations",
        fs_without, trace)
     ∧ llm_calls trace = 5)
  ∧ (∃ trace,
       edit_component_streaming client component_name edit_description fs_with
       = (fs_with, trace)
       ∧ llm_calls trace = 5
       ∧ last (events trace)
         = Some (error "Component edit exceeded maximum iterations"))
  ∧ (∀ any_client any_prompt any_description any_name fs,
       llm_calls (generate_component any_client any_prompt any_name fs).2 ≤ 5
       ∧ llm_calls (edit_component any_client any_name any_description fs).2 ≤ 5
       ∧ llm_calls (edit_component_streaming any_client any_name any_description fs).2
         ≤ 5).
Proof.
  intros Hclient Hnone Hsome. split_and!.
  - unfold generate_component. by apply generate_loop_end_turn.
  - unfold edit_component_streaming.
    rewrite (is_success_read _ _ _ Hsome), (get_content_read _ _ _ Hsome).
    cbn [negb].
    edestruct (edit_streaming_loop_end_turn client component_name existing_code fs_with)
      as (trace & -> & Hcalls & Hlast); [done..|].
    eexists. split_and!; [done| |].
    + unfold announce_read. by rewrite !llm_calls_cons.
    + unfold announce_read. simpl.
      destruct (events trace) as [|ev evs]; [done|]. by rewrite !last_cons_cons.
  - intros. apply runs_bounded.
Qed.

Lemma end_turn_exhausts_iterations_witness :
  (∃ trace,
     generate_component talk_client "a button" "Button" empty_fs
     = (error_result "Component generation exceeded maximum iterations",
        empty_fs, trace)
     ∧ llm_calls trace = 5)
  ∧ (∃ trace,
       edit_component_streaming talk_client "Button" "make it blue" button_fs
       = (button_fs, trace)
       ∧ llm_calls trace = 5
       ∧ last (events trace)
         = Some (error "Component edit exceeded maximum iterations"))
  ∧ (∀ any_client any_prompt any_description any_name fs,
       llm_calls (generate_component any_client any_prompt any_name fs).2 ≤ 5
       ∧ llm_calls (edit_component any_client any_name any_description fs).2 ≤ 5
       ∧ llm_calls (edit_component_streaming any_client any_name any_description fs).2
         ≤ 5).
Proof.
  apply (end_turn_exhausts_iterations talk_client "a button" "make it blue" "Button"
           button_code empty_fs button_fs).
  - intros messages. by exists talk_response.
  - reflexivity.
  - reflexivity.
Defined.

(** C4 as stated fails for the third loop: [edit_component] gives up on
    the first [end_turn], after one call of the model, with another
    error. *)
Lemma edit_component_fails_on_first_end_turn :
  edit_component talk_client "Button" "make it blue" button_fs
  = (error_result "Component edit failed. Claude's response: Done.",
     button_fs,
     [ReadComponent "Button"; LlmCall 1]).
Proof. vm_compute. reflexivity. Qed.

(** *** The order of events and actions *)

Lemma event_eqb_refl ev : event_eqb ev ev = true.
Proof. unfold event_eqb. by rewrite !String.eqb_refl. Qed.

Lemma announced_app reads trace1 trace2 :
  (∀ prev, announced reads prev trace1 = true) →
  (∀ prev, announced reads prev trace2 = true) →
  ∀ prev, announced reads prev (trace1 ++ trace2) = true.
Proof.
  intros H1 H2.
  assert (∀ t prev, announced reads prev t = true →
            announced reads prev (t ++ trace2) = true) as Happ.
  { induction t as [|e t IH]; intros prev; simpl; [auto|].
    intros [-> ?]%andb_true_iff. simpl. auto. }
  auto.
Qed.

Lemma is_yield_of_tool tool_name :
  is_yield_of (Some (announce_tool tool_name)) (announce_tool tool_name) = true.
Proof. apply event_eqb_refl. Qed.

Lemma is_yield_of_iteration iteration :
  is_yield_of (Some (announce_iteration iteration)) (announce_iteration iteration) = true.
Proof. apply event_eqb_refl. Qed.

Lemma announcement_tool reads tool_name :
  announcement reads (announce_tool tool_name) = None.
Proof. done. Qed.

Lemma announcement_iteration reads iteration :
  announcement reads (announce_iteration iteration) = None.
Proof. done. Qed.

Lemma announcement_updated reads component_name :
  announcement reads (updated component_name) = None.
Proof. done. Qed.

(** Checking the head of a trace written out as a list. *)
Ltac check_announced :=
  repeat (cbn [announced announcement snd andb];
          rewrite ?announcement_tool, ?announcement_iteration, ?announcement_updated,
            ?is_yield_of_tool, ?is_yield_of_iteration).

Lemma tool_use_step_streaming_announced blocks tool_results fs prev :
  announced false prev (tool_use_step_streaming blocks tool_results fs).2 = true.
Proof.
  revert tool_results fs prev.
  induction blocks as [|[text|id tool_name tool_input] blocks IH];
    intros tool_results fs prev; cbn [tool_use_step_streaming]; [done|done|].
  destruct (process_tool_call tool_name tool_input fs) as [[result|e] fs0].
  - destruct (String.eqb tool_name "update_component" && is_success result).
    + by check_announced.
    + specialize (IH (tool_results ++ [tool_result_of id result]) fs0
                     (Some (ToolCall tool_name tool_input))).
      destruct (tool_use_step_streaming blocks _ fs0) as [[out fs1] trace].
      by check_announced.
  - by check_announced.
Qed.

Lemma edit_streaming_loop_announced
    client component_name existing_code remaining iteration messages fs prev :
  announced false prev
    (edit_streaming_loop client remaining iteration component_name existing_code
       messages fs).2 = true.
Proof.
  revert iteration messages fs prev.
  induction remaining as [|remaining IH]; intros iteration messages fs prev;
    cbn [edit_streaming_loop]; [done|].
  destruct (client messages) as [resp|e]; [|by check_announced].
  destruct (String.eqb (stop_reason resp) "tool_use").
  - pose proof (tool_use_step_streaming_announced (content resp) [] fs) as Hstep.
    destruct (tool_use_step_streaming _ _ _) as [[[result|e|tool_results] fs'] trace];
      cbn [snd] in Hstep; check_announced.
    + by apply announced_app.
    + by apply announced_app.
    + match goal with |- context [edit_streaming_loop _ _ ?i _ _ ?m ?f] =>
        pose proof (λ prev, IH i m f prev) as Hrest end.
      destruct (edit_streaming_loop _ _ _ _ _ _ _) as [fs'' trace'].
      cbn [snd] in Hrest. check_announced. by apply announced_app.
  - destruct (String.eqb (stop_reason resp) "end_turn"); [|by check_announced].
    destruct (is_success _ && _); [by check_announced|].
    match goal with |- context [edit_streaming_loop _ _ ?i _ _ ?m ?f] =>
      pose proof (λ prev, IH i m f prev) as Hrest end.
    destruct (edit_streaming_loop _ _ _ _ _ _ _) as [fs'' trace'].
    cbn [snd] in Hrest. check_announced. apply Hrest.
Qed.

(** C9, as amended: in the streaming run every call of the model and
    every tool dispatch comes right after the progress event that
    announces it.  The initial read of the component is the first thing
    the run does: no event precedes it, and its [Reading component] event
    is the next effect when the component was found (the error event
    when it was not). *)
Theorem llm_and_tool_actions_announced client component_name edit_description fs :
  (edit_component_streaming client component_name edit_description fs).2 !! 0
  = Some (ReadComponent component_name)
  ∧ (edit_component_streaming client component_name edit_description fs).2 !! 1
    = Some (if is_success (read_component component_name fs)
            then announce_read component_name
            else Yield (error (msg_not_found component_name)))
  ∧ announced false None
      (edit_component_streaming client component_name edit_description fs).2 = true.
Proof.
  unfold edit_component_streaming.
  destruct (is_success (read_component component_name fs)); cbn [negb]; [|done].
  match goal with |- context [edit_streaming_loop _ _ ?i ?n ?c ?m ?f] =>
    pose proof (edit_streaming_loop_announced client n c max_iterations i m f) as Hloop end.
  destruct (edit_streaming_loop _ _ _ _ _ _ _) as [fs' trace].
  split_and!; [done|done|]. cbn [snd] in Hloop. check_announced. apply Hloop.
Qed.

Example blue_run :
  (edit_component_streaming blue_client "Button" "make it blue" button_fs).2
  = [ReadComponent "Button";
     Yield (progress "Reading component 'Button'...");
     Yield (progress "Starting AI agent...");
     Yield (progress "Agent iteration 1/5...");
     LlmCall 1;
     Yield (progress "Calling tool: update_component...");
     ToolCall "update_component" blue_input;
     Yield (success "Component 'Button' updated successfully!")].
Proof. vm_compute. reflexivity. Qed.

(** C9 as stated fails: the read of the component is the first effect of
    the run and its progress event the second, so the read is not
    announced before it executes. *)
Lemma initial_read_not_announced :
  (edit_component_streaming blue_client "Button" "make it blue" button_fs).2
    !! 0 = Some (ReadComponent "Button")
  ∧ (edit_component_streaming blue_client "Button" "make it blue"
       button_fs).2
    !! 1 = Some (announce_read "Button")
  ∧ announced true None
      (edit_component_streaming blue_client "Button" "make it blue"
         button_fs).2 = false.
Proof. vm_compute. auto. Qed.

End AgentFacts.

(** ** More on the component store and the tool protocol *)

Module StoreExtra.
Import Py Tools Spec Samples SpecExtra SamplesExtra.

(** *** Creating, updating and reading *)

Lemma content_verdict_None phrases code :
  content_verdict phrases code = None
  ↔ any_phrase_in phrases (lower code) = false ∧ no_code_pattern code = false.
Proof.
  unfold content_verdict.
  destruct (any_phrase_in phrases (lower code)), (no_code_pattern code);
    split; try done; by intros [? ?].
Qed.

Lemma universal_newlines_id code :
  no_carriage_return code = true → universal_newlines code = code.
Proof.
  unfold no_carriage_return. induction code as [|c code IH]; [done|].
  cbn [forall_chars universal_newlines].
  intros [Hc Hcode]%andb_true_iff. apply negb_true_iff in Hc. rewrite Hc.
  by rewrite IH.
Qed.

(** X1: what [read_component] returns after a successful
    [create_component] is the created code as a text-mode read presents
    it, with CR LF and CR read as LF: the code itself when it holds no
    carriage return. *)
Theorem create_then_read name code fs :
  is_success (create_component name code fs).1 = true →
  read_component name (create_component name code fs).2
  = read_success name (universal_newlines code)
  ∧ (no_carriage_return code = true →
     read_component name (create_component name code fs).2 = read_success name code).
Proof.
  intros Hok. apply StoreFacts.create_component_success in Hok as (_ & _ & _ & ->).
  assert (read_component name (write_component name code fs)
          = read_success name (universal_newlines code)) as Hread.
  { unfold read_component, write_component. simpl. by rewrite lookup_insert_eq. }
  split; [done|]. intros Hplain. by rewrite Hread, universal_newlines_id.
Qed.

Lemma create_then_read_witness :
  read_component "Button" (create_component "Button" button_code empty_fs).2
  = read_success "Button" (universal_newlines button_code)
  ∧ (no_carriage_return button_code = true →
     read_component "Button" (create_component "Button" button_code empty_fs).2
     = read_success "Button" button_code).
Proof.
  apply (create_then_read "Button" button_code empty_fs). reflexivity.
Defined.

(** A carriage return in the code is read back as a line feed. *)
Example carriage_return_read_back :
  dict_get "content"
    (read_component "Row"
       (create_component "Row"
          ("const Row = 1;" +:+ String "013" (String "010" "export default Row;"))
          empty_fs).2)
  = Some (JStr ("const Row = 1;" +:+ String "010" "export default Row;")).
Proof. vm_compute. reflexivity. Qed.

Lemma create_component_store name code fs :
  (create_component name code fs).2
  = if is_success (create_component name code fs).1
    then write_component name code fs else fs.
Proof.
  unfold create_component.
  destruct (bad_name name); [done|].
  destruct (any_phrase_in CREATE_PHRASES (lower code)); [done|].
  destruct (no_code_pattern code); [done|].
  by destruct (components fs !! name).
Qed.

Lemma create_component_pages name code fs :
  pages (create_component name code fs).2 = pages fs.
Proof.
  rewrite create_component_store. by destruct (is_success _).
Qed.

Lemma update_component_pages name code fs :
  pages (update_component name code fs).2 = pages fs.
Proof.
  unfold update_component.
  destruct (any_phrase_in UPDATE_PHRASES (lower code)); [done|].
  destruct (no_code_pattern code); [done|].
  by destruct (components fs !! name).
Qed.

(** X2: for a plain name and ASCII code, [create_component] succeeds
    exactly when the name starts with an upper-case letter, the code
    passes both content checks and no component of that name exists; it
    then writes that one file, and when it fails it leaves the file
    system as it was. *)
Theorem create_succeeds_iff name code fs :
  plain_name name = true →
  ascii_text code = true →
  (is_success (create_component name code fs).1 = true
   ↔ bad_name name = false
     ∧ content_verdict CREATE_PHRASES code = None
     ∧ components fs !! name = None)
  ∧ (create_component name code fs).2
    = if is_success (create_component name code fs).1
      then write_component name code fs else fs.
Proof.
  intros _ _. split; [|apply create_component_store].
  unfold create_component, content_verdict.
  destruct (bad_name name); [by split; [|intros (? & _)]|].
  destruct (any_phrase_in CREATE_PHRASES (lower code));
    [by split; [|intros (_ & ? & _)]|].
  destruct (no_code_pattern code); [by split; [|intros (_ & ? & _)]|].
  destruct (components fs !! name); [by split; [|intros (_ & _ & ?)]|].
  by split.
Qed.

Lemma create_succeeds_iff_witness :
  (is_success (create_component "Card" card_code button_fs).1 = true
   ↔ bad_name "Card" = false
     ∧ content_verdict CREATE_PHRASES card_code = None
     ∧ components button_fs !! "Card" = None)
  ∧ (create_component "Card" card_code button_fs).2
    = if is_success (create_component "Card" card_code button_fs).1
      then write_component "Card" card_code button_fs else button_fs.
Proof.
  apply (create_succeeds_iff "Card" card_code button_fs); reflexivity.
Defined.

(** X3: for a plain name and ASCII code, [update_component] succeeds
    exactly when the code passes both content checks and the component
    exists; a following read then returns the new code as a text-mode
    read presents it, and a failed update leaves the file system as it
    was. *)
Theorem update_succeeds_iff name code fs :
  plain_name name = true →
  ascii_text code = true →
  (is_success (update_component name code fs).1 = true
   ↔ content_verdict UPDATE_PHRASES code = None ∧ is_Some (components fs !! name))
  ∧ (if is_success (update_component name code fs).1
     then read_component name (update_component name code fs).2
          = read_success name (universal_newlines code)
     else (update_component name code fs).2 = fs).
Proof.
  intros _ _. unfold update_component, content_verdict.
  destruct (any_phrase_in UPDATE_PHRASES (lower code));
    [by split; [split; [|intros (? & _)]|]|].
  destruct (no_code_pattern code);
    [by split; [split; [|intros (? & _)]|]|].
  destruct (components fs !! name) as [old|] eqn:Hold.
  - split; [by split; [|intros _]|]. cbn [fst snd is_success status dict_get].
    simpl. unfold read_component, write_component. simpl.
    by rewrite lookup_insert_eq.
  - split; [|done]. split; [done|]. by intros (_ & ? & ?).
Qed.

Lemma update_succeeds_iff_witness :
  (is_success (update_component "Button" blue_code button_fs).1 = true
   ↔ content_verdict UPDATE_PHRASES blue_code = None
     ∧ is_Some (components button_fs !! "Button"))
  ∧ (if is_success (update_component "Button" blue_code button_fs).1
     then read_component "Button" (update_component "Button" blue_code button_fs).2
          = read_success "Button" (universal_newlines blue_code)
     else (update_component "Button" blue_code button_fs).2 = button_fs).
Proof.
  apply (update_succeeds_iff "Button" blue_code button_fs); reflexivity.
Defined.

(** X4: a [create_component] or an [update_component] under a plain
    name never changes the component of another plain name, and never a
    page. *)
Theorem mutation_frame name other code fs :
  plain_name name = true →
  plain_name other = true →
  other ≠ name →
  components (create_component name code fs).2 !! other = components fs !! other
  ∧ components (update_component name code fs).2 !! other = components fs !! other
  ∧ pages (create_component name code fs).2 = pages fs
  ∧ pages (update_component name code fs).2 = pages fs.
Proof.
  intros _ _ Hne. split_and!.
  - rewrite create_component_store.
    destruct (is_success _); [|done]. apply lookup_insert_ne. congruence.
  - unfold update_component.
    destruct (any_phrase_in UPDATE_PHRASES (lower code)); [done|].
    destruct (no_code_pattern code); [done|].
    destruct (components fs !! name); [|done]. apply lookup_insert_ne. congruence.
  - apply create_component_pages.
  - apply update_component_pages.
Qed.

Lemma mutation_frame_witness :
  components (create_component "Card" button_code button_fs).2 !! "Button"
  = components button_fs !! "Button"
  ∧ components (update_component "Card" button_code button_fs).2 !! "Button"
    = components button_fs !! "Button"
  ∧ pages (create_component "Card" button_code button_fs).2 = pages button_fs
  ∧ pages (update_component "Card" button_code button_fs).2 = pages button_fs.
Proof.
  apply (mutation_frame "Card" "Button" button_code button_fs);
    [reflexivity|reflexivity|discriminate].
Defined.

(** *** Listing *)

Lemma listed_names_list_components fs :
  listed_names (list_components fs) = (map_to_list (components fs)).*1.
Proof.
  unfold listed_names, list_components. cbn [dict_get].
  repeat (case_decide; [done|]). case_decide; [|done].
  induction (map_to_list (components fs)) as [|[k v] l IH]; [done|].
  cbn [map omap list_omap fmap list_fmap fst dict_get]. cbn.
  case_decide; [|done]. by rewrite <- IH.
Qed.

Lemma listed_names_elem fs name :
  name ∈ listed_names (list_components fs) ↔ is_Some (components fs !! name).
Proof.
  rewrite listed_names_list_components, list_elem_of_fmap. split.
  - intros [[k v] [-> Hin%elem_of_map_to_list]]. by eexists.
  - intros [v Hv]. exists (name, v). split; [done|]. by apply elem_of_map_to_list.
Qed.

Lemma listed_names_length fs :
  length (listed_names (list_components fs)) = base.size (components fs).
Proof. by rewrite listed_names_list_components, length_fmap, length_map_to_list. Qed.

(** X5: [list_components] lists every component of the store once, no
    other name, and [count] is their number. *)
Theorem list_components_reflects_store fs :
  NoDup (listed_names (list_components fs))
  ∧ (∀ name, name ∈ listed_names (list_components fs)
             ↔ is_Some (components fs !! name))
  ∧ dict_get "count" (list_components fs)
    = Some (JInt (Z.of_nat (base.size (components fs))))
  ∧ length (listed_names (list_components fs)) = base.size (components fs).
Proof.
  split_and!.
  - rewrite listed_names_list_components. apply NoDup_fst_map_to_list.
  - intros name. apply listed_names_elem.
  - unfold list_components. cbn [dict_get].
    repeat (case_decide; [done|]). case_decide; [|done].
    by rewrite length_map, length_map_to_list.
  - apply listed_names_length.
Qed.

(** X6: after a successful [create_component] the listing has the new
    name and one entry more; every name listed before is still listed. *)
Theorem create_extends_listing name code fs :
  is_success (create_component name code fs).1 = true →
  name ∈ listed_names (list_components (create_component name code fs).2)
  ∧ (name ∉ listed_names (list_components fs))
  ∧ length (listed_names (list_components (create_component name code fs).2))
    = S (length (listed_names (list_components fs)))
  ∧ (∀ other, other ∈ listed_names (list_components fs) →
              other ∈ listed_names (list_components (create_component name code fs).2)).
Proof.
  intros Hok.
  apply StoreFacts.create_component_success in Hok as (_ & _ & Hnone & ->).
  rewrite !listed_names_length. setoid_rewrite listed_names_elem.
  unfold write_component. simpl. split_and!.
  - rewrite lookup_insert_eq. by eexists.
  - rewrite Hnone. by intros [? ?].
  - by apply map_size_insert_None.
  - intros other Hother. destruct (decide (other = name)) as [->|Hne].
    + rewrite lookup_insert_eq. by eexists.
    + by rewrite lookup_insert_ne.
Qed.

Lemma create_extends_listing_witness :
  "Card" ∈ listed_names (list_components (create_component "Card" card_code button_fs).2)
  ∧ ("Card" ∉ listed_names (list_components button_fs))
  ∧ length (listed_names
              (list_components (create_component "Card" card_code button_fs).2))
    = S (length (listed_names (list_components button_fs)))
  ∧ (∀ other, other ∈ listed_names (list_components button_fs) →
              other ∈ listed_names
                        (list_components (create_component "Card" card_code button_fs).2)).
Proof.
  apply (create_extends_listing "Card" card_code button_fs). reflexivity.
Defined.

(** *** The prose check *)

Lemma lower_app a b : lower (a +:+ b) = lower a +:+ lower b.
Proof.
  induction a as [|c a IH]; [done|].
  change (String c a +:+ b) with (String c (a +:+ b)). simpl lower. by rewrite IH.
Qed.

Lemma prefix_app s rest : String.prefix s (s +:+ rest) = true.
Proof.
  induction s as [|c s IH]; [by destruct rest|].
  change (String c s +:+ rest) with (String c (s +:+ rest)).
  by rewrite LayoutFacts.prefix_cons_eq.
Qed.

Lemma contains_app needle before after :
  contains needle (before +:+ needle +:+ after) = true.
Proof.
  induction before as [|c before IH].
  - change ("" +:+ needle +:+ after) with (needle +:+ after).
    destruct needle as [|c needle]; [by destruct after|].
    change (String c needle +:+ after) with (String c (needle +:+ after)).
    rewrite LayoutFacts.contains_cons.
    change (String c (needle +:+ after)) with (String c needle +:+ after).
    by rewrite prefix_app.
  - change (String c before +:+ needle +:+ after)
      with (String c (before +:+ needle +:+ after)).
    rewrite LayoutFacts.contains_cons, IH. apply orb_true_r.
Qed.

(** X7: code that holds one of the marker phrases anywhere, in any
    mixture of upper and lower case, is rejected as prose, whatever else
    it holds: by [update_component] under every name, by
    [create_component] when the name is well formed.  The file system is
    left as it was. *)
Theorem phrase_anywhere_is_prose name before phrase after fs :
  (bad_name name = false →
   lower phrase ∈ CREATE_PHRASES →
   create_component name (before +:+ phrase +:+ after) fs = (error_result MSG_PROSE, fs))
  ∧ (lower phrase ∈ UPDATE_PHRASES →
     update_component name (before +:+ phrase +:+ after) fs
     = (error_result MSG_PROSE, fs)).
Proof.
  assert (∀ phrases, lower phrase ∈ phrases →
            any_phrase_in phrases (lower (before +:+ phrase +:+ after)) = true) as Hany.
  { intros phrases Hin. unfold any_phrase_in. apply existsb_exists.
    exists (lower phrase). split; [by apply list_elem_of_In|].
    rewrite !lower_app. apply contains_app. }
  split.
  - intros Hname Hin. unfold create_component. by rewrite Hname, (Hany _ Hin).
  - intros Hin. unfold update_component. by rewrite (Hany _ Hin).
Qed.

(** The scenario: valid component code around the phrase, and an update
    under a name that [create_component] would refuse. *)
Example phrase_in_valid_code :
  create_component "Cart"
    ("const Cart = () => <p>" +:+ "Here Is" +:+ " your cart</p>") empty_fs
  = (error_result MSG_PROSE, empty_fs)
  ∧ update_component "cart"
      ("const Cart = () => <p>" +:+ "Here Is" +:+ " your cart</p>") empty_fs
    = (error_result MSG_PROSE, empty_fs).
Proof. vm_compute. done. Qed.

(** *** Dispatch *)

Lemma two_arguments_raise (f : string → string → filesystem → dict * filesystem)
    (tool_input : gmap string string) fs e :
  (match subscript tool_input "name" with
   | Raise e => (Raise e, fs)
   | Return name =>
       match subscript tool_input "code" with
       | Raise e => (Raise e, fs)
       | Return code => let '(r, fs') := f name code fs in (Return r, fs')
       end
   end).1 = Raise e
  ↔ (tool_input !! "name" = None ∧ e = KeyError "name")
    ∨ (is_Some (tool_input !! "name") ∧ tool_input !! "code" = None
       ∧ e = KeyError "code").
Proof.
  unfold subscript.
  destruct (tool_input !! "name") as [name|], (tool_input !! "code") as [code|];
    [destruct (f name code fs)|..]; cbn [fst]; split.
  - done.
  - intros [[? _]|(_ & ? & _)]; done.
  - intros [= <-]. right. by split; [eexists|].
  - intros [[? _]|(_ & _ & ->)]; done.
  - intros [= <-]. by left.
  - intros [[_ ->]|([? ?] & _)]; done.
  - intros [= <-]. by left.
  - intros [[_ ->]|([? ?] & _)]; done.
Qed.

(** X8: [process_tool_call] raises exactly when a tool that takes
    arguments is called without one of them: it is then the [KeyError]
    of the first missing key.  [list_components] and an unknown tool
    never raise. *)
Theorem process_tool_call_raises_iff tool_name tool_input fs e :
  (process_tool_call tool_name tool_input fs).1 = Raise e
  ↔ (tool_name ∈ ["create_component"; "update_component"]
     ∧ ((tool_input !! "name" = None ∧ e = KeyError "name")
        ∨ (is_Some (tool_input !! "name") ∧ tool_input !! "code" = None
           ∧ e = KeyError "code")))
    ∨ (tool_name = "read_component" ∧ tool_input !! "name" = None
       ∧ e = KeyError "name").
Proof.
  unfold process_tool_call.
  destruct (String.eqb_spec tool_name "create_component") as [->|Hc].
  { rewrite two_arguments_raise. split.
    - intros Hcase. left. split; [repeat constructor|done].
    - intros [[_ ?]|[? _]]; done. }
  destruct (String.eqb_spec tool_name "update_component") as [->|Hu].
  { rewrite two_arguments_raise. split.
    - intros Hcase. left. split; [repeat constructor|done].
    - intros [[_ ?]|[? _]]; done. }
  assert (tool_name ∉ ["create_component"; "update_component"]) as Hnot.
  { intros [->|[->|[]%elem_of_nil]%elem_of_cons]%elem_of_cons; done. }
  destruct (String.eqb_spec tool_name "read_component") as [->|Hr].
  { unfold subscript. destruct (tool_input !! "name") as [name|]; cbn [fst]; split.
    - done.
    - intros [[? _]|(_ & ? & _)]; done.
    - intros [= <-]. by right.
    - intros [[? _]|(_ & _ & ->)]; done. }
  destruct (String.eqb tool_name "list_components"); cbn [fst]; split; try done;
    intros [[? _]|(? & _)]; done.
Qed.

(** X9: only [create_component] and [update_component] change the file
    system: every other tool name, known or not, and every call that
    raises leaves it as it was; and a dispatch whose name argument is
    plain changes no page. *)
Theorem process_tool_call_frame tool_name tool_input fs :
  (tool_name ∉ ["create_component"; "update_component"] →
   (process_tool_call tool_name tool_input fs).2 = fs)
  ∧ (∀ e, (process_tool_call tool_name tool_input fs).1 = Raise e →
          (process_tool_call tool_name tool_input fs).2 = fs)
  ∧ ((∀ name, tool_input !! "name" = Some name → plain_name name = true) →
     pages (process_tool_call tool_name tool_input fs).2 = pages fs).
Proof.
  unfold process_tool_call, subscript.
  destruct (String.eqb_spec tool_name "create_component") as [->|Hc].
  { destruct (tool_input !! "name") as [name|], (tool_input !! "code") as [code|];
      try (split_and!; [intros Hnot; destruct Hnot; repeat constructor|done|done]).
    pose proof (create_component_pages name code fs) as Hpages.
    destruct (create_component name code fs) as [r fs'].
    split_and!; [|done|done]. intros Hnot; destruct Hnot; repeat constructor. }
  destruct (String.eqb_spec tool_name "update_component") as [->|Hu].
  { destruct (tool_input !! "name") as [name|], (tool_input !! "code") as [code|];
      try (split_and!; [intros Hnot; destruct Hnot; repeat constructor|done|done]).
    pose proof (update_component_pages name code fs) as Hpages.
    destruct (update_component name code fs) as [r fs'].
    split_and!; [|done|done]. intros Hnot; destruct Hnot; repeat constructor. }
  destruct (String.eqb tool_name "read_component").
  { by destruct (tool_input !! "name"). }
  by destruct (String.eqb tool_name "list_components").
Qed.

End StoreExtra.

(** ** More on layout synthesis *)

Module LayoutExtra.
Import Py Tools Spec Samples SpecExtra SamplesExtra.

(** *** The handler table *)

Section DictFacts.
Context {K V : Type} `{EqDecision K}.
Implicit Types (d : list (K * V)) (k : K) (v : V).

Lemma dict_get_set k k' v d :
  dict_get k (dict_set k' v d) = if decide (k = k') then Some v else dict_get k d.
Proof.
  induction d as [|[k0 v0] d IH]; simpl.
  - by repeat case_decide.
  - destruct (decide (k' = k0)) as [->|Hne]; simpl.
    + by repeat case_decide.
    + rewrite IH. repeat case_decide; congruence.
Qed.

Lemma dict_get_alter (f : V → V) k k' d :
  dict_get k (dict_alter f k' d)
  = if decide (k = k') then f <$> dict_get k d else dict_get k d.
Proof.
  induction d as [|[k0 v0] d IH]; simpl.
  - by case_decide.
  - destruct (decide (k' = k0)) as [->|Hne]; simpl.
    + by repeat case_decide.
    + rewrite IH. repeat case_decide; congruence.
Qed.
End DictFacts.

Lemma fold_add_interaction_get id k interactions (acc : state_table * handler_table) :
  dict_get k (fold_left (add_interaction id) interactions acc).2
  = if truthy_opt id && bool_decide (k = id)
    then (λ handlers, handlers ++ map handler_of interactions) <$> dict_get k acc.2
    else dict_get k acc.2.
Proof.
  revert acc. induction interactions as [|inter interactions IH]; intros acc; simpl.
  - destruct (truthy_opt id && bool_decide (k = id)); [|done].
    destruct (dict_get k acc.2); simpl; by rewrite ?app_nil_r.
  - rewrite IH. unfold add_interaction. cbn [snd].
    destruct (truthy_opt id); simpl; [|done].
    rewrite dict_get_alter. case_bool_decide; case_decide; try done.
    destruct (dict_get k acc.2); simpl; [|done].
    by rewrite <- app_assoc.
Qed.

Lemma add_item_get k (acc : state_table * handler_table) item :
  dict_get k (add_item acc item).2
  = match recorded k item with
    | Some handlers => Some handlers
    | None => dict_get k acc.2
    end.
Proof.
  unfold add_item, recorded, handlers_of. rewrite fold_add_interaction_get. cbn [snd].
  destruct (interactions item) as [|inter inters] eqn:Hinter.
  { destruct (truthy_opt _ && _), (dict_get k acc.2); simpl; by rewrite ?app_nil_r. }
  rewrite dict_get_set.
  destruct (decide (component_id item = k)) as [<-|Hne].
  - rewrite bool_decide_eq_true_2 by done. rewrite decide_True by done.
    by destruct (truthy_opt (component_id item)).
  - rewrite bool_decide_eq_false_2 by congruence. rewrite andb_false_r.
    by rewrite decide_False by congruence.
Qed.

Lemma all_handlers_snoc items item :
  all_handlers {| layout_components := items ++ [item] |}
  = (add_item (collect {| layout_components := items |}) item).2.
Proof. unfold all_handlers, collect. simpl. by rewrite fold_left_app. Qed.

Lemma all_handlers_get layout id :
  dict_get id (all_handlers layout)
  = last (omap (recorded id) (layout_components layout)).
Proof.
  destruct layout as [items].
  induction items as [|item items IH] using rev_ind; [done|].
  rewrite all_handlers_snoc, add_item_get. cbn [layout_components] in *.
  rewrite omap_app. cbn [omap list_omap].
  destruct (recorded id item) as [handlers|].
  - by rewrite last_snoc.
  - by rewrite app_nil_r.
Qed.

(** X10: under an id the handler table holds what the last layout item
    with that id and with interactions recorded, whatever the items
    before it recorded: the handlers of an earlier item with the same id
    are dropped. *)
Theorem last_item_with_id_wins before item after :
  interactions item ≠ [] →
  Forall (λ later, interactions later = [] ∨ component_id later ≠ component_id item)
         after →
  dict_get (component_id item)
    (all_handlers {| layout_components := before ++ item :: after |})
  = Some (if truthy_opt (component_id item) then handlers_of item else []).
Proof.
  intros Hinter Hafter. rewrite all_handlers_get. cbn [layout_components].
  rewrite omap_app. cbn [omap list_omap].
  assert (recorded (component_id item) item
          = Some (if truthy_opt (component_id item) then handlers_of item else []))
    as ->.
  { unfold recorded. destruct (interactions item); [done|]. by rewrite decide_True. }
  assert (omap (recorded (component_id item)) after = []) as Hnone.
  { induction Hafter as [|later after Hlater _ IH]; [done|].
    cbn [omap list_omap]. change (list_omap ?f ?l) with (omap f l). rewrite IH.
    unfold recorded. destruct Hlater as [->|Hne]; [done|].
    destruct (interactions later); [done|]. by rewrite decide_False. }
  change (list_omap ?f ?l) with (omap f l). rewrite Hnone.
  apply last_snoc.
Qed.

Lemma last_item_with_id_wins_witness :
  dict_get (component_id submit_item)
    (all_handlers
       {| layout_components := [counter_item "c1" 0] ++ submit_item :: [flat_item] |})
  = Some (if truthy_opt (component_id submit_item) then handlers_of submit_item else []).
Proof.
  apply (last_item_with_id_wins [counter_item "c1" 0] submit_item [flat_item]).
  - discriminate.
  - repeat constructor.
Defined.

(** X11: a layout item without an id, or with an empty one, never gets
    an event prop, whatever interactions it or any other item has. *)
Theorem item_without_id_has_no_props layout item :
  truthy_opt (component_id item) = false →
  props_str (all_handlers layout) item = "".
Proof.
  intros Hfalsy. unfold props_str. rewrite all_handlers_get.
  destruct (last _) as [handlers|] eqn:Hlast; [|done].
  apply last_Some in Hlast as [l' Hl'].
  assert (handlers ∈ omap (recorded (component_id item)) (layout_components layout))
    as (item' & _ & Hrec)%list_elem_of_omap.
  { rewrite Hl'. apply elem_of_app. right. apply list_elem_of_here. }
  unfold recorded in Hrec. rewrite Hfalsy in Hrec.
  destruct (interactions item'); [done|]. case_decide; by simplify_eq.
Qed.

Lemma item_without_id_has_no_props_witness :
  props_str (all_handlers banner_layout) anonymous_item = "".
Proof.
  apply (item_without_id_has_no_props banner_layout anonymous_item). reflexivity.
Defined.

(** With a shared id both wrappers get the handlers of the later item. *)
Example shared_id_props :
  map (props_str (all_handlers shared_id_layout)) (layout_components shared_id_layout)
  = [" onSubmit={send}"; " onSubmit={send}"].
Proof. vm_compute. reflexivity. Qed.

(** *** Imports *)

Lemma collect_imports_elem name layout :
  name ∈ collect_imports layout
  ↔ truthy name = true
    ∧ ∃ item, item ∈ layout_components layout ∧ componentName item = Some name.
Proof.
  unfold collect_imports.
  assert (∀ items (acc : gset string),
            name ∈ fold_left
                     (λ (imports : gset string) item,
                        match componentName item with
                        | Some comp_name =>
                            if truthy comp_name then imports ∪ {[comp_name]} else imports
                        | None => imports
                        end) items acc
            ↔ name ∈ acc
              ∨ (truthy name = true
                 ∧ ∃ item, item ∈ items ∧ componentName item = Some name)) as Hfold.
  { induction items as [|item items IH]; intros acc; simpl.
    - split; [by left|]. intros [?|(_ & item & []%elem_of_nil & _)]. done.
    - rewrite IH. split.
      + intros [Hacc|(Ht & item' & Hin & Hname)].
        * destruct (componentName item) as [n|] eqn:Hn; [|by left].
          destruct (truthy n) eqn:Htn; [|by left].
          apply elem_of_union in Hacc as [?|Heq%elem_of_singleton]; [by left|].
          subst. right. split; [done|]. exists item. split; [left|done].
        * right. split; [done|]. exists item'. split; [by right|done].
      + intros [Hacc|(Ht & item' & [->|Hin]%elem_of_cons & Hname)].
        * left. destruct (componentName item) as [n|]; [|done].
          destruct (truthy n); [|done]. apply elem_of_union. by left.
        * left. rewrite Hname, Ht. apply elem_of_union. right.
          by apply elem_of_singleton.
        * right. split; [done|]. by exists item'. }
  rewrite Hfold. split.
  - intros [[]%elem_of_empty|?]. done.
  - by right.
Qed.

(** X12: the import lines are one per distinct non-empty component name
    of the layout, in ascending order of the names, whatever the order
    in which the set of names is enumerated. *)
Theorem imports_sorted_distinct (set_iter : gset string → list string) layout :
  (∀ X, set_iter X ≡ₚ elements X) →
  import_lines set_iter layout
  = map import_line (sorted (set_iter (collect_imports layout)))
  ∧ Sorted str_le (sorted (set_iter (collect_imports layout)))
  ∧ NoDup (sorted (set_iter (collect_imports layout)))
  ∧ (∀ name,
       name ∈ sorted (set_iter (collect_imports layout))
       ↔ truthy name = true
         ∧ ∃ item, item ∈ layout_components layout ∧ componentName item = Some name).
Proof.
  intros Hiter.
  assert (sorted (set_iter (collect_imports layout))
          ≡ₚ elements (collect_imports layout)) as Hperm.
  { unfold sorted. by rewrite merge_sort_Permutation. }
  split_and!.
  - done.
  - pose proof LayoutFacts.str_le_total. apply Sorted_merge_sort. apply _.
  - rewrite Hperm. apply NoDup_elements.
  - intros name. rewrite Hperm, elem_of_elements. apply collect_imports_elem.
Qed.

Lemma imports_sorted_distinct_witness :
  import_lines elements home_layout
  = map import_line (sorted (elements (collect_imports home_layout)))
  ∧ Sorted str_le (sorted (elements (collect_imports home_layout)))
  ∧ NoDup (sorted (elements (collect_imports home_layout)))
  ∧ (∀ name,
       name ∈ sorted (elements (collect_imports home_layout))
       ↔ truthy name = true
         ∧ ∃ item, item ∈ layout_components home_layout
                   ∧ componentName item = Some name).
Proof.
  apply (imports_sorted_distinct elements home_layout). intros X. reflexivity.
Defined.

(** *** The state table *)

Lemma add_state_var_keys_truthy table spec :
  Forall (λ name, truthy name = true) table.*1 →
  Forall (λ name, truthy name = true) (add_state_var table spec).*1.
Proof.
  intros Hall. unfold add_state_var.
  destruct (var_name spec) as [n|]; [|done].
  destruct (truthy n && negb (dict_in n table)) eqn:Hadd; [|done].
  apply andb_true_iff in Hadd as [Hn Hfresh%negb_true_iff%LayoutFacts.dict_in_false].
  rewrite LayoutFacts.dict_set_fresh, fmap_app by done.
  apply Forall_app. split; [done|]. by apply Forall_singleton.
Qed.

Lemma fold_add_state_var_keys_truthy specs table :
  Forall (λ name, truthy name = true) table.*1 →
  Forall (λ name, truthy name = true) (fold_left add_state_var specs table).*1.
Proof.
  revert table. induction specs as [|spec specs IH]; intros table ?; simpl;
    auto using add_state_var_keys_truthy.
Qed.

Lemma all_state_vars_elem layout name :
  name ∈ (all_state_vars layout).*1
  ↔ truthy name = true
    ∧ ∃ spec, spec ∈ state_specs layout ∧ var_name spec = Some name.
Proof.
  rewrite LayoutFacts.all_state_vars_scan. split.
  - intros Hin.
    assert (truthy name = true) as Hname.
    { pose proof (fold_add_state_var_keys_truthy (state_specs layout) [] (Forall_nil_2 _))
        as Hall.
      rewrite Forall_forall in Hall. by apply Hall. }
    split; [done|].
    destruct (dict_get name (fold_left add_state_var (state_specs layout) []))
      as [info|] eqn:Hget; [|by apply LayoutFacts.dict_get_None in Hget].
    rewrite LayoutFacts.fold_add_state_var_get in Hget by done. simpl in Hget.
    unfold first_named in Hget.
    destruct (List.find (named name) (state_specs layout)) as [spec|] eqn:Hfind;
      [|done].
    apply List.find_some in Hfind as [Hin' Hnamed]. exists spec.
    split; [by apply list_elem_of_In|]. unfold named in Hnamed.
    by apply bool_decide_eq_true in Hnamed.
  - intros (Hname & spec & Hin & Hspec).
    destruct (dict_get name (fold_left add_state_var (state_specs layout) []))
      as [info|] eqn:Hget.
    * destruct (decide (name ∈ (fold_left add_state_var (state_specs layout) []).*1))
        as [?|Hnot]; [done|].
      apply LayoutFacts.dict_get_None in Hnot. congruence.
    * rewrite LayoutFacts.fold_add_state_var_get in Hget by done. simpl in Hget.
      unfold first_named in Hget.
      destruct (List.find (named name) (state_specs layout)) as [spec'|] eqn:Hfind;
        [done|].
      apply list_elem_of_In in Hin.
      pose proof (List.find_none _ _ Hfind _ Hin) as Hnone.
      unfold named in Hnone. by rewrite bool_decide_eq_true_2 in Hnone.
Qed.

(** X13: the state table has one entry for each distinct non-empty
    variable name that some state-variable spec of the layout declares,
    and no other entry. *)
Theorem state_table_keys layout :
  NoDup (all_state_vars layout).*1
  ∧ (∀ name,
       name ∈ (all_state_vars layout).*1
       ↔ truthy name = true
         ∧ ∃ spec, spec ∈ state_specs layout ∧ var_name spec = Some name).
Proof.
  split; [|apply all_state_vars_elem].
  rewrite LayoutFacts.all_state_vars_scan.
  apply LayoutFacts.fold_add_state_var_NoDup, NoDup_nil_2.
Qed.

(** *** When [create_page] succeeds *)

Section TableFacts.
Context {K V : Type} `{EqDecision K}.
Implicit Types (d : list (K * V)) (k : K) (v : V).

Lemma dict_get_None_keys k d : dict_get k d = None ↔ k ∉ d.*1.
Proof.
  induction d as [|[k' v'] d IH]; simpl.
  - split; [intros _; apply not_elem_of_nil|done].
  - rewrite not_elem_of_cons. case_decide as Hk.
    + split; [done|]. by intros [? _].
    + rewrite IH. split; [done|]. by intros [_ ?].
Qed.

Lemma dict_alter_keys (f : V → V) k d : (dict_alter f k d).*1 = d.*1.
Proof.
  induction d as [|[k' v'] d IH]; simpl; [done|].
  case_decide; simpl; [done|]. f_equal. apply IH.
Qed.

Lemma dict_set_NoDup k v d : NoDup d.*1 → NoDup (dict_set k v d).*1.
Proof.
  induction d as [|[k' v'] d IH]; simpl.
  - intros _. apply NoDup_singleton.
  - intros [Hfresh Hnodup]%NoDup_cons. case_decide as Hk; simpl.
    + by apply NoDup_cons.
    + apply NoDup_cons. split; [|auto].
      apply dict_get_None_keys. rewrite dict_get_set.
      rewrite decide_False by congruence. by apply dict_get_None_keys.
Qed.

Lemma dict_get_elem k v d : NoDup d.*1 → dict_get k d = Some v ↔ (k, v) ∈ d.
Proof.
  induction d as [|[k' v'] d IH]; simpl.
  - intros _. split; [done|]. by intros ?%elem_of_nil.
  - intros [Hfresh Hnodup]%NoDup_cons. rewrite elem_of_cons. case_decide as Hk.
    + subst. split; [intros [= ->]; by left|].
      intros [[= ->]|Hin]; [done|]. destruct Hfresh.
      apply list_elem_of_fmap. by exists (k', v).
    + rewrite IH by done. split; [by right|]. intros [[= ? ?]|?]; [congruence|done].
Qed.

Lemma dict_get_nil d : d = [] ↔ ∀ k, dict_get k d = None.
Proof.
  split; [by intros ->|]. destruct d as [|[k v] d]; [done|].
  intros Hnone. specialize (Hnone k). simpl in Hnone. by rewrite decide_True in Hnone.
Qed.
End TableFacts.

Lemma elem_of_concat {A} (x : A) (ls : list (list A)) :
  x ∈ concat ls ↔ ∃ l, x ∈ l ∧ l ∈ ls.
Proof.
  induction ls as [|l ls IH]; simpl.
  - split; [by intros ?%elem_of_nil|]. by intros (? & _ & ?%elem_of_nil).
  - rewrite elem_of_app, IH. split.
    + intros [?|(l' & ? & ?)]; [exists l; split; [done|left]|].
      exists l'. split; [done|by right].
    + intros (l' & ? & [->|?]%elem_of_cons); [by left|]. right. by exists l'.
Qed.

Lemma fold_add_interaction_keys id inters (acc : state_table * handler_table) :
  (fold_left (add_interaction id) inters acc).2.*1 = acc.2.*1.
Proof.
  revert acc. induction inters as [|inter inters IH]; intros acc; simpl; [done|].
  rewrite IH. unfold add_interaction. cbn [snd].
  destruct (truthy_opt id); [|done]. apply dict_alter_keys.
Qed.

Lemma add_item_NoDup (acc : state_table * handler_table) item :
  NoDup acc.2.*1 → NoDup (add_item acc item).2.*1.
Proof.
  intros Hnodup. unfold add_item. rewrite fold_add_interaction_keys. cbn [snd].
  destruct (interactions item); [done|]. by apply dict_set_NoDup.
Qed.

Lemma all_handlers_NoDup layout : NoDup (all_handlers layout).*1.
Proof.
  destruct layout as [items].
  induction items as [|item items IH] using rev_ind; [apply NoDup_nil_2|].
  rewrite all_handlers_snoc. by apply add_item_NoDup.
Qed.

Lemma handler_code_lines_returns handlers :
  (∃ lines, handler_code_lines handlers = Return lines)
  ↔ Forall (λ h, is_Some (h_code h)) handlers.
Proof.
  induction handlers as [|h handlers IH]; simpl.
  - split; [done|]. by exists [].
  - rewrite Forall_cons, <- IH.
    destruct (h_code h) as [handler_code|].
    + destruct (handler_code_lines handlers) as [lines|e].
      * split; [|by eauto]. intros _. split; by eauto.
      * split; [by intros [? ?]|]. by intros [_ [? ?]].
    + split; [by intros [? ?]|]. by intros [[? ?] _].
Qed.

Lemma handler_lines_returns table :
  (∃ lines, handler_lines table = Return lines)
  ↔ Forall (λ h, is_Some (h_code h)) (concat table.*2).
Proof.
  unfold handler_lines. destruct table as [|entry table].
  - split; [done|]. by exists [].
  - rewrite <- handler_code_lines_returns.
    change (concat (map snd (entry :: table))) with (concat (entry :: table).*2).
    destruct (handler_code_lines _) as [lines|e].
    + split; by eauto.
    + split; by intros [? ?].
Qed.

Lemma create_page_success_inv set_iter page_name layout fs :
  is_success (create_page set_iter page_name (Some layout) fs).1 = true →
  ∃ lines,
    code_lines set_iter page_name layout = Return lines
    ∧ dict_get "code" (create_page set_iter page_name (Some layout) fs).1
      = Some (JStr (join newline lines))
    ∧ (create_page set_iter page_name (Some layout) fs).2
      = write_page page_name (join newline lines) fs.
Proof.
  unfold create_page.
  destruct (code_lines set_iter page_name layout) as [lines|e]; [|done].
  intros _. by exists lines.
Qed.

Lemma code_lines_returns set_iter page_name layout lines :
  code_lines set_iter page_name layout = Return lines →
  (∃ handlers, handler_lines (all_handlers layout) = Return handlers)
  ∧ first_fault (layout_components layout) = None.
Proof.
  unfold code_lines, all_handlers.
  destruct (collect layout) as [vars table]. cbn [snd].
  destruct (handler_lines table) as [handlers|e]; [|done].
  destruct (first_fault (layout_components layout)); [done|].
  intros _. by eauto.
Qed.

Lemma first_fault_None items :
  first_fault items = None ↔ Forall (λ item, item_fault item = None) items.
Proof.
  induction items as [|item items IH]; cbn [first_fault].
  - split; [by constructor|done].
  - rewrite Forall_cons, <- IH. destruct (item_fault item); [|by split; [|intros [_ ?]]].
    split; [done|]. by intros [? _].
Qed.

Lemma all_handlers_elem layout id handlers :
  (id, handlers) ∈ all_handlers layout
  ↔ last (omap (recorded id) (layout_components layout)) = Some handlers.
Proof.
  rewrite <- all_handlers_get. symmetry. apply dict_get_elem, all_handlers_NoDup.
Qed.

(** X14: an export that succeeds had code in every handler that the
    handler table finally held, and an object, or nothing, as the
    position and the size of every item: an interaction without code
    makes the export fail unless its item has no id or a later item with
    the same id replaces its handlers, and so does a position or a size
    that is null. *)
Theorem export_needs_handler_code set_iter page_name layout fs :
  is_success (create_page set_iter page_name (Some layout) fs).1 = true →
  (∀ id handlers h,
     last (omap (recorded id) (layout_components layout)) = Some handlers →
     h ∈ handlers → is_Some (h_code h))
  ∧ Forall (λ item, item_fault item = None) (layout_components layout).
Proof.
  intros (lines & [Hhandlers Hfault]%code_lines_returns & _)%create_page_success_inv.
  split; [|by apply first_fault_None].
  apply handler_lines_returns in Hhandlers. rewrite Forall_forall in Hhandlers.
  intros id handlers h Hlast%all_handlers_elem Hin. apply Hhandlers.
  apply elem_of_concat. exists handlers. split; [done|].
  apply list_elem_of_fmap. by exists (id, handlers).
Qed.

Lemma export_needs_handler_code_witness :
  (∀ id handlers h,
     last (omap (recorded id) (layout_components home_layout)) = Some handlers →
     h ∈ handlers → is_Some (h_code h))
  ∧ Forall (λ item, item_fault item = None) (layout_components home_layout).
Proof.
  apply (export_needs_handler_code elements "Home" home_layout empty_fs). reflexivity.
Defined.

(** An interaction without code fails the export when its item has an
    id, and is ignored when it has none; a null position fails it with
    the exception of [None.get]. *)
Example codeless_interaction :
  is_success (create_page elements "Home"
                (Some {| layout_components := [codeless_item (Some "m1")] |})
                empty_fs).1 = false
  ∧ is_success (create_page elements "Home"
                  (Some {| layout_components := [codeless_item None] |})
                  empty_fs).1 = true
  ∧ is_success (create_page elements "Home"
                  (Some {| layout_components :=
                             [codeless_item (Some "c1"); counter_item "c1" 0] |})
                  empty_fs).1 = true
  ∧ create_page elements "Home" (Some {| layout_components := [unplaced_item] |})
      empty_fs
    = (error_result
         "Failed to create page: 'NoneType' object has no attribute 'get'",
       empty_fs).
Proof. vm_compute. done. Qed.

(** X15: when an export under a plain page name succeeds, the page
    file of that name holds the generated lines joined by newlines,
    whatever it held before, and the result carries the same text. *)
Theorem create_page_writes_page set_iter page_name layout fs :
  plain_name page_name = true →
  is_success (create_page set_iter page_name (Some layout) fs).1 = true →
  ∃ lines,
    code_lines set_iter page_name layout = Return lines
    ∧ dict_get "code" (create_page set_iter page_name (Some layout) fs).1
      = Some (JStr (join newline lines))
    ∧ pages (create_page set_iter page_name (Some layout) fs).2 !! page_name
      = Some (join newline lines).
Proof.
  intros _ (lines & Hlines & Hcode & Hfs)%create_page_success_inv.
  exists lines. split_and!; [done..|]. rewrite Hfs.
  cbn [pages write_page]. by rewrite lookup_insert_eq.
Qed.

Lemma create_page_writes_page_witness :
  ∃ lines,
    code_lines elements "Home" home_layout = Return lines
    ∧ dict_get "code" (create_page elements "Home" (Some home_layout) empty_fs).1
      = Some (JStr (join newline lines))
    ∧ pages (create_page elements "Home" (Some home_layout) empty_fs).2 !! "Home"
      = Some (join newline lines).
Proof.
  apply (create_page_writes_page elements "Home" home_layout empty_fs); reflexivity.
Defined.

(** X16: [create_page] under a plain page name never touches the
    components nor the page of another plain name. *)
Theorem create_page_frame set_iter page_name layout_data fs :
  plain_name page_name = true →
  components (create_page set_iter page_name layout_data fs).2 = components fs
  ∧ (∀ other, plain_name other = true → other ≠ page_name →
       pages (create_page set_iter page_name layout_data fs).2 !! other
       = pages fs !! other).
Proof.
  intros _. unfold create_page. destruct layout_data as [layout|]; [|done].
  destruct (code_lines set_iter page_name layout) as [lines|e]; [|done].
  split; [done|].
  intros other _ Hne. cbn [snd pages write_page]. by rewrite lookup_insert_ne.
Qed.

Lemma create_page_frame_witness :
  components (create_page elements "Home" (Some home_layout) button_fs).2
  = components button_fs
  ∧ (∀ other, plain_name other = true → other ≠ "Home" →
       pages (create_page elements "Home" (Some home_layout) button_fs).2 !! other
       = pages button_fs !! other).
Proof.
  apply (create_page_frame elements "Home" (Some home_layout) button_fs). reflexivity.
Defined.

(** *** Which sections a page has *)

(** X17: the page has an event-handler section exactly when some layout
    item has an interaction (also when none of them ends up with
    handler code), and a state section exactly when some state-variable
    spec has a non-empty name. *)
Theorem sections_present layout :
  (handler_lines (all_handlers layout) = Return []
   ↔ Forall (λ item, interactions item = []) (layout_components layout))
  ∧ (state_lines (all_state_vars layout) = []
     ↔ Forall (λ spec, truthy_opt (var_name spec) = false) (state_specs layout)).
Proof.
  split.
  - transitivity (all_handlers layout = []).
    { unfold handler_lines. destruct (all_handlers layout) as [|entry table]; [done|].
      destruct (handler_code_lines _); split; done. }
    rewrite (dict_get_nil (all_handlers layout)), Forall_forall. split.
    + intros Hnone item Hin.
      destruct (interactions item) as [|inter inters] eqn:Hinters; [done|].
      specialize (Hnone (component_id item)).
      rewrite all_handlers_get in Hnone.
      apply last_None in Hnone.
      assert ((if truthy_opt (component_id item) then handlers_of item else [])
              ∈ omap (recorded (component_id item)) (layout_components layout)) as Hrec.
      { apply list_elem_of_omap. exists item. split; [done|].
        unfold recorded. rewrite Hinters. by rewrite decide_True. }
      rewrite Hnone in Hrec. by apply elem_of_nil in Hrec.
    + intros Hall id. rewrite all_handlers_get. apply last_None.
      destruct (omap _ _) as [|handlers rest] eqn:Homap; [done|].
      assert (handlers ∈ omap (recorded id) (layout_components layout))
        as (item & Hitem & Hrec)%list_elem_of_omap by (rewrite Homap; left).
      unfold recorded in Hrec. by rewrite (Hall item Hitem) in Hrec.
  - transitivity (all_state_vars layout = []).
    { unfold state_lines. by destruct (all_state_vars layout). }
    pose proof (all_state_vars_elem layout) as Hkeys. rewrite Forall_forall. split.
    + intros Hnil spec Hin.
      destruct (var_name spec) as [name|] eqn:Hname; [|done].
      destruct (truthy name) eqn:Htruthy; [|done].
      assert (name ∈ (all_state_vars layout).*1) as Hkey by (apply Hkeys; eauto).
      rewrite Hnil in Hkey. by apply elem_of_nil in Hkey.
    + intros Hall. destruct (all_state_vars layout) as [|[name info] table] eqn:Htable;
        [done|].
      assert (name ∈ ((name, info) :: table).*1) as Hkey by left.
      apply Hkeys in Hkey as (Htruthy & spec & Hin & Hname).
      specialize (Hall spec Hin). rewrite Hname in Hall. simpl in Hall. congruence.
Qed.

(** An item without an id gives the page an empty handler section. *)
Example banner_sections :
  handler_lines (all_handlers {| layout_components := [anonymous_item] |})
  = Return ["  // Event handlers"; ""].
Proof. vm_compute. done. Qed.

(** *** Handler code *)

Lemma split_nonempty sep s : split sep s ≠ [].
Proof. destruct s as [|c t]; simpl; [done|]. by destruct (Ascii.eqb c sep), (split sep t). Qed.

Lemma join_cons_char sep c h r :
  join sep (String c h :: r) = String c (join sep (h :: r)).
Proof. unfold join. destruct r; simpl; [done|]. by rewrite LayoutFacts.append_cons. Qed.

Lemma join_cons sep x y r :
  join sep (x :: y :: r) = x +:+ sep +:+ join sep (y :: r).
Proof. done. Qed.

Lemma join_split s : join newline (split "010" s) = s.
Proof.
  induction s as [|c t IH]; [done|]. cbn [split].
  destruct (Ascii.eqb_spec c "010") as [->|Hne].
  - destruct (split "010" t) as [|h r] eqn:Hsplit; [by apply split_nonempty in Hsplit|].
    rewrite join_cons, IH. unfold newline.
    by rewrite LayoutFacts.append_nil, LayoutFacts.append_cons, LayoutFacts.append_nil.
  - destruct (split "010" t) as [|h r] eqn:Hsplit; [by apply split_nonempty in Hsplit|].
    by rewrite join_cons_char, IH.
Qed.

Lemma append_assoc a b c : (a +:+ b) +:+ c = a +:+ (b +:+ c).
Proof.
  induction a as [|ch a IH]; [by rewrite !LayoutFacts.append_nil|].
  by rewrite !LayoutFacts.append_cons, IH.
Qed.

Lemma join_app sep l1 l2 :
  l1 ≠ [] → l2 ≠ [] → join sep (l1 ++ l2) = join sep l1 +:+ sep +:+ join sep l2.
Proof.
  intros Hl1 Hl2. induction l1 as [|x l1 IH]; [done|].
  destruct l1 as [|y l1].
  - destruct l2 as [|z l2]; [done|]. done.
  - change ((x :: y :: l1) ++ l2) with (x :: (y :: (l1 ++ l2))).
    rewrite !join_cons. change (y :: l1 ++ l2) with ((y :: l1) ++ l2).
    rewrite IH by done. by rewrite !append_assoc.
Qed.

Lemma unindent_indent lines : map unindent (map (λ line, "  " +:+ line) lines) = lines.
Proof.
  induction lines as [|line lines IH]; [done|]. cbn [map]. rewrite IH. by f_equal.
Qed.

Lemma join_concat_split codes :
  join newline (concat (map (split "010") codes)) = join newline codes.
Proof.
  induction codes as [|c codes IH]; [done|]. cbn [map concat].
  destruct codes as [|c' codes].
  - cbn [map concat]. rewrite app_nil_r. apply join_split.
  - rewrite join_app.
    + by rewrite IH, join_split.
    + apply split_nonempty.
    + cbn [map concat]. intros [? _]%app_eq_nil. by eapply split_nonempty.
Qed.

(** X18: the handler section carries the code of the handlers as it
    came, line by line and in order, each line indented by two spaces
    and otherwise unchanged. *)
Theorem handler_code_verbatim handlers codes :
  map h_code handlers = map Some codes →
  ∃ lines,
    handler_code_lines handlers = Return lines
    ∧ Forall (λ line, String.prefix "  " line = true) lines
    ∧ join newline (map unindent lines) = join newline codes.
Proof.
  intros Hcodes.
  assert (handler_code_lines handlers
          = Return (map (λ line, "  " +:+ line) (concat (map (split "010") codes))))
    as ->.
  { revert codes Hcodes. induction handlers as [|h handlers IH]; intros [|c codes] Hc;
      simplify_eq/=; [done|].
    rewrite (IH codes) by done. destruct (h_code h); simplify_eq.
    by rewrite map_app. }
  eexists. split; [done|]. split.
  - apply Forall_forall. intros line (line' & -> & _)%list_elem_of_fmap.
    rewrite !LayoutFacts.append_cons, LayoutFacts.append_nil.
    rewrite !LayoutFacts.prefix_cons_eq. by destruct line'.
  - by rewrite unindent_indent, join_concat_split.
Qed.

Lemma handler_code_verbatim_witness :
  ∃ lines,
    handler_code_lines (handlers_of submit_item) = Return lines
    ∧ Forall (λ line, String.prefix "  " line = true) lines
    ∧ join newline (map unindent lines)
      = join newline ["const send = () => {" +:+ newline +:+ "  post();" +:+ newline +:+ "}"].
Proof.
  apply (handler_code_verbatim (handlers_of submit_item)
           ["const send = () => {" +:+ newline +:+ "  post();" +:+ newline +:+ "}"]).
  reflexivity.
Defined.

End LayoutExtra.

(** ** More on the agent loops *)

Module AgentExtra.
Import Py Tools Agent Spec Samples SpecExtra SamplesExtra.

(** *** The file system of a run *)

Lemma replay_cons e trace fs : replay (e :: trace) fs = replay trace (dispatch fs e).
Proof. done. Qed.

Lemma replay_app trace1 trace2 fs :
  replay (trace1 ++ trace2) fs = replay trace2 (replay trace1 fs).
Proof. apply fold_left_app. Qed.

Lemma replay_nil fs : replay [] fs = fs.
Proof. done. Qed.

Ltac replay_steps :=
  cbn [fst snd] in *;
  unfold announce_iteration, announce_tool, announce_read, updated;
  repeat first [rewrite replay_app | rewrite replay_cons | rewrite replay_nil];
  cbn [dispatch].

Lemma tool_use_step_replay wanted blocks tool_results fs :
  (tool_use_step wanted blocks tool_results fs).1.2
  = replay (tool_use_step wanted blocks tool_results fs).2 fs.
Proof.
  revert tool_results fs.
  induction blocks as [|[text|id tool_name tool_input] blocks IH];
    intros tool_results fs; cbn [tool_use_step]; [done|done|].
  destruct (process_tool_call tool_name tool_input fs) as [[result|e] fs0] eqn:Hcall.
  - destruct (String.eqb tool_name wanted && is_success result).
    + replay_steps. by rewrite Hcall.
    + specialize (IH (tool_results ++ [tool_result_of id result]) fs0).
      destruct (tool_use_step wanted blocks _ fs0) as [[out fs1] trace].
      replay_steps. by rewrite Hcall.
  - replay_steps. by rewrite Hcall.
Qed.

Lemma replay_with_announcements trace fs :
  replay (with_announcements trace) fs = replay trace fs.
Proof.
  revert fs. induction trace as [|e trace IH]; intros fs; [done|].
  change (with_announcements (e :: trace))
    with (match e with
          | ToolCall tool_name _ => [announce_tool tool_name; e]
          | _ => [e]
          end ++ with_announcements trace).
  rewrite replay_app, IH. by destruct e.
Qed.

Lemma tool_use_step_streaming_replay blocks tool_results fs :
  (tool_use_step_streaming blocks tool_results fs).1.2
  = replay (tool_use_step_streaming blocks tool_results fs).2 fs.
Proof.
  rewrite AgentFacts.tool_use_step_streaming_spec.
  pose proof (tool_use_step_replay "update_component" blocks tool_results fs) as Hstep.
  destruct (tool_use_step _ _ _ _) as [[out fs'] trace].
  cbn [fst snd] in *. by rewrite replay_with_announcements.
Qed.

Lemma generate_loop_replay client component_name remaining iteration messages fs :
  (generate_loop client remaining iteration component_name messages fs).1.2
  = replay (generate_loop client remaining iteration component_name messages fs).2 fs.
Proof.
  revert iteration messages fs.
  induction remaining as [|remaining IH]; intros iteration messages fs;
    cbn [generate_loop]; [done|].
  destruct (client messages) as [resp|e]; [|done].
  destruct (String.eqb (stop_reason resp) "tool_use").
  - pose proof (tool_use_step_replay "create_component" (content resp) [] fs) as Hstep.
    destruct (tool_use_step _ _ _ _) as [[[result|e|tool_results] fs'] trace];
      cbn [fst snd] in Hstep; [by replay_steps..|].
    match goal with |- context [generate_loop _ _ ?i _ ?m ?f] =>
      specialize (IH i m f) end.
    destruct (generate_loop _ _ _ _ _ _) as [[result fs''] trace'].
    replay_steps. by rewrite <- Hstep.
  - destruct (String.eqb (stop_reason resp) "end_turn"); [|done].
    destruct (is_success _); [done|].
    match goal with |- context [generate_loop _ _ ?i _ ?m ?f] =>
      specialize (IH i m f) end.
    destruct (generate_loop _ _ _ _ _ _) as [[result fs''] trace'].
    by replay_steps.
Qed.

Lemma edit_loop_replay client remaining iteration messages fs :
  (edit_loop client remaining iteration messages fs).1.2
  = replay (edit_loop client remaining iteration messages fs).2 fs.
Proof.
  revert iteration messages fs.
  induction remaining as [|remaining IH]; intros iteration messages fs;
    cbn [edit_loop]; [done|].
  destruct (client messages) as [resp|e]; [|done].
  destruct (String.eqb (stop_reason resp) "tool_use").
  - pose proof (tool_use_step_replay "update_component" (content resp) [] fs) as Hstep.
    destruct (tool_use_step _ _ _ _) as [[[result|e|tool_results] fs'] trace];
      cbn [fst snd] in Hstep; [by replay_steps..|].
    match goal with |- context [edit_loop _ _ ?i ?m ?f] =>
      specialize (IH i m f) end.
    destruct (edit_loop _ _ _ _ _) as [[result fs''] trace'].
    replay_steps. by rewrite <- Hstep.
  - by destruct (String.eqb (stop_reason resp) "end_turn").
Qed.

Lemma edit_streaming_loop_replay
    client component_name existing_code remaining iteration messages fs :
  (edit_streaming_loop client remaining iteration component_name existing_code
     messages fs).1
  = replay (edit_streaming_loop client remaining iteration component_name
              existing_code messages fs).2 fs.
Proof.
  revert iteration messages fs.
  induction remaining as [|remaining IH]; intros iteration messages fs;
    cbn [edit_streaming_loop]; [done|].
  destruct (client messages) as [resp|e]; [|done].
  destruct (String.eqb (stop_reason resp) "tool_use").
  - pose proof (tool_use_step_streaming_replay (content resp) [] fs) as Hstep.
    destruct (tool_use_step_streaming _ _ _) as [[[result|e|tool_results] fs'] trace];
      cbn [fst snd] in Hstep; [by replay_steps..|].
    match goal with |- context [edit_streaming_loop _ _ ?i _ _ ?m ?f] =>
      specialize (IH i m f) end.
    destruct (edit_streaming_loop _ _ _ _ _ _ _) as [fs'' trace'].
    replay_steps. by rewrite <- Hstep.
  - destruct (String.eqb (stop_reason resp) "end_turn"); [|done].
    destruct (is_success _ && _); [done|].
    match goal with |- context [edit_streaming_loop _ _ ?i _ _ ?m ?f] =>
      specialize (IH i m f) end.
    destruct (edit_streaming_loop _ _ _ _ _ _ _) as [fs'' trace'].
    by replay_steps.
Qed.

(** X19: the file system a run leaves behind is the one its tool calls
    produce, dispatched in the order of the trace: a run changes the
    store through [process_tool_call] only. *)
Theorem runs_replay client prompt edit_description component_name fs :
  (generate_component client prompt component_name fs).1.2
  = replay (generate_component client prompt component_name fs).2 fs
  ∧ (edit_component client component_name edit_description fs).1.2
    = replay (edit_component client component_name edit_description fs).2 fs
  ∧ (edit_component_streaming client component_name edit_description fs).1
    = replay (edit_component_streaming client component_name edit_description fs).2 fs.
Proof.
  split_and!.
  - apply generate_loop_replay.
  - unfold edit_component. destruct (negb _); [done|].
    match goal with |- context [edit_loop _ ?r ?i ?m ?f] =>
      pose proof (edit_loop_replay client r i m f) as Hloop end.
    destruct (edit_loop _ _ _ _ _) as [[result fs'] trace]. by replay_steps.
  - unfold edit_component_streaming. destruct (negb _); [done|].
    match goal with |- context [edit_streaming_loop _ ?r ?i ?n ?c ?m ?f] =>
      pose proof (edit_streaming_loop_replay client n c r i m f) as Hloop end.
    destruct (edit_streaming_loop _ _ _ _ _ _ _) as [fs' trace].
    unfold announce_read. by replay_steps.
Qed.

(** *** The event stream *)

Lemma events_yield ev trace : events (Yield ev :: trace) = ev :: events trace.
Proof. done. Qed.

Lemma events_llm iteration trace : events (LlmCall iteration :: trace) = events trace.
Proof. done. Qed.

Lemma events_read name trace : events (ReadComponent name :: trace) = events trace.
Proof. done. Qed.

Lemma events_tool tool_name tool_input trace :
  events (ToolCall tool_name tool_input :: trace) = events trace.
Proof. done. Qed.

Lemma events_app trace1 trace2 : events (trace1 ++ trace2) = events trace1 ++ events trace2.
Proof. apply omap_app. Qed.

Lemma events_nil : events [] = [].
Proof. done. Qed.

Lemma verdict_alone ev : is_verdict ev → progress_then_verdict [ev].
Proof. intros Hev. by exists [], ev. Qed.

Lemma progress_first ev evs :
  is_progress ev → progress_then_verdict evs → progress_then_verdict (ev :: evs).
Proof.
  intros Hev (before & final & -> & Hbefore & Hfinal).
  exists (ev :: before), final. split_and!; [done| |done]. by constructor.
Qed.

Lemma progress_prefix evs1 evs2 :
  Forall is_progress evs1 → progress_then_verdict evs2 →
  progress_then_verdict (evs1 ++ evs2).
Proof.
  induction 1 as [|ev evs1 Hev _ IH]; intros Hrest; [done|].
  apply progress_first; auto.
Qed.

Ltac stream :=
  cbn [fst snd];
  unfold announce_iteration, announce_tool, announce_read, updated;
  repeat first
    [ rewrite events_yield | rewrite events_llm | rewrite events_read
    | rewrite events_tool | rewrite events_app | rewrite events_nil ];
  repeat first
    [ assumption
    | apply verdict_alone; first [by left | by right]
    | apply progress_first; [reflexivity|]
    | apply progress_prefix; [assumption|] ].

Lemma tool_use_step_streaming_events blocks tool_results fs :
  Forall is_progress (events (tool_use_step_streaming blocks tool_results fs).2).
Proof.
  revert tool_results fs.
  induction blocks as [|[text|id tool_name tool_input] blocks IH];
    intros tool_results fs; cbn [tool_use_step_streaming]; [by constructor|done|].
  unfold announce_tool.
  destruct (process_tool_call tool_name tool_input fs) as [[result|e] fs0].
  - destruct (String.eqb tool_name "update_component" && is_success result).
    + cbn [snd]. rewrite events_yield, events_tool. by repeat constructor.
    + specialize (IH (tool_results ++ [tool_result_of id result]) fs0).
      destruct (tool_use_step_streaming blocks _ fs0) as [[out fs1] trace].
      cbn [snd] in *. rewrite events_yield, events_tool. by constructor.
  - cbn [snd]. rewrite events_yield, events_tool. by repeat constructor.
Qed.

Lemma edit_streaming_loop_events
    client component_name existing_code remaining iteration messages fs :
  progress_then_verdict
    (events (edit_streaming_loop client remaining iteration component_name
               existing_code messages fs).2).
Proof.
  revert iteration messages fs.
  induction remaining as [|remaining IH]; intros iteration messages fs;
    cbn [edit_streaming_loop]; [by stream|].
  destruct (client messages) as [resp|e]; [|by stream].
  destruct (String.eqb (stop_reason resp) "tool_use").
  - pose proof (tool_use_step_streaming_events (content resp) [] fs) as Hstep.
    destruct (tool_use_step_streaming _ _ _) as [[[result|e|tool_results] fs'] trace];
      cbn [snd] in Hstep; [by stream..|].
    match goal with |- context [edit_streaming_loop _ _ ?i _ _ ?m ?f] =>
      specialize (IH i m f) end.
    destruct (edit_streaming_loop _ _ _ _ _ _ _) as [fs'' trace'].
    cbn [snd] in IH. by stream.
  - destruct (String.eqb (stop_reason resp) "end_turn"); [|by stream].
    destruct (is_success _ && _); [by stream|].
    match goal with |- context [edit_streaming_loop _ _ ?i _ _ ?m ?f] =>
      specialize (IH i m f) end.
    destruct (edit_streaming_loop _ _ _ _ _ _ _) as [fs'' trace'].
    cbn [snd] in IH. by stream.
Qed.

(** X20: whatever the model answers, the events of a streaming edit run
    are progress events followed by exactly one verdict, a success or an
    error event, which is the last event of the stream. *)
Theorem streaming_ends_with_one_verdict client component_name edit_description fs :
  progress_then_verdict
    (events (edit_component_streaming client component_name edit_description fs).2).
Proof.
  unfold edit_component_streaming. destruct (negb _); [by stream|].
  match goal with |- context [edit_streaming_loop _ ?r ?i ?n ?c ?m ?f] =>
    pose proof (edit_streaming_loop_events client n c r i m f) as Hloop end.
  destruct (edit_streaming_loop _ _ _ _ _ _ _) as [fs' trace].
  cbn [snd] in Hloop. by stream.
Qed.

(** *** A completed turn *)

(** X21: when the tool-use loop of a turn runs to its end, every
    tool-use block of the turn has been dispatched, once and in order,
    and the results sent back to the model carry the ids of those
    blocks, in the same order, after those the list already held. *)
Theorem completed_turn_answers_every_block wanted blocks tool_results fs tool_results' :
  (tool_use_step wanted blocks tool_results fs).1.1 = Next tool_results' →
  map tool_use_id tool_results'
  = map tool_use_id tool_results ++ tool_use_ids blocks
  ∧ tool_calls (tool_use_step wanted blocks tool_results fs).2 = tool_uses blocks.
Proof.
  revert tool_results fs.
  induction blocks as [|[text|id tool_name tool_input] blocks IH];
    intros tool_results fs; cbn [tool_use_step].
  - intros [= <-]. by rewrite app_nil_r.
  - apply IH.
  - destruct (process_tool_call tool_name tool_input fs) as [[result|e] fs0]; [|done].
    destruct (String.eqb tool_name wanted && is_success result); [done|].
    specialize (IH (tool_results ++ [tool_result_of id result]) fs0).
    destruct (tool_use_step wanted blocks _ fs0) as [[out fs1] trace].
    cbn [fst snd] in *. intros [Hids Hcalls]%IH. split.
    + rewrite Hids, map_app. cbn [map tool_result_of tool_use_id].
      by rewrite <- app_assoc.
    + cbn [tool_calls tool_uses omap list_omap]. by f_equal.
Qed.

Lemma completed_turn_answers_every_block_witness :
  map tool_use_id lookup_results = map tool_use_id [] ++ tool_use_ids lookup_blocks
  ∧ tool_calls (tool_use_step "create_component" lookup_blocks [] button_fs).2
    = tool_uses lookup_blocks.
Proof.
  apply (completed_turn_answers_every_block "create_component" lookup_blocks []
           button_fs lookup_results).
  vm_compute. reflexivity.
Defined.

(** *** What a successful run ends with *)

Lemma tool_use_step_exit_last wanted blocks tool_results fs result fs' trace :
  tool_use_step wanted blocks tool_results fs = (Exit result, fs', trace) →
  ∃ before tool_input,
    trace = before ++ [ToolCall wanted tool_input]
    ∧ process_tool_call wanted tool_input (replay before fs) = (Return result, fs')
    ∧ is_success result = true.
Proof.
  intros (before & id & tool_input & after & mid & fs_mid & trace_before
          & -> & Hbefore & Hcall & Hok & ->)%AgentFacts.tool_use_step_exit_inv.
  exists trace_before, tool_input. split_and!; [done| |done].
  pose proof (tool_use_step_replay wanted before tool_results fs) as Hreplay.
  rewrite Hbefore in Hreplay. cbn [fst snd] in Hreplay. by rewrite <- Hreplay.
Qed.

Lemma edit_loop_success client remaining iteration messages fs :
  is_success (edit_loop client remaining iteration messages fs).1.1 = true →
  ∃ before tool_input,
    (edit_loop client remaining iteration messages fs).2
    = before ++ [ToolCall "update_component" tool_input]
    ∧ process_tool_call "update_component" tool_input (replay before fs)
      = (Return (edit_loop client remaining iteration messages fs).1.1,
         (edit_loop client remaining iteration messages fs).1.2).
Proof.
  revert iteration messages fs.
  induction remaining as [|remaining IH]; intros iteration messages fs;
    cbn [edit_loop]; [done|].
  destruct (client messages) as [resp|e]; [|done].
  destruct (String.eqb (stop_reason resp) "tool_use").
  - pose proof (tool_use_step_replay "update_component" (content resp) [] fs) as Hreplay.
    destruct (tool_use_step _ _ _ _) as [[[result|e|tool_results] fs'] trace] eqn:Hstep;
      cbn [fst snd] in *; [|done|].
    + intros _. apply tool_use_step_exit_last in Hstep
        as (before & tool_input & -> & Hcall & _).
      exists (LlmCall (S iteration) :: before), tool_input. by split.
    + match goal with |- context [edit_loop _ _ ?i ?m ?f] =>
        specialize (IH i m f) end.
      destruct (edit_loop _ _ _ _ _) as [[result fs''] trace'].
      cbn [fst snd] in *. intros (before & tool_input & -> & Hcall)%IH.
      exists (LlmCall (S iteration) :: trace ++ before), tool_input.
      split; [cbn [app]; by rewrite app_assoc|].
      rewrite replay_cons, replay_app. cbn [dispatch]. by rewrite <- Hreplay.
  - by destruct (String.eqb (stop_reason resp) "end_turn").
Qed.

(** X22: an edit run reports success only right after a successful
    [update_component] dispatch: that call is the last effect of the
    run, and the result and the file system of the run are its result
    and the file system it left. *)
Theorem edit_success_is_last_update client component_name edit_description fs :
  is_success (edit_component client component_name edit_description fs).1.1 = true →
  ∃ before tool_input,
    (edit_component client component_name edit_description fs).2
    = before ++ [ToolCall "update_component" tool_input]
    ∧ process_tool_call "update_component" tool_input (replay before fs)
      = (Return (edit_component client component_name edit_description fs).1.1,
         (edit_component client component_name edit_description fs).1.2).
Proof.
  unfold edit_component. destruct (negb _); [done|].
  match goal with |- context [edit_loop _ ?r ?i ?m ?f] =>
    pose proof (edit_loop_success client r i m f) as Hloop end.
  destruct (edit_loop _ _ _ _ _) as [[result fs'] trace].
  cbn [fst snd] in *. intros (before & tool_input & -> & Hcall)%Hloop.
  by exists (ReadComponent component_name :: before), tool_input.
Qed.

Lemma edit_success_is_last_update_witness :
  ∃ before tool_input,
    (edit_component blue_client "Button" "make it blue" button_fs).2
    = before ++ [ToolCall "update_component" tool_input]
    ∧ process_tool_call "update_component" tool_input (replay before button_fs)
      = (Return (edit_component blue_client "Button" "make it blue" button_fs).1.1,
         (edit_component blue_client "Button" "make it blue" button_fs).1.2).
Proof.
  apply (edit_success_is_last_update blue_client "Button" "make it blue" button_fs).
  vm_compute. reflexivity.
Defined.

Lemma generate_loop_success client component_name remaining iteration messages fs :
  is_success (generate_loop client remaining iteration component_name messages fs).1.1
  = true →
  (∃ before tool_input,
     (generate_loop client remaining iteration component_name messages fs).2
     = before ++ [ToolCall "create_component" tool_input]
     ∧ process_tool_call "create_component" tool_input (replay before fs)
       = (Return (generate_loop client remaining iteration component_name messages fs).1.1,
          (generate_loop client remaining iteration component_name messages fs).1.2))
  ∨ (∃ before,
       (generate_loop client remaining iteration component_name messages fs).2
       = before ++ [ReadComponent component_name]
       ∧ (generate_loop client remaining iteration component_name messages fs).1.1
         = read_component component_name
             (generate_loop client remaining iteration component_name messages fs).1.2).
Proof.
  revert iteration messages fs.
  induction remaining as [|remaining IH]; intros iteration messages fs;
    cbn [generate_loop]; [done|].
  destruct (client messages) as [resp|e]; [|done].
  destruct (String.eqb (stop_reason resp) "tool_use").
  - pose proof (tool_use_step_replay "create_component" (content resp) [] fs) as Hreplay.
    destruct (tool_use_step _ _ _ _) as [[[result|e|tool_results] fs'] trace] eqn:Hstep;
      cbn [fst snd] in *; [|done|].
    + intros _. left. apply tool_use_step_exit_last in Hstep
        as (before & tool_input & -> & Hcall & _).
      exists (LlmCall (S iteration) :: before), tool_input. by split.
    + match goal with |- context [generate_loop _ _ ?i _ ?m ?f] =>
        specialize (IH i m f) end.
      destruct (generate_loop _ _ _ _ _ _) as [[result fs''] trace'].
      cbn [fst snd] in *.
      intros [(before & tool_input & -> & Hcall)|(before & -> & Hread)]%IH.
      * left. exists (LlmCall (S iteration) :: trace ++ before), tool_input.
        split; [cbn [app]; by rewrite app_assoc|].
        rewrite replay_cons, replay_app. cbn [dispatch]. by rewrite <- Hreplay.
      * right. exists (LlmCall (S iteration) :: trace ++ before).
        split; [cbn [app]; by rewrite app_assoc|done].
  - destruct (String.eqb (stop_reason resp) "end_turn"); [|done].
    destruct (is_success (read_component component_name fs)) eqn:Hcheck.
    + intros _. right. by exists [LlmCall (S iteration)].
    + match goal with |- context [generate_loop _ _ ?i _ ?m ?f] =>
        specialize (IH i m f) end.
      destruct (generate_loop _ _ _ _ _ _) as [[result fs''] trace'].
      cbn [fst snd] in *.
      intros [(before & tool_input & -> & Hcall)|(before & -> & Hread)]%IH.
      * left. by exists (LlmCall (S iteration) :: ReadComponent component_name :: before),
          tool_input.
      * right. by exists (LlmCall (S iteration) :: ReadComponent component_name :: before).
Qed.

(** X23: a creation run reports success in two cases only: right after
    a successful [create_component] dispatch, whose result it returns,
    or right after reading the target when the model ended its turn, in
    which case the result is that of the read and the run itself may
    have written nothing. *)
Theorem generate_success_is_create_or_read client prompt component_name fs :
  is_success (generate_component client prompt component_name fs).1.1 = true →
  (∃ before tool_input,
     (generate_component client prompt component_name fs).2
     = before ++ [ToolCall "create_component" tool_input]
     ∧ process_tool_call "create_component" tool_input (replay before fs)
       = (Return (generate_component client prompt component_name fs).1.1,
          (generate_component client prompt component_name fs).1.2))
  ∨ (∃ before,
       (generate_component client prompt component_name fs).2
       = before ++ [ReadComponent component_name]
       ∧ (generate_component client prompt component_name fs).1.1
         = read_component component_name
             (generate_component client prompt component_name fs).1.2).
Proof. apply generate_loop_success. Qed.

Lemma generate_success_is_create_or_read_witness :
  (∃ before tool_input,
     (generate_component talk_client "a button" "Button" button_fs).2
     = before ++ [ToolCall "create_component" tool_input]
     ∧ process_tool_call "create_component" tool_input (replay before button_fs)
       = (Return (generate_component talk_client "a button" "Button" button_fs).1.1,
          (generate_component talk_client "a button" "Button" button_fs).1.2))
  ∨ (∃ before,
       (generate_component talk_client "a button" "Button" button_fs).2
       = before ++ [ReadComponent "Button"]
       ∧ (generate_component talk_client "a button" "Button" button_fs).1.1
         = read_component "Button"
             (generate_component talk_client "a button" "Button" button_fs).1.2).
Proof.
  apply (generate_success_is_create_or_read talk_client "a button" "Button" button_fs).
  vm_compute. reflexivity.
Defined.

(** A creation run for a component that exists succeeds without any
    tool call when the model only talks. *)
Example generate_existing_component :
  (generate_component talk_client "a button" "Button" button_fs).2
  = [LlmCall 1; ReadComponent "Button"]
  ∧ (generate_component talk_client "a button" "Button" button_fs).1.2 = button_fs.
Proof. vm_compute. done. Qed.

(** *** The calls of the model *)

Lemma iterations_llm iteration trace :
  iterations (LlmCall iteration :: trace) = iteration :: iterations trace.
Proof. done. Qed.

Lemma iterations_other e trace :
  is_llm_call e = false → iterations (e :: trace) = iterations trace.
Proof. by destruct e. Qed.

Lemma iterations_app trace1 trace2 :
  iterations (trace1 ++ trace2) = iterations trace1 ++ iterations trace2.
Proof. apply omap_app. Qed.

Lemma iterations_length trace : length (iterations trace) = llm_calls trace.
Proof.
  induction trace as [|e trace IH]; [done|].
  rewrite AgentFacts.llm_calls_cons. destruct e; cbn [is_llm_call];
    rewrite ?iterations_llm, ?iterations_other by done; simpl; by rewrite IH.
Qed.

Lemma tool_use_step_iterations wanted blocks tool_results fs :
  iterations (tool_use_step wanted blocks tool_results fs).2 = [].
Proof.
  pose proof (AgentFacts.tool_use_step_llm_calls wanted blocks tool_results fs) as Hcalls.
  rewrite <- iterations_length in Hcalls. by apply nil_length_inv.
Qed.

Lemma with_announcements_iterations trace :
  iterations (with_announcements trace) = iterations trace.
Proof.
  induction trace as [|e trace IH]; [done|].
  change (with_announcements (e :: trace))
    with (match e with
          | ToolCall tool_name _ => [announce_tool tool_name; e]
          | _ => [e]
          end ++ with_announcements trace).
  rewrite iterations_app, IH. by destruct e.
Qed.

Lemma tool_use_step_streaming_iterations blocks tool_results fs :
  iterations (tool_use_step_streaming blocks tool_results fs).2 = [].
Proof.
  rewrite AgentFacts.tool_use_step_streaming_spec.
  pose proof (tool_use_step_iterations "update_component" blocks tool_results fs) as Hstep.
  destruct (tool_use_step _ _ _ _) as [[out fs'] trace].
  cbn [snd] in *. by rewrite with_announcements_iterations.
Qed.

Ltac number :=
  cbn [fst snd] in *;
  unfold announce_iteration, announce_tool, announce_read, updated;
  repeat first
    [ rewrite iterations_llm | rewrite iterations_app
    | rewrite iterations_other by done ].

Lemma generate_loop_iterations client component_name remaining iteration messages fs :
  ∃ n, iterations (generate_loop client remaining iteration component_name messages fs).2
       = seq (S iteration) n.
Proof.
  revert iteration messages fs.
  induction remaining as [|remaining IH]; intros iteration messages fs;
    cbn [generate_loop]; [by exists 0|].
  destruct (client messages) as [resp|e]; [|by exists 1].
  destruct (String.eqb (stop_reason resp) "tool_use").
  - pose proof (tool_use_step_iterations "create_component" (content resp) [] fs) as Hstep.
    destruct (tool_use_step _ _ _ _) as [[[result|e|tool_results] fs'] trace];
      [exists 1; number; by rewrite Hstep..|].
    match goal with |- context [generate_loop _ _ ?i _ ?m ?f] =>
      destruct (IH i m f) as [n Hn] end.
    destruct (generate_loop _ _ _ _ _ _) as [[result fs''] trace'].
    exists (S n). number. by rewrite Hstep, Hn.
  - destruct (String.eqb (stop_reason resp) "end_turn"); [|by exists 1].
    destruct (is_success _); [by exists 1|].
    match goal with |- context [generate_loop _ _ ?i _ ?m ?f] =>
      destruct (IH i m f) as [n Hn] end.
    destruct (generate_loop _ _ _ _ _ _) as [[result fs''] trace'].
    exists (S n). number. by rewrite Hn.
Qed.

Lemma edit_loop_iterations client remaining iteration messages fs :
  ∃ n, iterations (edit_loop client remaining iteration messages fs).2
       = seq (S iteration) n.
Proof.
  revert iteration messages fs.
  induction remaining as [|remaining IH]; intros iteration messages fs;
    cbn [edit_loop]; [by exists 0|].
  destruct (client messages) as [resp|e]; [|by exists 1].
  destruct (String.eqb (stop_reason resp) "tool_use").
  - pose proof (tool_use_step_iterations "update_component" (content resp) [] fs) as Hstep.
    destruct (tool_use_step _ _ _ _) as [[[result|e|tool_results] fs'] trace];
      [exists 1; number; by rewrite Hstep..|].
    match goal with |- context [edit_loop _ _ ?i ?m ?f] =>
      destruct (IH i m f) as [n Hn] end.
    destruct (edit_loop _ _ _ _ _) as [[result fs''] trace'].
    exists (S n). number. by rewrite Hstep, Hn.
  - destruct (String.eqb (stop_reason resp) "end_turn"); by exists 1.
Qed.

Lemma edit_streaming_loop_iterations
    client component_name existing_code remaining iteration messages fs :
  ∃ n, iterations (edit_streaming_loop client remaining iteration component_name
                     existing_code messages fs).2
       = seq (S iteration) n.
Proof.
  revert iteration messages fs.
  induction remaining as [|remaining IH]; intros iteration messages fs;
    cbn [edit_streaming_loop]; [by exists 0|].
  destruct (client messages) as [resp|e]; [|by exists 1].
  destruct (String.eqb (stop_reason resp) "tool_use").
  - pose proof (tool_use_step_streaming_iterations (content resp) [] fs) as Hstep.
    destruct (tool_use_step_streaming _ _ _) as [[[result|e|tool_results] fs'] trace];
      [exists 1; number; by rewrite Hstep..|].
    match goal with |- context [edit_streaming_loop _ _ ?i _ _ ?m ?f] =>
      destruct (IH i m f) as [n Hn] end.
    destruct (edit_streaming_loop _ _ _ _ _ _ _) as [fs'' trace'].
    exists (S n). number. by rewrite Hstep, Hn.
  - destruct (String.eqb (stop_reason resp) "end_turn"); [|by exists 1].
    destruct (is_success _ && _); [by exists 1|].
    match goal with |- context [edit_streaming_loop _ _ ?i _ _ ?m ?f] =>
      destruct (IH i m f) as [n Hn] end.
    destruct (edit_streaming_loop _ _ _ _ _ _ _) as [fs'' trace'].
    exists (S n). number. by rewrite Hn.
Qed.

Lemma seq_of_length (l : list nat) start n : l = seq start n → l = seq start (length l).
Proof. intros ->. by rewrite length_seq. Qed.

(** X24: in every run the calls of the model are numbered 1, 2, 3, ...
    without a gap: the [k]-th call of a run is made in iteration [k]. *)
Theorem iterations_count_from_one client prompt edit_description component_name fs :
  iterations (generate_component client prompt component_name fs).2
  = seq 1 (llm_calls (generate_component client prompt component_name fs).2)
  ∧ iterations (edit_component client component_name edit_description fs).2
    = seq 1 (llm_calls (edit_component client component_name edit_description fs).2)
  ∧ iterations (edit_component_streaming client component_name edit_description fs).2
    = seq 1 (llm_calls
               (edit_component_streaming client component_name edit_description fs).2).
Proof.
  rewrite <- !iterations_length. split_and!.
  - unfold generate_component.
    match goal with |- context [generate_loop _ ?r ?i ?n ?m ?f] =>
      destruct (generate_loop_iterations client n r i m f) as [k Hk] end.
    by eapply seq_of_length.
  - unfold edit_component. destruct (negb _); [done|].
    match goal with |- context [edit_loop _ ?r ?i ?m ?f] =>
      destruct (edit_loop_iterations client r i m f) as [k Hk] end.
    destruct (edit_loop _ _ _ _ _) as [[result fs'] trace]. number.
    by eapply seq_of_length.
  - unfold edit_component_streaming. destruct (negb _); [done|].
    match goal with |- context [edit_streaming_loop _ ?r ?i ?n ?c ?m ?f] =>
      destruct (edit_streaming_loop_iterations client n c r i m f) as [k Hk] end.
    destruct (edit_streaming_loop _ _ _ _ _ _ _) as [fs' trace]. number.
    by eapply seq_of_length.
Qed.

Lemma generate_loop_calls client component_name remaining iteration messages fs :
  1 ≤ llm_calls (generate_loop client (S remaining) iteration component_name
                   messages fs).2.
Proof.
  cbn [generate_loop].
  destruct (client messages) as [resp|e]; [|AgentFacts.count_calls].
  destruct (String.eqb (stop_reason resp) "tool_use").
  - destruct (tool_use_step _ _ _ _) as [[[result|e|tool_results] fs'] trace];
      [AgentFacts.count_calls..|].
    destruct (generate_loop _ _ _ _ _ _) as [[result fs''] trace'].
    AgentFacts.count_calls.
  - destruct (String.eqb (stop_reason resp) "end_turn"); [|AgentFacts.count_calls].
    destruct (is_success _); [AgentFacts.count_calls|].
    destruct (generate_loop _ _ _ _ _ _) as [[result fs''] trace'].
    AgentFacts.count_calls.
Qed.

Lemma edit_loop_calls client remaining iteration messages fs :
  1 ≤ llm_calls (edit_loop client (S remaining) iteration messages fs).2.
Proof.
  cbn [edit_loop].
  destruct (client messages) as [resp|e]; [|AgentFacts.count_calls].
  destruct (String.eqb (stop_reason resp) "tool_use").
  - destruct (tool_use_step _ _ _ _) as [[[result|e|tool_results] fs'] trace];
      [AgentFacts.count_calls..|].
    destruct (edit_loop _ _ _ _ _) as [[result fs''] trace'].
    AgentFacts.count_calls.
  - destruct (String.eqb (stop_reason resp) "end_turn"); AgentFacts.count_calls.
Qed.

Lemma edit_streaming_loop_calls
    client component_name existing_code remaining iteration messages fs :
  1 ≤ llm_calls (edit_streaming_loop client (S remaining) iteration component_name
                   existing_code messages fs).2.
Proof.
  cbn [edit_streaming_loop]. unfold announce_iteration, updated.
  destruct (client messages) as [resp|e]; [|AgentFacts.count_calls].
  destruct (String.eqb (stop_reason resp) "tool_use").
  - destruct (tool_use_step_streaming _ _ _) as [[[result|e|tool_results] fs'] trace];
      [AgentFacts.count_calls..|].
    destruct (edit_streaming_loop _ _ _ _ _ _ _) as [fs'' trace'].
    AgentFacts.count_calls.
  - destruct (String.eqb (stop_reason resp) "end_turn"); [|AgentFacts.count_calls].
    destruct (is_success _ && _); [AgentFacts.count_calls|].
    destruct (edit_streaming_loop _ _ _ _ _ _ _) as [fs'' trace'].
    AgentFacts.count_calls.
Qed.

(** X25: a creation run always consults the model; an edit run,
    streaming or not, consults it exactly when the component to edit
    exists. *)
Theorem model_consulted_iff_target_exists
    client prompt edit_description component_name fs :
  1 ≤ llm_calls (generate_component client prompt component_name fs).2
  ∧ (llm_calls (edit_component client component_name edit_description fs).2 = 0
     ↔ components fs !! component_name = None)
  ∧ (llm_calls (edit_component_streaming client component_name edit_description fs).2 = 0
     ↔ components fs !! component_name = None).
Proof.
  split_and!.
  - apply generate_loop_calls.
  - unfold edit_component, read_component.
    destruct (components fs !! component_name) as [content|]; [|done].
    cbn [is_success status dict_get negb]. simpl negb. cbv iota.
    match goal with |- context [edit_loop _ _ ?i ?m ?f] =>
      pose proof (edit_loop_calls client 4 i m f) as Hcalls end.
    change max_iterations with 5.
    destruct (edit_loop _ _ _ _ _) as [[result fs'] trace].
    cbn [snd] in *. rewrite AgentFacts.llm_calls_cons. simpl. split; [lia|done].
  - unfold edit_component_streaming, read_component.
    destruct (components fs !! component_name) as [content|]; [|done].
    simpl negb. cbv iota.
    match goal with |- context [edit_streaming_loop _ _ ?i ?n ?c ?m ?f] =>
      pose proof (edit_streaming_loop_calls client n c 4 i m f) as Hcalls end.
    change max_iterations with 5.
    destruct (edit_streaming_loop _ _ _ _ _ _ _) as [fs' trace].
    cbn [snd] in *. unfold announce_read. rewrite !AgentFacts.llm_calls_cons. simpl.
    split; [lia|done].
Qed.

End AgentExtra.

(** ** The interaction generator *)

Module InteractionFacts.
Import Py Tools Agent Interaction Spec Samples SpecExtra SamplesExtra.

(** *** Stripping whitespace *)

Lemma rstrip_cons c t :
  rstrip (String c t)
  = match rstrip t with
    | EmptyString => if isspace c then EmptyString else String c EmptyString
    | r => String c r
    end.
Proof. done. Qed.

Lemma all_space_cons c s : all_space (String c s) ↔ isspace c = true ∧ all_space s.
Proof. unfold all_space. cbn [forall_chars]. apply andb_true_iff. Qed.

Lemma lstrip_space_app ws x : all_space ws → lstrip (ws +:+ x) = lstrip x.
Proof.
  induction ws as [|c ws IH]; [by rewrite LayoutFacts.append_nil|].
  intros [Hc Hws]%all_space_cons. rewrite LayoutFacts.append_cons. cbn [lstrip].
  rewrite Hc. auto.
Qed.

Lemma lstrip_all_space ws : all_space ws → lstrip ws = "".
Proof.
  induction ws as [|c ws IH]; [done|].
  intros [Hc Hws]%all_space_cons. cbn [lstrip]. rewrite Hc. auto.
Qed.

Lemma rstrip_all_space ws : all_space ws → rstrip ws = "".
Proof.
  induction ws as [|c ws IH]; [done|].
  intros [Hc Hws]%all_space_cons. rewrite rstrip_cons, IH by done. by rewrite Hc.
Qed.

Lemma rstrip_app_space x ws : all_space ws → rstrip (x +:+ ws) = rstrip x.
Proof.
  intros Hws. induction x as [|c x IH].
  - rewrite LayoutFacts.append_nil. by apply rstrip_all_space.
  - by rewrite LayoutFacts.append_cons, !rstrip_cons, IH.
Qed.

Lemma rstrip_app_keep x y : rstrip y ≠ "" → rstrip (x +:+ y) = x +:+ rstrip y.
Proof.
  intros Hy. induction x as [|c x IH]; [by rewrite !LayoutFacts.append_nil|].
  rewrite !LayoutFacts.append_cons, rstrip_cons, IH.
  destruct x as [|c' x].
  - rewrite LayoutFacts.append_nil. by destruct (rstrip y).
  - by rewrite LayoutFacts.append_cons.
Qed.

Lemma strip_keep a x b :
  all_space a → all_space b → lstrip x = x → rstrip x = x →
  strip (a +:+ x +:+ b) = x.
Proof.
  intros Ha Hb Hl Hr. unfold strip. rewrite lstrip_space_app by done.
  destruct x as [|c t]; [rewrite LayoutFacts.append_nil, lstrip_all_space; done|].
  assert (isspace c = false) as Hc.
  { destruct (isspace c) eqn:Hc; [|done]. cbn [lstrip] in Hl. rewrite Hc in Hl.
    apply (f_equal String.length) in Hl.
    assert (∀ s, String.length (lstrip s) ≤ String.length s) as Hle.
    { induction s as [|c' s IH]; [done|]. cbn [lstrip].
      destruct (isspace c'); simpl; lia. }
    specialize (Hle t). simpl in Hl. lia. }
  rewrite LayoutFacts.append_cons. cbn [lstrip]. rewrite Hc.
  rewrite <- LayoutFacts.append_cons. by rewrite rstrip_app_space.
Qed.

(** *** Prefixes, suffixes and slices *)

Lemma drop_chars_app p x : drop_chars (String.length p) (p +:+ x) = x.
Proof.
  induction p as [|c p IH]; [by rewrite LayoutFacts.append_nil|].
  by rewrite LayoutFacts.append_cons.
Qed.

Lemma startswith_app p x : startswith (p +:+ x) p = true.
Proof. apply StoreExtra.prefix_app. Qed.

Lemma endswith_app x s : endswith (x +:+ s) s = true.
Proof.
  induction x as [|c x IH].
  - rewrite LayoutFacts.append_nil. destruct s; cbn [endswith]; by rewrite String.eqb_refl.
  - rewrite LayoutFacts.append_cons. cbn [endswith]. rewrite IH. apply orb_true_r.
Qed.

Lemma length_append x y :
  String.length (x +:+ y) = String.length x + String.length y.
Proof.
  induction x as [|c x IH]; [by rewrite LayoutFacts.append_nil|].
  rewrite LayoutFacts.append_cons. simpl. by rewrite IH.
Qed.

Lemma take_chars_app x y : take_chars (String.length x) (x +:+ y) = x.
Proof.
  unfold take_chars. induction x as [|c x IH].
  - rewrite LayoutFacts.append_nil. by destruct y.
  - rewrite LayoutFacts.append_cons. simpl. by rewrite IH.
Qed.

Lemma drop_last_app x y : drop_last (String.length y) (x +:+ y) = x.
Proof.
  unfold drop_last. rewrite length_append.
  replace (String.length x + String.length y - String.length y) with (String.length x)
    by lia.
  apply take_chars_app.
Qed.

Lemma space_not c d : isspace c = true → isspace d = false → d ≠ c.
Proof. intros Hc Hd ->. congruence. Qed.

(** The clean-up of a fenced text whose fence is followed by whitespace. *)
Lemma strip_fences_fenced fence ws0 c middle ws3 :
  fence ∈ ["```json"; "```"] →
  all_space ws0 → all_space ws3 → isspace c = true →
  strip_fences (ws0 +:+ (fence +:+ String c middle +:+ "```") +:+ ws3)
  = strip (String c middle).
Proof.
  intros Hfence Hws0 Hws3 Hc. unfold strip_fences.
  assert (strip (ws0 +:+ (fence +:+ String c middle +:+ "```") +:+ ws3)
          = fence +:+ String c middle +:+ "```") as ->.
  { apply strip_keep; [done|done| |].
    - apply elem_of_cons in Hfence as [->|[->|[]%elem_of_nil]%elem_of_cons];
        by rewrite LayoutFacts.append_cons.
    - rewrite <- LayoutExtra.append_assoc, rstrip_app_keep by done.
      reflexivity. }
  assert (startswith (String c middle +:+ "```") "```" = false) as Hmiddle.
  { unfold startswith. rewrite LayoutFacts.append_cons.
    apply LayoutFacts.prefix_cons_ne. by apply space_not. }
  assert (drop_last 3 (String c middle +:+ "```") = String c middle) as Hlast.
  { apply (drop_last_app (String c middle) "```"). }
  apply elem_of_cons in Hfence as [->|[->|[]%elem_of_nil]%elem_of_cons].
  - rewrite startswith_app.
    change 7 with (String.length "```json"). rewrite drop_chars_app.
    by rewrite Hmiddle, endswith_app, Hlast.
  - assert (startswith ("```" +:+ String c middle +:+ "```") "```json" = false) as ->.
    { unfold startswith. rewrite !LayoutFacts.append_cons, LayoutFacts.append_nil.
      rewrite !LayoutFacts.prefix_cons_eq. apply LayoutFacts.prefix_cons_ne.
      by apply space_not. }
    rewrite startswith_app.
    assert (drop_chars 3 ("```" +:+ String c middle +:+ "```")
            = String c middle +:+ "```") as -> by apply (drop_chars_app "```").
    by rewrite endswith_app, Hlast.
Qed.

(** X26: an answer wrapped in a markdown code fence is unwrapped: with
    whitespace around the fenced text and between the fences and the
    body, and at least one whitespace character after the opening fence,
    what is parsed is the body without the whitespace around it.  The
    opening fence is three backquotes, with or without the tag [json]. *)
Theorem fenced_answer_is_unwrapped fence ws0 ws1 body ws2 ws3 :
  fence ∈ ["```json"; "```"] →
  all_space ws0 → all_space ws1 → all_space ws2 → all_space ws3 →
  truthy ws1 = true →
  strip_fences (ws0 +:+ fence +:+ ws1 +:+ body +:+ ws2 +:+ "```" +:+ ws3)
  = strip body.
Proof.
  intros Hfence Hws0 Hws1 Hws2 Hws3 Hne.
  destruct ws1 as [|c ws1]; [done|]. apply all_space_cons in Hws1 as [Hc Hws1].
  transitivity (strip (String c (ws1 +:+ body +:+ ws2))).
  - rewrite <- (strip_fences_fenced fence ws0 c (ws1 +:+ body +:+ ws2) ws3) by done.
    f_equal.
    by repeat first [rewrite LayoutFacts.append_cons | rewrite LayoutExtra.append_assoc].
  - unfold strip. cbn [lstrip]. rewrite Hc.
    rewrite lstrip_space_app by done.
    assert (∀ x ws, all_space ws → lstrip (x +:+ ws) = lstrip x +:+ ws
                                  ∨ lstrip x = "") as Hl.
    { induction x as [|c' x IH]; intros ws Hws; [by right|].
      rewrite LayoutFacts.append_cons. cbn [lstrip]. destruct (isspace c').
      - by apply IH.
      - left. by rewrite LayoutFacts.append_cons. }
    destruct (Hl body ws2 Hws2) as [->|Hempty].
    + by apply rstrip_app_space.
    + rewrite Hempty. cbn [rstrip].
      assert (∀ x, lstrip x = "" → all_space x) as Hall.
      { induction x as [|c' x IH]; [done|]. cbn [lstrip].
        destruct (isspace c') eqn:Hc'; [|done]. intros ?%IH. by apply all_space_cons. }
      rewrite lstrip_all_space; [done|].
      assert (∀ a b, all_space a → all_space b → all_space (a +:+ b)) as Happ.
      { induction a as [|c' a IH]; intros b Ha Hb; [by rewrite LayoutFacts.append_nil|].
        apply all_space_cons in Ha as [? ?]. rewrite LayoutFacts.append_cons.
        apply all_space_cons. auto. }
      auto.
Qed.

Lemma fenced_answer_is_unwrapped_witness :
  strip_fences (" " +:+ "```json" +:+ newline +:+ "{ }" +:+ newline +:+ "```" +:+ newline)
  = strip "{ }".
Proof.
  apply (fenced_answer_is_unwrapped "```json" " " newline "{ }" newline newline);
    try reflexivity.
  apply list_elem_of_here.
Defined.

(** A fence with another tag keeps the tag; a text without a fence is
    only stripped. *)
Example other_fences :
  strip_fences ("```ts" +:+ newline +:+ "{ }" +:+ newline +:+ "```")
  = "ts" +:+ newline +:+ "{ }"
  ∧ strip_fences (newline +:+ "{ }" +:+ newline) = "{ }"
  ∧ strip_fences "```json```" = "".
Proof. vm_compute. done. Qed.

(** *** The result of [generate_interaction] *)

(** X27: [generate_interaction] reports success exactly when the model
    answers, the cleaned answer is valid JSON and the decoded value is an
    object: any other JSON value is reported as an error.  A returned
    interaction has six keys; its [type] and [description] are those of
    the request, whatever the model answered, and its id is the fresh
    one. *)
Theorem interaction_success_iff
    client loads uuid4 component_id component_name description event_type :
  (is_success (generate_interaction client loads uuid4 component_id component_name
                 description event_type) = true
   ↔ ∃ resp parsed,
       client component_name event_type description = Return resp
       ∧ loads (strip_fences (text_response (content resp))) = inl (JObj parsed))
  ∧ (∀ interaction,
       dict_get "interaction"
         (generate_interaction client loads uuid4 component_id component_name
            description event_type) = Some (JObj interaction) →
       interaction.*1 = ["id"; "type"; "description"; "handlerName"; "code"; "state"]
       ∧ dict_get "id" interaction = Some (JStr uuid4)
       ∧ dict_get "type" interaction = Some (JStr event_type)
       ∧ dict_get "description" interaction = Some (JStr description)).
Proof.
  unfold generate_interaction.
  destruct (client component_name event_type description) as [resp|e].
  2: { split; [|done]. split; [done|]. by intros (? & ? & ? & _). }
  destruct (loads (strip_fences (text_response (content resp)))) as [v|what] eqn:Hloads.
  2: { split; [|done]. split; [done|]. intros (? & ? & [= <-] & ?). congruence. }
  destruct v as [|b|z|s|l|parsed];
    try (split; [|done]; split; [done|]; intros (? & ? & [= <-] & ?); congruence).
  split.
  - split; [|done]. intros _. by exists resp, parsed.
  - intros interaction [= <-]. by split_and!.
Qed.

(** A fenced empty object gives an interaction with the default handler
    name; a list is reported as an error. *)
Example interaction_samples :
  generate_interaction fenced_client loads_sample "0b5e" "c1" "Button" "say hello" "onClick"
  = [("status", JStr "success");
     ("interaction",
      JObj [("id", JStr "0b5e"); ("type", JStr "onClick");
            ("description", JStr "say hello");
            ("handlerName", JStr "handleEvent"); ("code", JStr "");
            ("state", JArr [])])]
  ∧ generate_interaction list_client loads_sample "0b5e" "c1" "Button" "say hello" "onClick"
    = error_result "Error generating interaction: 'list' object has no attribute 'get'".
Proof. vm_compute. done. Qed.

End InteractionFacts.
